(** * The AWD-LSTM training core of [dev_nb/nb_007.py]

    A shallow embedding of the window scheduler ([LanguageModelLoader]),
    the dropout modules ([RNNDropout], [EmbeddingDropout]), the stateful
    encoder ([RNNCore]) and the training hook ([RNNTrainer]), with the
    properties of the specification stated and settled on it.

    Python integers are [Z] ([//] is [Z.div], which floors like Python's),
    Python floats are idealised as rationals ([Q]), exceptions are the
    [Raise] branch of [result]. *)

From Stdlib Require Import String ZArith List Bool Lia QArith.
Import ListNotations.
Open Scope Z_scope.

(** ** Exceptions *)

Inductive PyErr : Type :=
| ZeroDivisionError
| ValueError
| IndexError
| RuntimeError
| ImportError
| AssertionError
| AttributeError (attr : string).

Inductive result (A : Type) : Type :=
| Ok (a : A)
| Raise (e : PyErr).
Arguments Ok {A} a.
Arguments Raise {A} e.

Definition bind {A B} (r : result A) (f : A -> result B) : result B :=
  match r with
  | Ok a => f a
  | Raise e => Raise e
  end.

Notation "'let*' x ':=' r 'in' k" := (bind r (fun x => k))
  (at level 10, x pattern, r at level 100, k at level 200).

Definition succeeds {A} (r : result A) : Prop := exists a, r = Ok a.
Definition fails {A} (r : result A) : Prop := exists e, r = Raise e.

(** The exception of an outcome, if any. *)
Definition raised {A} (r : result A) : option PyErr :=
  match r with
  | Ok _ => None
  | Raise e => Some e
  end.

(** ** Python sequence helpers *)

Section Slices.
Context {A : Type}.

(** Normalisation of one bound of [l[a:b]] for a sequence of length [len]:
    a negative bound counts from the end, and both are clamped. *)
Definition slice_bound (len k : Z) : Z :=
  if k <? 0 then Z.max 0 (k + len) else Z.min k len.

(** [l[a:b]] *)
Definition py_slice (a b : Z) (l : list A) : list A :=
  let len := Z.of_nat (length l) in
  let a' := slice_bound len a in
  let b' := slice_bound len b in
  firstn (Z.to_nat (b' - a')) (skipn (Z.to_nat a') l).

(** [rows] consecutive chunks of [cols] elements: the rows of a C-ordered
    [rows x cols] array over the flat data [l]. *)
Fixpoint chunks (rows cols : nat) (l : list A) : list (list A) :=
  match rows with
  | O => []
  | S r => firstn cols l :: chunks r cols (skipn cols l)
  end.
End Slices.

(** [a.reshape(rows, -1)] on a flat array: the missing extent is inferred,
    and numpy refuses a negative or zero [rows] and a size that [rows] does
    not divide. *)
Definition reshape_rows (rows : Z) (l : list Z) : result (nat * list (list Z)) :=
  let size := Z.of_nat (length l) in
  if rows <=? 0 then Raise ValueError
  else if negb (size mod rows =? 0) then Raise ValueError
  else let cols := Z.to_nat (size / rows) in
       Ok (cols, chunks (Z.to_nat rows) cols l).

(** [m.T] for a two-dimensional array given by its rows, [cols] wide. *)
Definition transpose (cols : nat) (m : list (list Z)) : list (list Z) :=
  map (fun t => map (fun row => nth t row 0) m) (seq 0 cols).

(** ** LanguageModelLoader *)

Module Loader.

(** The batch matrix is kept as the list of its rows, time first: row [t]
    holds the [bs] tokens of time step [t]. *)
Definition Matrix := list (list Z).

Record LanguageModelLoader : Type := mk {
  bs : Z;
  bptt : Z;
  backwards : bool;
  data : Matrix;
  first : bool;
  i : Z;
  iter : Z;
  n : Z
}.

(** [batchify]: [data.shape[0] // self.bs] raises on [bs = 0]. *)
Definition batchify (bs : Z) (backwards : bool) (nums : list Z) : result Matrix :=
  if bs =? 0 then Raise ZeroDivisionError
  else
    let nb := Z.of_nat (length nums) / bs in
    let* (cols, m) := reshape_rows bs (py_slice 0 (nb * bs) nums) in
    let d := transpose cols m in
    Ok (if backwards then rev d else d).

Definition __init__ (nums : list Z) (bs bptt : Z) (backwards : bool)
  : result LanguageModelLoader :=
  let* d := batchify bs backwards nums in
  Ok {| bs := bs; bptt := bptt; backwards := backwards; data := d;
        first := true; i := 0; iter := 0; n := Z.of_nat (length d) |}.

Definition __len__ (self : LanguageModelLoader) : result Z :=
  if bptt self =? 0 then Raise ZeroDivisionError
  else Ok ((n self - 1) / bptt self).

(** The builtin [len(self)]: it refuses a negative [__len__]. *)
Definition len (self : LanguageModelLoader) : result Z :=
  let* v := __len__ self in
  if v <? 0 then Raise ValueError else Ok v.

(** [data[:, r]]: the tokens of stream [r], in time order. *)
Definition stream (r : nat) (m : Matrix) : list Z :=
  map (fun row => nth r row 0) m.

(** [get_batch]: the pair of the input rows and of the flattened target. *)
Definition get_batch (self : LanguageModelLoader) (i seq_len : Z)
  : Matrix * list Z :=
  let seq_len := Z.min seq_len (Z.of_nat (length (data self)) - 1 - i) in
  (py_slice i (i + seq_len) (data self),
   concat (py_slice (i + 1) (i + 1 + seq_len) (data self))).

(** One [yield] of the generator, with the cursor and the requested length
    it was produced from. *)
Record Yield : Type := mkYield {
  y_i : Z;
  y_seq_len : Z;
  y_res : Matrix * list Z
}.

Inductive Stop : Type :=
| Exhausted
| Raised (e : PyErr)
| OutOfFuel.

Record Run : Type := mkRun {
  yields : list Yield;
  final : LanguageModelLoader;
  stop : Stop
}.

Definition emit (y : Yield) (r : Run) : Run :=
  {| yields := y :: yields r; final := final r; stop := stop r |}.

(** The [while] loop of [__iter__].  The random source is the oracle
    [draws]: [draws k] is the value of
    [int(np.random.normal(bptt, 5))] at the [k]-th execution of the [else]
    branch (any integer can come out of it, whichever mean was chosen by
    the uniform draw). *)
Fixpoint while_loop (fuel : nat) (draws : nat -> Z) (k : nat)
         (self : LanguageModelLoader) : Run :=
  match fuel with
  | O => {| yields := []; final := self; stop := OutOfFuel |}
  | S fuel' =>
      if i self <? n self - 1 then
        match len self with
        | Raise e => {| yields := []; final := self; stop := Raised e |}
        | Ok cap =>
            if iter self <? cap then
              let '(first', seq_len, k') :=
                if first self && (i self =? 0)
                then (false, bptt self + 25, k)
                else (first self, Z.max 5 (draws k), S k) in
              let res := get_batch self (i self) seq_len in
              let self' :=
                {| bs := bs self; bptt := bptt self;
                   backwards := backwards self; data := data self;
                   first := first';
                   i := i self + seq_len;
                   iter := iter self + 1;
                   n := n self |} in
              emit {| y_i := i self; y_seq_len := seq_len; y_res := res |}
                   (while_loop fuel' draws k' self')
            else {| yields := []; final := self; stop := Exhausted |}
        end
      else {| yields := []; final := self; stop := Exhausted |}
  end.

Definition restart (self : LanguageModelLoader) : LanguageModelLoader :=
  {| bs := bs self; bptt := bptt self; backwards := backwards self;
     data := data self; first := first self; i := 0; iter := 0;
     n := n self |}.

(** Iterations left before the cap [iter < len(self)] closes the loop. *)
Definition cap (self : LanguageModelLoader) : nat :=
  match __len__ self with
  | Ok v => Z.to_nat (v - iter self)
  | Raise _ => O
  end.

(** One full traversal of [__iter__]: every window is pulled until the
    generator returns.  The loop gets one unit of fuel more than the cap
    leaves iterations, which it never uses up. *)
Definition __iter__ (self : LanguageModelLoader) (draws : nat -> Z) : Run :=
  let self0 := restart self in
  while_loop (S (cap self0)) draws O self0.

(** The windows as the caller receives them. *)
Definition windows (r : Run) : list (Matrix * list Z) := map y_res (yields r).

(** The stream of the end-to-end scenario: 1000 ids. *)
Definition scenario : list Z := map Z.of_nat (seq 0 1000).

(** A stream of twelve ids, and the loader built from it with [bs = 2] and
    [bptt = 1]. *)
Definition small_stream : list Z := map Z.of_nat (seq 0 12).

Definition small : LanguageModelLoader :=
  {| bs := 2; bptt := 1; backwards := false;
     data := [[0; 6]; [1; 7]; [2; 8]; [3; 9]; [4; 10]; [5; 11]];
     first := true; i := 0; iter := 0; n := 6 |}.

(** Its first window on a fresh traversal: requested for 26 steps, cut to
    the five that are left. *)
Definition small_window : Yield :=
  {| y_i := 0; y_seq_len := 26;
     y_res := ([[0; 6]; [1; 7]; [2; 8]; [3; 9]; [4; 10]],
               [1; 7; 2; 8; 3; 9; 4; 10; 5; 11]) |}.

End Loader.

(** ** Tensors

    The tensor engine is outside the repository.  A tensor is its shape and
    its elements in row-major order; the operations below are the ones the
    source calls, with the documented behaviour of the engine. *)

Module Torch.

Record Tensor : Type := mkTensor {
  shape : list nat;
  elems : list Q
}.

(** The ids of a [LongTensor]. *)
Record LongTensor : Type := mkLong {
  l_shape : list nat;
  l_elems : list Z
}.

Definition numel (sh : list nat) : nat := fold_right Nat.mul 1%nat sh.

(** [w.new(sz).zero_()], [sz] spread as arguments *)
Definition zeros (sz : list nat) : Tensor :=
  {| shape := sz; elems := repeat 0%Q (numel sz) |}.

(** [t.mul_(c)] and [t * c] on the values. *)
Definition scale_by (c : Q) (t : Tensor) : Tensor :=
  {| shape := shape t; elems := map (fun v => (v * c)%Q) (elems t) |}.

Fixpoint zip_mul (xs ms : list Q) : list Q :=
  match xs, ms with
  | x :: xs', m :: ms' => (x * m)%Q :: zip_mul xs' ms'
  | _, _ => []
  end.

(** [x * m] where [m] has extent 1 on its leading axis and the extents of
    [x] on the others: [m] is repeated along the leading axis of [x]. *)
Definition mul_leading (x m : Tensor) : Tensor :=
  let inner := numel (tl (shape x)) in
  {| shape := shape x;
     elems := concat (map (fun row => zip_mul row (elems m))
                          (chunks (hd O (shape x)) inner (elems x))) |}.

(** [w * m] where [m] has shape [(rows, 1)]: row [r] of [w] is multiplied
    by the single entry [r] of [m]. *)
Definition mul_rows (w m : Tensor) : Tensor :=
  let cols := numel (tl (shape w)) in
  {| shape := shape w;
     elems := concat (map (fun rm => map (fun v => (v * snd rm)%Q) (fst rm))
                          (combine (chunks (hd O (shape w)) cols (elems w))
                                   (elems m))) |}.

(** The process-wide random state: [draw k] is the outcome of the [k]-th
    Bernoulli trial, and a cursor says how many were consumed. *)
Definition Rng := nat -> bool.

(** [dropout_mask(x, sz, p)]: [x.new(sz).bernoulli_(1-p).div_(1-p)].
    The trials are read from the random state at cursor [pos]. *)
Definition dropout_mask (draw : Rng) (pos : nat) (sz : list nat) (p : Q)
  : Tensor * nat :=
  let k := numel sz in
  ({| shape := sz;
      elems := map (fun j => ((if draw j then 1 else 0) / (1 - p))%Q)
                   (seq pos k) |},
   (pos + k)%nat).

(** A probability in [[0, 1)]. *)
Definition in_unit (p : Q) : Prop := (0 <= p)%Q /\ (p < 1)%Q.

(** Python truthiness of an optional number: [None] and [0] are false. *)
Definition truthy (c : option Q) : bool :=
  match c with
  | None => false
  | Some q => negb (Qeq_bool q 0)
  end.

End Torch.

(** ** RNNDropout *)

Module RNNDropout.
Import Torch.

Record RNNDropout : Type := mk {
  p : Q;
  training : bool
}.

(** [__init__(self, p=0.5)]: the probability is stored as given; a module
    starts in training mode. *)
Definition __init__ (p : Q) : result RNNDropout :=
  Ok {| p := p; training := true |}.

(** [forward]; [x.size(1)] and [x.size(2)] need three axes. *)
Definition forward (draw : Rng) (pos : nat) (self : RNNDropout) (x : Tensor)
  : result (Tensor * nat) :=
  if negb (training self) || Qeq_bool (p self) 0 then Ok (x, pos)
  else
    match shape x with
    | [_; b; f] =>
        let '(m, pos') := dropout_mask draw pos [1%nat; b; f] (p self) in
        Ok (mul_leading x m, pos')
    | _ => Raise IndexError
    end.

End RNNDropout.

(** ** EmbeddingDropout *)

Module EmbeddingDropout.
Import Torch.

(** The wrapped [nn.Embedding]: its configuration and its weight
    parameter, a [(num_embeddings, embedding_dim)] tensor. *)
Record Embedding : Type := mkEmbedding {
  weight : Tensor;
  requires_grad : bool;
  padding_idx : option Z;
  max_norm : option Q;
  norm_type : Q;
  scale_grad_by_freq : bool;
  sparse : bool
}.

Definition set_weight (e : Embedding) (w : Tensor) : Embedding :=
  {| weight := w; requires_grad := requires_grad e;
     padding_idx := padding_idx e; max_norm := max_norm e;
     norm_type := norm_type e; scale_grad_by_freq := scale_grad_by_freq e;
     sparse := sparse e |}.

(** [self.emb] is a reference to the wrapped table: the record holds the
    table itself, so that a write through the reference is a write to the
    table. *)
Record EmbeddingDropout : Type := mk {
  emb : Embedding;
  embed_p : Q;
  pad_idx : Z;
  training : bool
}.

Definition set_emb (self : EmbeddingDropout) (e : Embedding) : EmbeddingDropout :=
  {| emb := e; embed_p := embed_p self; pad_idx := pad_idx self;
     training := training self |}.

Definition __init__ (emb : Embedding) (embed_p : Q) : result EmbeddingDropout :=
  Ok {| emb := emb; embed_p := embed_p;
        pad_idx := match padding_idx emb with Some k => k | None => -1 end;
        training := true |}.

(** What the local variable [masked_embed] is bound to: the table's own
    weight tensor (the [else] branch binds the same object, not a copy), or
    a tensor made by this call. *)
Inductive Binding : Type :=
| TheWeight
| Fresh (t : Tensor).

Definition deref (self : EmbeddingDropout) (b : Binding) : Tensor :=
  match b with
  | TheWeight => weight (emb self)
  | Fresh t => t
  end.

(** Row [k] of a two-axis tensor, [IndexError] outside the table. *)
Definition row (w : Tensor) (k : Z) : result (list Q) :=
  let cols := numel (tl (shape w)) in
  if (k <? 0) || (Z.of_nat (hd O (shape w)) <=? k) then Raise IndexError
  else Ok (firstn cols (skipn (Z.to_nat k * cols) (elems w))).

Fixpoint rows (w : Tensor) (ks : list Z) : result (list Q) :=
  match ks with
  | [] => Ok []
  | k :: ks' =>
      let* r := row w k in
      let* rs := rows w ks' in
      Ok (r ++ rs)
  end.

(** The lookup of [F.embedding]: one row of [w] per id. *)
Definition lookup (words : LongTensor) (w : Tensor) : result Tensor :=
  let* vs := rows w (l_elems words) in
  Ok {| shape := l_shape words ++ tl (shape w); elems := vs |}.

Section Forward.
(** [F.embedding] with a [max_norm] first renormalises, in place, the rows
    of the tensor it is given that [words] names; [renorm] is that
    operation of the engine. *)
Variable renorm : Q -> Q -> LongTensor -> Tensor -> Tensor.

(** In-place [b.mul_(scale)].  The engine refuses an in-place operation on
    a leaf that requires grad while gradients are recorded. *)
Definition mul_ (grad_enabled : bool) (self : EmbeddingDropout) (b : Binding)
           (scale : Q) : result (EmbeddingDropout * Binding) :=
  match b with
  | Fresh t => Ok (self, Fresh (scale_by scale t))
  | TheWeight =>
      if requires_grad (emb self) && grad_enabled then Raise RuntimeError
      else Ok (set_emb self (set_weight (emb self)
                               (scale_by scale (weight (emb self)))),
               TheWeight)
  end.

Definition embedding (self : EmbeddingDropout) (words : LongTensor)
           (b : Binding) : result (EmbeddingDropout * Tensor) :=
  let '(self, b) :=
    match max_norm (emb self), b with
    | None, _ => (self, b)
    | Some mx, Fresh t => (self, Fresh (renorm mx (norm_type (emb self)) words t))
    | Some mx, TheWeight =>
        (set_emb self (set_weight (emb self)
            (renorm mx (norm_type (emb self)) words (weight (emb self)))),
         TheWeight)
    end in
  let* out := lookup words (deref self b) in
  Ok (self, out).

(** [forward(self, words, scale=None)].  The module after the call is
    returned next to the outcome: an exception leaves it as it was when
    raised. *)
Definition forward (grad_enabled : bool) (draw : Rng) (pos : nat)
           (self : EmbeddingDropout) (words : LongTensor) (scale : option Q)
  : EmbeddingDropout * result (Tensor * nat) :=
  let '(masked_embed, pos') :=
    if training self && negb (Qeq_bool (embed_p self) 0) then
      let size := [hd O (shape (weight (emb self))); 1%nat] in
      let '(mask, pos') := dropout_mask draw pos size (embed_p self) in
      (Fresh (mul_rows (weight (emb self)) mask), pos')
    else (TheWeight, pos) in
  let scaled :=
    match scale with
    | Some c => if truthy scale then mul_ grad_enabled self masked_embed c
                else Ok (self, masked_embed)
    | None => Ok (self, masked_embed)
    end in
  match scaled with
  | Raise e => (self, Raise e)
  | Ok (self1, b) =>
      match embedding self1 words b with
      | Raise e => (self1, Raise e)
      | Ok (self2, out) => (self2, Ok (out, pos'))
      end
  end.
End Forward.

End EmbeddingDropout.

(** ** RNNCore *)

Module RNNCore.
Import Torch.

(** The state of one layer: a tensor for the QRNN family, the pair of the
    hidden and cell tensors for the LSTM family. *)
Inductive Hidden : Type :=
| One (h : Tensor)
| Pair (h c : Tensor).

(** The recurrent layers and the embedding table are built and run by
    libraries outside the repository ([torch.nn], [qrnn]); the encoder is
    modelled over any implementation of them. *)
Record Backend : Type := mkBackend {
  Layer : Type;
  (** whether [from qrnn import QRNNLayer] finds the module *)
  qrnn_importable : bool;
  (** [nn.Embedding(vocab_sz, emb_sz, padding_idx=pad_token)]: the
      [padding_idx] it stores, or the exception it raises *)
  nn_Embedding : nat -> nat -> option Z -> result (option Z);
  (** [nn.LSTM(input_size, hidden_size, 1, bidirectional=bidir)] *)
  nn_LSTM : nat -> nat -> bool -> result Layer;
  (** [QRNNLayer(input_size, hidden_size, ..., window=w, ...)] *)
  QRNNLayer : nat -> nat -> nat -> result Layer;
  (** [r.reset()] where the layer has one, [None] where it has none *)
  layer_reset : Layer -> option Layer;
  (** the layer's call on an activation and a state, in the given training
      mode and under the given weight dropout: the new activation, the new
      state, the layer after the call and the cursor of the random state *)
  layer_forward : bool -> option Q -> Layer -> Tensor -> Hidden ->
                  Rng -> nat -> result (Tensor * Hidden * Layer * nat);
  (** the in-place renormalisation of [F.embedding] *)
  embedding_renorm : Q -> Q -> LongTensor -> Tensor -> Tensor
}.

Section Encoder.
Variable B : Backend.

(** A layer of [self.rnns]: the layer, and the probability of the
    [WeightDropout] wrapped around it (around its [linear] map for a QRNN)
    when there is one. *)
Record Rnn : Type := mkRnn {
  cell : Layer B;
  weight_p : option Q
}.

Record RNNCore : Type := mk {
  bs : nat;
  qrnn : bool;
  ndir : nat;
  emb_sz : nat;
  n_hid : nat;
  n_layers : nat;
  (** [self.encoder_dp], which holds [self.encoder] *)
  encoder_dp : EmbeddingDropout.EmbeddingDropout;
  rnns : list Rnn;
  input_dp : RNNDropout.RNNDropout;
  hidden_dps : list RNNDropout.RNNDropout;
  (** [self.hidden] and [self.weights]: [None] while the attribute has
      never been assigned *)
  hidden : option (list Hidden);
  weights : option Tensor;
  training : bool
}.

Definition encoder (self : RNNCore) : EmbeddingDropout.Embedding :=
  EmbeddingDropout.emb (encoder_dp self).

Definition set_bs (self : RNNCore) (b : nat) : RNNCore :=
  {| bs := b; qrnn := qrnn self; ndir := ndir self; emb_sz := emb_sz self;
     n_hid := n_hid self; n_layers := n_layers self;
     encoder_dp := encoder_dp self; rnns := rnns self;
     input_dp := input_dp self; hidden_dps := hidden_dps self;
     hidden := hidden self; weights := weights self;
     training := training self |}.

Definition set_encoder_dp (self : RNNCore)
           (e : EmbeddingDropout.EmbeddingDropout) : RNNCore :=
  {| bs := bs self; qrnn := qrnn self; ndir := ndir self;
     emb_sz := emb_sz self; n_hid := n_hid self; n_layers := n_layers self;
     encoder_dp := e; rnns := rnns self;
     input_dp := input_dp self; hidden_dps := hidden_dps self;
     hidden := hidden self; weights := weights self;
     training := training self |}.

Definition set_rnns (self : RNNCore) (rs : list Rnn) : RNNCore :=
  {| bs := bs self; qrnn := qrnn self; ndir := ndir self;
     emb_sz := emb_sz self; n_hid := n_hid self; n_layers := n_layers self;
     encoder_dp := encoder_dp self; rnns := rs;
     input_dp := input_dp self; hidden_dps := hidden_dps self;
     hidden := hidden self; weights := weights self;
     training := training self |}.

Definition set_hidden (self : RNNCore) (h : option (list Hidden)) : RNNCore :=
  {| bs := bs self; qrnn := qrnn self; ndir := ndir self;
     emb_sz := emb_sz self; n_hid := n_hid self; n_layers := n_layers self;
     encoder_dp := encoder_dp self; rnns := rnns self;
     input_dp := input_dp self; hidden_dps := hidden_dps self;
     hidden := h; weights := weights self;
     training := training self |}.

Definition set_weights (self : RNNCore) (w : option Tensor) : RNNCore :=
  {| bs := bs self; qrnn := qrnn self; ndir := ndir self;
     emb_sz := emb_sz self; n_hid := n_hid self; n_layers := n_layers self;
     encoder_dp := encoder_dp self; rnns := rnns self;
     input_dp := input_dp self; hidden_dps := hidden_dps self;
     hidden := hidden self; weights := w;
     training := training self |}.

(** A list comprehension whose body can raise. *)
Fixpoint comprehension {A X} (f : X -> result A) (xs : list X)
  : result (list A) :=
  match xs with
  | [] => Ok []
  | x :: xs' =>
      let* a := f x in
      let* rest := comprehension f xs' in
      Ok (a :: rest)
  end.

(** [range(n)] *)
Definition range (k : nat) : list nat := seq 0 k.

(** [l != n_layers - 1], on Python integers. *)
Definition not_last (l n_layers : nat) : bool :=
  negb (Z.of_nat l =? Z.of_nat n_layers - 1).

(** [WeightDropout(module, weight_p)]: the probability is stored as given.
    The weight it copies ([weight_hh_l0] of an [nn.LSTM], [weight] of the
    [nn.Linear] of a QRNN layer) is always there. *)
Definition WeightDropout (m : Layer B) (weight_p : Q) : Rnn :=
  {| cell := m; weight_p := Some weight_p |}.

Definition bare (m : Layer B) : Rnn := {| cell := m; weight_p := None |}.

(** [__init__].  [init k] is the [k]-th value that
    [uniform_(-initrange, initrange)] leaves in the embedding table. *)
Definition __init__ (init : nat -> Q)
           (vocab_sz emb_sz n_hid n_layers : nat) (pad_token : option Z)
           (bidir : bool) (hidden_p input_p embed_p weight_p : Q)
           (qrnn : bool) : result RNNCore :=
  let ndir := if bidir then 2%nat else 1%nat in
  let* pad := nn_Embedding B vocab_sz emb_sz pad_token in
  let table :=
    {| EmbeddingDropout.weight :=
         {| shape := [vocab_sz; emb_sz];
            elems := map init (seq 0 (vocab_sz * emb_sz)) |};
       EmbeddingDropout.requires_grad := true;
       EmbeddingDropout.padding_idx := pad;
       EmbeddingDropout.max_norm := None;
       EmbeddingDropout.norm_type := 2;
       EmbeddingDropout.scale_grad_by_freq := false;
       EmbeddingDropout.sparse := false |} in
  let* encoder_dp := EmbeddingDropout.__init__ table embed_p in
  let size_in l := if (l =? 0)%nat then emb_sz else n_hid in
  let size_out l :=
    ((if not_last l n_layers then n_hid else emb_sz) / ndir)%nat in
  let wrap rs :=
    if negb (Qeq_bool weight_p 0)
    then map (fun r => WeightDropout r weight_p) rs
    else map bare rs in
  let* rnns :=
    if qrnn then
      if qrnn_importable B then
        let* rs := comprehension
                     (fun l => QRNNLayer B (size_in l) (size_out l)
                                 (if (l =? 0)%nat then 2%nat else 1%nat))
                     (range n_layers) in
        Ok (wrap rs)
      else Raise ImportError
    else
      let* rs := comprehension
                   (fun l => nn_LSTM B (size_in l) (size_out l) bidir)
                   (range n_layers) in
      Ok (wrap rs) in
  let* input_dp := RNNDropout.__init__ input_p in
  let* hidden_dps := comprehension (fun _ => RNNDropout.__init__ hidden_p)
                                   (range n_layers) in
  Ok {| bs := 1; qrnn := qrnn; ndir := ndir;
        emb_sz := emb_sz; n_hid := n_hid; n_layers := n_layers;
        encoder_dp := encoder_dp; rnns := rnns;
        input_dp := input_dp; hidden_dps := hidden_dps;
        hidden := None; weights := None; training := true |}.

(** [one_hidden]; [self.weights] only gives the type and the device of the
    new tensor. *)
Definition one_hidden (self : RNNCore) (l : nat) : Tensor :=
  let nh := ((if not_last l (n_layers self) then n_hid self else emb_sz self)
             / ndir self)%nat in
  zeros [ndir self; bs self; nh].

Definition reset_rnn (r : Rnn) : Rnn :=
  match layer_reset B (cell r) with
  | Some m => {| cell := m; weight_p := weight_p r |}
  | None => r
  end.

(** [reset]; the first parameter of the module is the embedding weight. *)
Definition reset (self : RNNCore) : RNNCore :=
  let self := set_rnns self (map reset_rnn (rnns self)) in
  let self := set_weights self
                (Some (EmbeddingDropout.weight (encoder self))) in
  set_hidden self
    (Some (if qrnn self
           then map (fun l => One (one_hidden self l)) (range (n_layers self))
           else map (fun l => Pair (one_hidden self l) (one_hidden self l))
                    (range (n_layers self)))).

(** [repackage_var]: detaching cuts the gradient history and keeps the
    values. *)
Definition repackage_var (hs : list Hidden) : list Hidden :=
  map (fun h => match h with
                | One t => One t
                | Pair t c => Pair t c
                end) hs.

(** What the loop of [forward] has built so far. *)
Record Acc : Type := mkAcc {
  new_hidden : list Hidden;
  raw_outputs : list Tensor;
  outputs : list Tensor;
  called : list Rnn;
  cursor : nat
}.

(** The loop over [enumerate(zip(self.rnns, self.hidden_dps))], from layer
    [l] on.  The layers are returned as the calls left them, also when one
    raises. *)
Fixpoint layers (self : RNNCore) (draw : Rng) (l : nat)
         (zs : list (Rnn * RNNDropout.RNNDropout)) (raw_output : Tensor)
         (acc : Acc) : list Rnn * result Acc :=
  match zs with
  | [] => (called acc, Ok acc)
  | (rnn, hid_dp) :: zs' =>
      let bail e := (called acc ++ rnn :: map fst zs', Raise e) in
      match hidden self with
      | None => bail (AttributeError "hidden")
      | Some hs =>
          match nth_error hs l with
          | None => bail IndexError
          | Some h =>
              match layer_forward B (training self) (weight_p rnn) (cell rnn)
                                  raw_output h draw (cursor acc) with
              | Raise e => bail e
              | Ok (raw_output, new_h, m, pos) =>
                  let rnn' := {| cell := m; weight_p := weight_p rnn |} in
                  let dropped :=
                    if not_last l (n_layers self)
                    then RNNDropout.forward draw pos hid_dp raw_output
                    else Ok (raw_output, pos) in
                  match dropped with
                  | Raise e => (called acc ++ rnn' :: map fst zs', Raise e)
                  | Ok (out, pos') =>
                      layers self draw (S l) zs' out
                        {| new_hidden := new_hidden acc ++ [new_h];
                           raw_outputs := raw_outputs acc ++ [raw_output];
                           outputs := outputs acc ++ [out];
                           called := called acc ++ [rnn'];
                           cursor := pos' |}
                  end
              end
          end
      end
  end.

(** The first two statements of [forward]: a batch width other than the
    stored one is stored and the state is reset. *)
Definition adopt_width (self : RNNCore) (width : nat) : RNNCore :=
  if negb (width =? bs self)%nat then reset (set_bs self width) else self.

(** The layers that [zip] does not reach (none when there are as many
    dropout modules as layers). *)
Definition unzipped (self : RNNCore) : list Rnn :=
  skipn (length (hidden_dps self)) (rnns self).

(** [self.input_dp(self.encoder_dp(input))]: the encoder with the table as
    the lookup left it, and the first activation with the cursor of the
    random state. *)
Definition embed_input (grad_enabled : bool) (draw : Rng) (pos : nat)
           (self : RNNCore) (input : LongTensor)
  : RNNCore * result (Tensor * nat) :=
  match EmbeddingDropout.forward (embedding_renorm B) grad_enabled draw pos
                                 (encoder_dp self) input None with
  | (edp, Raise e) => (set_encoder_dp self edp, Raise e)
  | (edp, Ok (emb, pos1)) =>
      (set_encoder_dp self edp,
       RNNDropout.forward draw pos1 (input_dp self) emb)
  end.

(** The rest of [forward], on the encoder as [adopt_width] left it. *)
Definition run (grad_enabled : bool) (draw : Rng) (pos : nat) (self : RNNCore)
           (input : LongTensor)
  : RNNCore * result (list Tensor * list Tensor) :=
  match embed_input grad_enabled draw pos self input with
  | (self, Raise e) => (self, Raise e)
  | (self, Ok (raw_output, pos2)) =>
      match layers self draw 0 (combine (rnns self) (hidden_dps self))
                   raw_output
                   {| new_hidden := []; raw_outputs := []; outputs := [];
                      called := []; cursor := pos2 |} with
      | (rs, Raise e) => (set_rnns self (rs ++ unzipped self), Raise e)
      | (rs, Ok acc) =>
          (set_hidden (set_rnns self (rs ++ unzipped self))
                      (Some (repackage_var (new_hidden acc))),
           Ok (raw_outputs acc, outputs acc))
      end
  end.

(** [forward(self, input)]: the encoder after the call and what the call
    returns or raises.  [sl,bs = input.size()] needs two axes. *)
Definition forward (grad_enabled : bool) (draw : Rng) (pos : nat)
           (self : RNNCore) (input : LongTensor)
  : RNNCore * result (list Tensor * list Tensor) :=
  match l_shape input with
  | [_; width] => run grad_enabled draw pos (adopt_width self width) input
  | _ => (self, Raise ValueError)
  end.

(** The tensors of a layer state. *)
Definition tensors_of (h : Hidden) : list Tensor :=
  match h with
  | One t => [t]
  | Pair t c => [t; c]
  end.

(** A state of all-zero tensors of shape (directions, batch width, layer
    hidden size), one entry per layer; the hidden size of a layer is
    [n_hid // ndir], and [emb_sz // ndir] for the last. *)
Definition zero_state (self : RNNCore) (width : nat) (hs : list Hidden)
  : Prop :=
  length hs = n_layers self
  /\ forall l h t,
       nth_error hs l = Some h -> In t (tensors_of h) ->
       shape t = [ndir self; width;
                  ((if (S l =? n_layers self)%nat
                    then emb_sz self else n_hid self) / ndir self)%nat]
       /\ Forall (fun v => v = 0%Q) (elems t).

(** Exception [e] comes out of a call that the loop of [forward] makes
    when it is run on the encoder [self] with the first activation [x] and
    the cursor [pos]: the layers before [rnn] have returned, the state [h]
    of [rnn] is there, and the call of [rnn] on what the layer before
    handed on, or the call of its hidden dropout on what [rnn] returned,
    raises [e]. *)
Definition layer_raised (self : RNNCore) (draw : Rng) (x : Tensor)
           (pos : nat) (e : PyErr) : Prop :=
  exists pre rnn hid_dp post rs acc hs h,
    combine (rnns self) (hidden_dps self) = pre ++ (rnn, hid_dp) :: post
    /\ layers self draw 0 pre x
         {| new_hidden := []; raw_outputs := []; outputs := [];
            called := []; cursor := pos |} = (rs, Ok acc)
    /\ hidden self = Some hs /\ nth_error hs (length pre) = Some h
    /\ (layer_forward B (training self) (weight_p rnn) (cell rnn)
                      (last (outputs acc) x) h draw (cursor acc) = Raise e
        \/ exists raw new_h m pos1,
             layer_forward B (training self) (weight_p rnn) (cell rnn)
                           (last (outputs acc) x) h draw (cursor acc)
             = Ok (raw, new_h, m, pos1)
             /\ not_last (length pre) (n_layers self) = true
             /\ RNNDropout.forward draw pos1 hid_dp raw = Raise e).

(** What [__init__] establishes and no method changes: one layer and one
    hidden dropout per layer. *)
Definition wf (self : RNNCore) : Prop :=
  length (rnns self) = n_layers self
  /\ length (hidden_dps self) = n_layers self.

End Encoder.

Arguments wf {B} _.
Arguments zero_state {B} _ _ _.
Arguments bs {B} _.
Arguments qrnn {B} _.
Arguments ndir {B} _.
Arguments emb_sz {B} _.
Arguments n_hid {B} _.
Arguments n_layers {B} _.
Arguments encoder_dp {B} _.
Arguments rnns {B} _.
Arguments input_dp {B} _.
Arguments hidden_dps {B} _.
Arguments hidden {B} _.
Arguments weights {B} _.
Arguments training {B} _.
Arguments cell {B} _.
Arguments weight_p {B} _.
Arguments encoder {B} _.
Arguments new_hidden {B} _.
Arguments raw_outputs {B} _.
Arguments outputs {B} _.
Arguments called {B} _.
Arguments cursor {B} _.

End RNNCore.

(** ** RNNTrainer *)

Module RNNTrainer.
Import Torch.

(** The optimizer of the learner, reduced to the field the hook writes. *)
Record Optimizer : Type := mkOpt {
  lr : Q
}.

Record Learner : Type := mkLearner {
  opt : Optimizer
}.

Record RNNTrainer : Type := mk {
  learn : Learner;
  bptt : Z;
  alpha : Q;
  beta : Q;
  adjust : bool;
  (** set by [on_loss_begin] *)
  raw_out : option (list Tensor);
  out : option (list Tensor)
}.

Definition set_lr (self : RNNTrainer) (v : Q) : RNNTrainer :=
  {| learn := {| opt := {| lr := v |} |};
     bptt := bptt self; alpha := alpha self; beta := beta self;
     adjust := adjust self; raw_out := raw_out self; out := out self |}.

(** [on_loss_begin]: keeps the two activation lists, returns the logits. *)
Definition on_loss_begin {A} (self : RNNTrainer)
           (last_output : A * list Tensor * list Tensor) : RNNTrainer * A :=
  let '(decoded, raws, outs) := last_output in
  ({| learn := learn self; bptt := bptt self; alpha := alpha self;
      beta := beta self; adjust := adjust self;
      raw_out := Some raws; out := Some outs |},
   decoded).

Fixpoint last_item {A} (l : list A) : option A :=
  match l with
  | [] => None
  | [a] => Some a
  | _ :: l' => last_item l'
  end.

Definition total (vs : list Q) : Q := fold_right Qplus 0%Q vs.

(** [t.pow(2).mean()] *)
Definition mean_sq (vs : list Q) : Q :=
  (total (map (fun v => v * v) vs) / inject_Z (Z.of_nat (length vs)))%Q.

Fixpoint zip_sub (xs ys : list Q) : list Q :=
  match xs, ys with
  | x :: xs', y :: ys' => (x - y)%Q :: zip_sub xs' ys'
  | _, _ => []
  end.

(** [h[1:] - h[:-1]] along the leading axis. *)
Definition time_diff (h : Tensor) : list Q :=
  let stride := numel (tl (shape h)) in
  zip_sub (skipn stride (elems h))
          (firstn (length (elems h) - stride) (elems h)).

(** [self.out[-1]] and [self.raw_out[-1]] *)
Definition final_of (attr : string) (o : option (list Tensor)) : result Tensor :=
  match o with
  | None => Raise (AttributeError attr)
  | Some ts =>
      match last_item ts with
      | None => Raise IndexError
      | Some t => Ok t
      end
  end.

(** [on_backward_begin]: the trainer after the call, and the loss returned
    or the exception raised. *)
Definition on_backward_begin (self : RNNTrainer) (last_loss : Q)
           (last_input : LongTensor) : RNNTrainer * result Q :=
  let adjusted :=
    if adjust self then
      match l_shape last_input with
      | [] => Raise IndexError
      | size0 :: _ =>
          if bptt self =? 0 then Raise ZeroDivisionError
          else Ok (set_lr self
                     (lr (opt (learn self))
                      * (inject_Z (Z.of_nat size0) / inject_Z (bptt self)))%Q)
      end
    else Ok self in
  match adjusted with
  | Raise e => (self, Raise e)
  | Ok self =>
      (self,
       let* last_loss :=
         if negb (Qeq_bool (alpha self) 0) then
           let* o := final_of "out" (out self) in
           Ok (last_loss + alpha self * mean_sq (elems o))%Q
         else Ok last_loss in
       if negb (Qeq_bool (beta self) 0) then
         let* h := final_of "raw_out" (raw_out self) in
         match shape h with
         | [] => Raise ValueError
         | len :: _ =>
             if (1 <? len)%nat
             then Ok (last_loss + beta self * mean_sq (time_diff h))%Q
             else Ok last_loss
         end
       else Ok last_loss)
  end.

(** The hook called once per window of a training run, in order, with
    nothing else writing the optimizer in between: the trainer after the
    last call. *)
Fixpoint backward_begins (self : RNNTrainer) (loss : Q)
         (inputs : list LongTensor) : RNNTrainer :=
  match inputs with
  | [] => self
  | x :: inputs' =>
      backward_begins (fst (on_backward_begin self loss x)) loss inputs'
  end.

End RNNTrainer.

(** ** A small backend to run the encoder on

    A stand-in for [torch.nn]: the table checks [padding_idx] as
    [nn.Embedding] does, the one layer family adds the sum of its state to
    every activation, counts its calls in its state, and refuses a state
    whose batch width is not the activation's. *)

Module Demo.
Import Torch.
Import RNNCore.

Definition demo_Embedding (vocab_sz emb_sz : nat) (pad : option Z)
  : result (option Z) :=
  match pad with
  | None => Ok None
  | Some k =>
      if 0 <? k then
        if k <? Z.of_nat vocab_sz then Ok (Some k) else Raise AssertionError
      else if k <? 0 then
        if - Z.of_nat vocab_sz <=? k then Ok (Some (Z.of_nat vocab_sz + k))
        else Raise AssertionError
      else Ok (Some k)
  end.

Definition total (t : Tensor) : Q := fold_right Qplus 0%Q (elems t).

Definition bump (t : Tensor) : Tensor :=
  {| shape := shape t; elems := map (fun v => Qred (v + 1)) (elems t) |}.

Definition demo_forward (training : bool) (wp : option Q) (calls : nat)
           (x : Tensor) (h : Hidden) (draw : Rng) (pos : nat)
  : result (Tensor * Hidden * nat * nat) :=
  let state := match h with One t => t | Pair t _ => t end in
  if (nth 1 (shape x) O =? nth 1 (shape state) O)%nat then
    Ok ({| shape := shape x;
           elems := map (fun v => Qred (v + total state)) (elems x) |},
        match h with
        | One t => One (bump t)
        | Pair t c => Pair (bump t) (bump c)
        end,
        S calls, pos)
  else Raise RuntimeError.

Definition backend : Backend :=
  {| Layer := nat;
     qrnn_importable := false;
     nn_Embedding := demo_Embedding;
     nn_LSTM := fun _ _ _ => Ok O;
     QRNNLayer := fun _ _ _ => Ok O;
     layer_reset := fun _ => None;
     layer_forward := demo_forward;
     embedding_renorm := fun _ _ _ w => w |}.

(** A table of [vocab_sz] rows, row [r] filled with [r + 1]. *)
Definition init_rows (emb_sz : nat) (k : nat) : Q :=
  inject_Z (Z.of_nat (k / emb_sz) + 1).

Definition ids (sl width : nat) (v : Z) : LongTensor :=
  {| l_shape := [sl; width]; l_elems := repeat v (sl * width) |}.

Definition no_drop : Rng := fun _ => true.

Definition blank : RNNCore backend :=
  {| bs := 0; qrnn := false; ndir := 1; emb_sz := 0; n_hid := 0;
     n_layers := 0;
     encoder_dp :=
       {| EmbeddingDropout.emb :=
            {| EmbeddingDropout.weight := zeros [O; O];
               EmbeddingDropout.requires_grad := true;
               EmbeddingDropout.padding_idx := None;
               EmbeddingDropout.max_norm := None;
               EmbeddingDropout.norm_type := 2;
               EmbeddingDropout.scale_grad_by_freq := false;
               EmbeddingDropout.sparse := false |};
          EmbeddingDropout.embed_p := 0;
          EmbeddingDropout.pad_idx := -1;
          EmbeddingDropout.training := true |};
     rnns := [];
     input_dp := {| RNNDropout.p := 0; RNNDropout.training := true |};
     hidden_dps := [];
     hidden := None; weights := None; training := true |}.

Definition built (r : result (RNNCore backend)) : RNNCore backend :=
  match r with
  | Ok self => self
  | Raise _ => blank
  end.

(** [RNNCore(3, 2, 4, n_layers, 1)] with the default probabilities, over a
    table of three rows of width two. *)
Definition construct (n_layers : nat) : result (RNNCore backend) :=
  __init__ backend (init_rows 2) 3 2 4 n_layers (Some 1) false
           (1 # 5) (3 # 5) (1 # 10) (1 # 2) false.

Definition two_layers : RNNCore backend := Eval vm_compute in built (construct 2).
Definition no_layers : RNNCore backend := Eval vm_compute in built (construct 0).

(** The two-layer encoder after a forward call on an input of width 4. *)
Definition after_width_4 : RNNCore backend :=
  Eval vm_compute in fst (forward backend false no_drop 0 two_layers (ids 1 4 0)).

(** The same construction with every probability outside [[0, 1)]. *)
Definition construct_wild : result (RNNCore backend) :=
  __init__ backend (init_rows 2) 3 2 4 2 (Some 1) false
           (3 # 2) (-1) 2 7 false.

(** A table of two rows of width two wrapped in evaluation mode. *)
Definition eval_dropout : EmbeddingDropout.EmbeddingDropout :=
  {| EmbeddingDropout.emb :=
       {| EmbeddingDropout.weight := {| shape := [2%nat; 2%nat];
                                        elems := [1; 2; 3; 4]%Q |};
          EmbeddingDropout.requires_grad := true;
          EmbeddingDropout.padding_idx := None;
          EmbeddingDropout.max_norm := None;
          EmbeddingDropout.norm_type := 2;
          EmbeddingDropout.scale_grad_by_freq := false;
          EmbeddingDropout.sparse := false |};
     EmbeddingDropout.embed_p := 1 # 10;
     EmbeddingDropout.pad_idx := -1;
     EmbeddingDropout.training := false |}.

(** A trainer with learning rate 1 and [bptt = 20], no AR, no TAR. *)
Definition trainer : RNNTrainer.RNNTrainer :=
  {| RNNTrainer.learn := {| RNNTrainer.opt := {| RNNTrainer.lr := 1 |} |};
     RNNTrainer.bptt := 20; RNNTrainer.alpha := 0; RNNTrainer.beta := 0;
     RNNTrainer.adjust := true;
     RNNTrainer.raw_out := None; RNNTrainer.out := None |}.

End Demo.

(** ** torch.nn.functional

    The two functions of the engine that the wrapper and the decoder call,
    with their documented behaviour. *)

Module F.
Import Torch.

(** [F.dropout(x, p, training)]: a probability outside [[0, 1]] is refused;
    in training every element is dropped on its own trial and the others
    are scaled by [1/(1-p)]; otherwise the input comes back. *)
Definition dropout (draw : Rng) (pos : nat) (x : Tensor) (p : Q)
           (training : bool) : result (Tensor * nat) :=
  if negb (Qle_bool 0 p) || negb (Qle_bool p 1) then Raise ValueError
  else if training then
    let '(m, pos') := dropout_mask draw pos (shape x) p in
    Ok ({| shape := shape x; elems := zip_mul (elems x) (elems m) |}, pos')
  else Ok (x, pos).

Definition dot (xs ws : list Q) : Q := fold_right Qplus 0%Q (zip_mul xs ws).

(** [F.linear(x, w, b)] on a two-axis [x]: [x @ w.T + b]; the width of [x]
    must be the width of [w]. *)
Definition linear (x w : Tensor) (b : option Tensor) : result Tensor :=
  match shape x, shape w with
  | [r; f], [o; f'] =>
      if (f =? f')%nat then
        let ws := chunks o f (elems w) in
        let bias j := match b with
                      | Some t => nth j (elems t) 0%Q
                      | None => 0%Q
                      end in
        Ok {| shape := [r; o];
              elems := concat
                         (map (fun row =>
                                 map (fun j => (dot row (nth j ws []) + bias j)%Q)
                                     (seq 0 o))
                              (chunks r f (elems x))) |}
      else Raise RuntimeError
  | _, _ => Raise RuntimeError
  end.

End F.

(** ** WeightDropout *)

Module WeightDropout.
Import Torch.

(** A parameter table ([module._parameters], an ordered dictionary). *)
Definition Params := list (string * Tensor).

Fixpoint get (name : string) (ps : Params) : option Tensor :=
  match ps with
  | [] => None
  | (k, v) :: rest => if String.eqb name k then Some v else get name rest
  end.

(** [ps[name] = v]: the entry is overwritten where it is, or added at the
    end. *)
Fixpoint set (name : string) (v : Tensor) (ps : Params) : Params :=
  match ps with
  | [] => [(name, v)]
  | (k, w) :: rest =>
      if String.eqb name k then (k, v) :: rest
      else (k, w) :: set name v rest
  end.

Section Wrapper.
(** The wrapped module beyond its parameters, what it is called on and
    what it returns, its [forward] and its [reset] when it has one. *)
Variable Inner Args Out : Type.
Variable inner_forward : Params -> Inner -> Args -> result Out * Inner.
Variable inner_reset : option (Inner -> Inner).

Record Wrapped : Type := mkWrapped {
  _parameters : Params;
  inner : Inner
}.

Record WeightDropout : Type := mk {
  module : Wrapped;
  weight_p : Q;
  layer_names : list string;
  (** the entries [layer_raw] that [register_parameter] adds to the
      wrapper's own table *)
  raw_parameters : Params;
  training : bool
}.

(** [f'{layer}_raw'] *)
Definition raw_name (layer : string) : string := (layer ++ "_raw")%string.

(** The loop of [__init__]: [getattr(self.module, layer)] raises on a name
    that the module does not have. *)
Fixpoint register_raws (m : Wrapped) (names : list string) (raws : Params)
  : result Params :=
  match names with
  | [] => Ok raws
  | layer :: rest =>
      match get layer (_parameters m) with
      | None => Raise (AttributeError layer)
      | Some w => register_raws m rest (set (raw_name layer) w raws)
      end
  end.

Definition __init__ (module : Wrapped) (weight_p : Q)
           (layer_names : list string) : result WeightDropout :=
  let* raws := register_raws module layer_names [] in
  Ok {| module := module; weight_p := weight_p;
        layer_names := layer_names; raw_parameters := raws;
        training := true |}.

(** The loop of [_setweights] over the names still to do, on the table of
    the wrapped module: the table as the loop leaves it, and the cursor of
    the random state or the exception. *)
Fixpoint set_layers (draw : Rng) (pos : nat) (self : WeightDropout)
         (names : list string) (ps : Params) : Params * result nat :=
  match names with
  | [] => (ps, Ok pos)
  | layer :: rest =>
      match get (raw_name layer) (raw_parameters self) with
      | None => (ps, Raise (AttributeError (raw_name layer)))
      | Some raw_w =>
          match F.dropout draw pos raw_w (weight_p self) (training self) with
          | Raise e => (ps, Raise e)
          | Ok (w, pos') => set_layers draw pos' self rest (set layer w ps)
          end
      end
  end.

Definition with_module (self : WeightDropout) (m : Wrapped) : WeightDropout :=
  {| module := m; weight_p := weight_p self;
     layer_names := layer_names self;
     raw_parameters := raw_parameters self; training := training self |}.

Definition _setweights (draw : Rng) (pos : nat) (self : WeightDropout)
  : WeightDropout * result nat :=
  let '(ps, r) := set_layers draw pos self (layer_names self)
                             (_parameters (module self)) in
  (with_module self {| _parameters := ps; inner := inner (module self) |}, r).

(** [forward]: the weights are set, then the wrapped module is called on
    the arguments. *)
Definition forward (draw : Rng) (pos : nat) (self : WeightDropout)
           (args : Args) : WeightDropout * result (Out * nat) :=
  match _setweights draw pos self with
  | (self, Raise e) => (self, Raise e)
  | (self, Ok pos') =>
      let '(r, st) := inner_forward (_parameters (module self))
                                    (inner (module self)) args in
      (with_module self {| _parameters := _parameters (module self);
                           inner := st |},
       let* out := r in Ok (out, pos'))
  end.

Definition reset (self : WeightDropout) : WeightDropout :=
  match inner_reset with
  | Some f =>
      with_module self {| _parameters := _parameters (module self);
                          inner := f (inner (module self)) |}
  | None => self
  end.

End Wrapper.

Arguments _parameters {Inner} _.
Arguments inner {Inner} _.
Arguments module {Inner} _.
Arguments weight_p {Inner} _.
Arguments layer_names {Inner} _.
Arguments raw_parameters {Inner} _.
Arguments training {Inner} _.
Arguments with_module {Inner} _ _.
Arguments register_raws {Inner} _ _ _.
Arguments __init__ {Inner} _ _ _.
Arguments set_layers {Inner} _ _ _ _ _.
Arguments _setweights {Inner} _ _ _.

End WeightDropout.

(** ** LinearDecoder *)

Module LinearDecoder.
Import Torch.

(** [self.decoder.weight]: the tensor that [nn.Linear] made, or, after
    [self.decoder.weight = tie_encoder.weight], the weight of the encoder's
    table itself. *)
Inductive Weight : Type :=
| Own (w : Tensor)
| Tied.

Record LinearDecoder : Type := mk {
  weight : Weight;
  bias : option Tensor;
  output_dp : RNNDropout.RNNDropout
}.

(** [__init__]; [init k] is the [k]-th value that [uniform_] leaves in the
    weight, [tie_encoder] says whether a table was given. *)
Definition __init__ (init : nat -> Q) (n_out n_hid : nat) (output_p : Q)
           (tie_encoder : bool) (bias : bool) : result LinearDecoder :=
  let own := {| shape := [n_out; n_hid];
                elems := map init (seq 0 (n_out * n_hid)) |} in
  let* output_dp := RNNDropout.__init__ output_p in
  Ok {| weight := if tie_encoder then Tied else Own own;
        bias := if bias then Some (zeros [n_out]) else None;
        output_dp := output_dp |}.

Definition the_weight (table : Tensor) (self : LinearDecoder) : Tensor :=
  match weight self with
  | Own w => w
  | Tied => table
  end.

(** [output.view(output.size(0)*output.size(1), output.size(2))]: three
    sizes are read, and the two-axis view must hold every element. *)
Definition flatten_time (output : Tensor) : result Tensor :=
  match shape output with
  | t :: b :: f :: rest =>
      if (numel rest =? 1)%nat
      then Ok {| shape := [(t * b)%nat; f]; elems := elems output |}
      else Raise RuntimeError
  | _ => Raise IndexError
  end.

(** [forward(input)], with the weight of the encoder's table at the time
    of the call. *)
Definition forward (table : Tensor) (draw : Rng) (pos : nat)
           (self : LinearDecoder) (input : list Tensor * list Tensor)
  : result (Tensor * list Tensor * list Tensor) :=
  let '(raw_outputs, outputs) := input in
  match RNNTrainer.last_item outputs with
  | None => Raise IndexError
  | Some last =>
      let* (output, _) := RNNDropout.forward draw pos (output_dp self) last in
      let* flat := flatten_time output in
      let* decoded := F.linear flat (the_weight table self) (bias self) in
      Ok (decoded, raw_outputs, outputs)
  end.

End LinearDecoder.

(** ** SequentialRNN and get_language_model *)

Module SequentialRNN.
Import Torch.

Section Model.
Variable B : RNNCore.Backend.

(** The two children of the model. *)
Record SequentialRNN : Type := mk {
  rnn_enc : RNNCore.RNNCore B;
  decoder : LinearDecoder.LinearDecoder
}.

(** [reset]: of the two children only the encoder has one. *)
Definition reset (self : SequentialRNN) : SequentialRNN :=
  {| rnn_enc := RNNCore.reset B (rnn_enc self); decoder := decoder self |}.

(** [get_language_model]; [bidir] keeps its default [False]. *)
Definition get_language_model (init_enc init_dec : nat -> Q)
           (vocab_sz emb_sz n_hid n_layers : nat) (pad_token : option Z)
           (tie_weights qrnn bias : bool)
           (output_p hidden_p input_p embed_p weight_p : Q)
  : result SequentialRNN :=
  let* rnn_enc := RNNCore.__init__ B init_enc vocab_sz emb_sz n_hid n_layers
                    pad_token false hidden_p input_p embed_p weight_p qrnn in
  let* dec := LinearDecoder.__init__ init_dec vocab_sz emb_sz output_p
                tie_weights bias in
  Ok {| rnn_enc := rnn_enc; decoder := dec |}.

(** The call of the model: each child on what the one before returned.
    [pos'] is the cursor of the random state when the decoder is called. *)
Definition forward (grad_enabled : bool) (draw : Rng) (pos pos' : nat)
           (self : SequentialRNN) (input : LongTensor)
  : SequentialRNN * result (Tensor * list Tensor * list Tensor) :=
  match RNNCore.forward B grad_enabled draw pos (rnn_enc self) input with
  | (enc, Raise e) => ({| rnn_enc := enc; decoder := decoder self |}, Raise e)
  | (enc, Ok out) =>
      ({| rnn_enc := enc; decoder := decoder self |},
       LinearDecoder.forward
         (EmbeddingDropout.weight (RNNCore.encoder enc))
         draw pos' (decoder self) out)
  end.

End Model.

Arguments rnn_enc {B} _.
Arguments decoder {B} _.

End SequentialRNN.

(** ** Further objects to run the code on *)

Module Samples.
Import Torch.

(** A module with two weights, [[1, 2]] and [[3, 4]], whose call returns
    the second and counts the calls. *)
Definition two_weights : WeightDropout.Wrapped nat :=
  {| WeightDropout._parameters :=
       [("weight_ih_l0"%string, {| shape := [2%nat]; elems := [1; 2]%Q |});
        ("weight_hh_l0"%string, {| shape := [2%nat]; elems := [3; 4]%Q |})];
     WeightDropout.inner := O |}.

Definition call_count (ps : WeightDropout.Params) (calls : nat) (x : unit)
  : result Tensor * nat :=
  (match WeightDropout.get "weight_hh_l0" ps with
   | Some w => Ok w
   | None => Raise (AttributeError "weight_hh_l0")
   end, S calls).

Definition wrapped (weight_p : Q) : WeightDropout.WeightDropout nat :=
  {| WeightDropout.module := two_weights;
     WeightDropout.weight_p := weight_p;
     WeightDropout.layer_names := ["weight_hh_l0"%string];
     WeightDropout.raw_parameters :=
       [("weight_hh_l0_raw"%string,
         {| shape := [2%nat]; elems := [3; 4]%Q |})];
     WeightDropout.training := true |}.

(** The same wrapper in evaluation mode. *)
Definition wrapped_eval : WeightDropout.WeightDropout nat :=
  {| WeightDropout.module := two_weights;
     WeightDropout.weight_p := 1 # 2;
     WeightDropout.layer_names := ["weight_hh_l0"%string];
     WeightDropout.raw_parameters :=
       [("weight_hh_l0_raw"%string,
         {| shape := [2%nat]; elems := [3; 4]%Q |})];
     WeightDropout.training := false |}.

(** An activation of two time steps, one stream, two features. *)
Definition activation : Tensor :=
  {| shape := [2%nat; 1%nat; 2%nat]; elems := [1; 2; 3; 4]%Q |}.

(** Every second trial drops. *)
Definition alternate : Rng := Nat.even.

Definition dropout_half : RNNDropout.RNNDropout :=
  {| RNNDropout.p := 1 # 2; RNNDropout.training := true |}.

(** A table of three rows of width two in training mode, [embed_p = 1/2]. *)
Definition train_dropout : EmbeddingDropout.EmbeddingDropout :=
  {| EmbeddingDropout.emb :=
       {| EmbeddingDropout.weight :=
            {| shape := [3%nat; 2%nat]; elems := [1; 2; 3; 4; 5; 6]%Q |};
          EmbeddingDropout.requires_grad := true;
          EmbeddingDropout.padding_idx := None;
          EmbeddingDropout.max_norm := None;
          EmbeddingDropout.norm_type := 2;
          EmbeddingDropout.scale_grad_by_freq := false;
          EmbeddingDropout.sparse := false |};
     EmbeddingDropout.embed_p := 1 # 2;
     EmbeddingDropout.pad_idx := -1;
     EmbeddingDropout.training := true |}.

(** A trainer with both penalties on, after [on_loss_begin] kept one
    activation of a single time step. *)
Definition penalised : RNNTrainer.RNNTrainer :=
  {| RNNTrainer.learn := {| RNNTrainer.opt := {| RNNTrainer.lr := 1 |} |};
     RNNTrainer.bptt := 20; RNNTrainer.alpha := 2; RNNTrainer.beta := 1;
     RNNTrainer.adjust := false;
     RNNTrainer.raw_out :=
       Some [{| shape := [1%nat; 1%nat; 2%nat]; elems := [3; 4]%Q |}];
     RNNTrainer.out :=
       Some [{| shape := [1%nat; 1%nat; 2%nat]; elems := [3; 4]%Q |}] |}.

(** The two-layer encoder of [Demo] with its dropout modules in
    evaluation mode. *)
Definition evaluating : RNNCore.RNNCore Demo.backend :=
  let self := Demo.two_layers in
  {| RNNCore.bs := RNNCore.bs self; RNNCore.qrnn := RNNCore.qrnn self;
     RNNCore.ndir := RNNCore.ndir self; RNNCore.emb_sz := RNNCore.emb_sz self;
     RNNCore.n_hid := RNNCore.n_hid self;
     RNNCore.n_layers := RNNCore.n_layers self;
     RNNCore.encoder_dp :=
       {| EmbeddingDropout.emb :=
            EmbeddingDropout.emb (RNNCore.encoder_dp self);
          EmbeddingDropout.embed_p := 1 # 10;
          EmbeddingDropout.pad_idx := 1;
          EmbeddingDropout.training := false |};
     RNNCore.rnns := RNNCore.rnns self;
     RNNCore.input_dp :=
       {| RNNDropout.p := 3 # 5; RNNDropout.training := false |};
     RNNCore.hidden_dps :=
       map (fun d => {| RNNDropout.p := RNNDropout.p d;
                        RNNDropout.training := false |})
           (RNNCore.hidden_dps self);
     RNNCore.hidden := None; RNNCore.weights := None;
     RNNCore.training := false |}.

(** [get_language_model(3, 2, 4, n_layers, 1)] on the small backend, with
    tied weights and the default probabilities. *)
Definition language_model (n_layers : nat)
  : result (SequentialRNN.SequentialRNN Demo.backend) :=
  SequentialRNN.get_language_model Demo.backend (Demo.init_rows 2)
    (fun _ => 0%Q) 3 2 4 n_layers (Some 1) true false true
    (2 # 5) (1 # 5) (3 # 5) (1 # 10) (1 # 2).

Definition model_or_blank
           (r : result (SequentialRNN.SequentialRNN Demo.backend))
  : SequentialRNN.SequentialRNN Demo.backend :=
  match r with
  | Ok m => m
  | Raise _ =>
      {| SequentialRNN.rnn_enc := Demo.blank;
         SequentialRNN.decoder :=
           {| LinearDecoder.weight := LinearDecoder.Tied;
              LinearDecoder.bias := None;
              LinearDecoder.output_dp :=
                {| RNNDropout.p := 0; RNNDropout.training := true |} |} |}
  end.

Definition model2 : SequentialRNN.SequentialRNN Demo.backend :=
  Eval vm_compute in model_or_blank (language_model 2).

Definition model0 : SequentialRNN.SequentialRNN Demo.backend :=
  Eval vm_compute in model_or_blank (language_model 0).

End Samples.

(** * Properties *)

(** ** Lists *)

Section ListFacts.
Context {A : Type}.

Lemma firstn_plus (a b : nat) (l : list A) :
  firstn (a + b) l = firstn a l ++ firstn b (skipn a l).
Proof.
  revert l; induction a as [|a IH]; intros l; simpl.
  - reflexivity.
  - destruct l as [|x l]; simpl.
    + now rewrite firstn_nil.
    + now rewrite IH.
Qed.

Lemma firstn_over (k : nat) (l : list A) :
  (length l <= k)%nat -> firstn k l = l.
Proof. apply firstn_all2. Qed.

Lemma chunks_length (rows cols : nat) (l : list A) :
  length (chunks rows cols l) = rows.
Proof.
  revert l; induction rows as [|r IH]; intros l; simpl; [reflexivity|].
  now rewrite IH.
Qed.

Lemma chunks_nth (rows cols : nat) (l : list A) (r : nat) :
  (r < rows)%nat ->
  nth r (chunks rows cols l) [] = firstn cols (skipn (r * cols) l).
Proof.
  revert l r; induction rows as [|k IH]; intros l r Hr; [lia|].
  destruct r as [|r]; simpl.
  - reflexivity.
  - rewrite IH by lia. now rewrite skipn_skipn, Nat.add_comm.
Qed.

Lemma chunks_concat (rows cols : nat) (l : list A) :
  concat (chunks rows cols l) = firstn (rows * cols) l.
Proof.
  revert l; induction rows as [|k IH]; intros l; simpl; [reflexivity|].
  now rewrite IH, firstn_plus.
Qed.

Lemma chunk_full (cols k : nat) (l : list A) :
  (k * cols + cols <= length l)%nat ->
  length (firstn cols (skipn (k * cols) l)) = cols.
Proof.
  intros H. rewrite length_firstn, length_skipn. lia.
Qed.

Lemma nth_seq_all (l : list A) (d : A) :
  map (fun t => nth t l d) (seq 0 (length l)) = l.
Proof.
  induction l as [|x l IH]; simpl; [reflexivity|].
  f_equal. rewrite <- seq_shift, map_map. exact IH.
Qed.

Lemma py_slice_prefix (k : Z) (l : list A) :
  0 <= k -> py_slice 0 k l = firstn (Z.to_nat k) l.
Proof.
  intros Hk. unfold py_slice, slice_bound.
  replace (0 <? 0) with false by reflexivity.
  replace (k <? 0) with false by (symmetry; apply Z.ltb_ge; lia).
  rewrite (Z.min_l 0) by lia. simpl skipn. rewrite Z.sub_0_r.
  destruct (Z.le_ge_cases k (Z.of_nat (length l))) as [H|H].
  - now rewrite Z.min_l by lia.
  - rewrite Z.min_r by lia. rewrite Nat2Z.id.
    rewrite !firstn_over by lia. reflexivity.
Qed.

(** A slice whose bounds lie inside the sequence. *)
Lemma py_slice_inside (a b : Z) (l : list A) :
  0 <= a <= b -> b <= Z.of_nat (length l) ->
  py_slice a b l = firstn (Z.to_nat (b - a)) (skipn (Z.to_nat a) l).
Proof.
  intros Ha Hb. unfold py_slice, slice_bound.
  replace (a <? 0) with false by (symmetry; apply Z.ltb_ge; lia).
  replace (b <? 0) with false by (symmetry; apply Z.ltb_ge; lia).
  now rewrite !Z.min_l by lia.
Qed.

End ListFacts.

Lemma transpose_length (cols : nat) (m : list (list Z)) :
  length (transpose cols m) = cols.
Proof. unfold transpose. now rewrite length_map, length_seq. Qed.

Lemma transpose_row_length (cols : nat) (m : list (list Z)) (row : list Z) :
  In row (transpose cols m) -> length row = length m.
Proof.
  unfold transpose. intros H. apply in_map_iff in H as (t & <- & _).
  apply length_map.
Qed.

(** Column [r] of the transposed matrix is row [r] of the matrix. *)
Lemma transpose_column (cols : nat) (m : list (list Z)) (r : nat) :
  (r < length m)%nat -> length (nth r m []) = cols ->
  map (fun row => nth r row 0) (transpose cols m) = nth r m [].
Proof.
  intros Hr Hlen. unfold transpose. rewrite map_map.
  transitivity (map (fun t => nth t (nth r m []) 0) (seq 0 cols)).
  - apply map_ext. intros t.
    rewrite (nth_indep _ 0 (nth t [] 0)) by now rewrite length_map.
    exact (map_nth (fun row : list Z => nth t row 0) m [] r).
  - rewrite <- Hlen. apply nth_seq_all.
Qed.

(** ** The batch matrix *)

Section Batchify.
Import Loader.

(** What [batchify] computes for a batch size of at least one: the
    truncated stream cut in [bs] chunks of [len // bs] tokens, transposed. *)
Lemma batchify_eq (nums : list Z) (bs : Z) (backwards : bool) :
  1 <= bs ->
  let nb := Z.to_nat (Z.of_nat (length nums) / bs) in
  let m := transpose nb (chunks (Z.to_nat bs) nb
                                (firstn (nb * Z.to_nat bs) nums)) in
  batchify bs backwards nums = Ok (if backwards then rev m else m).
Proof.
  intros Hbs nb m. unfold batchify.
  replace (bs =? 0) with false by (symmetry; apply Z.eqb_neq; lia).
  assert (Hq : 0 <= Z.of_nat (length nums) / bs)
    by (apply Z.div_pos; lia).
  assert (Hle : Z.of_nat (length nums) / bs * bs <= Z.of_nat (length nums))
    by (rewrite Z.mul_comm; apply Z.mul_div_le; lia).
  rewrite py_slice_prefix by nia.
  replace (Z.to_nat (Z.of_nat (length nums) / bs * bs))
    with (nb * Z.to_nat bs)%nat by (subst nb; nia).
  assert (Hlen : Z.of_nat (length (firstn (nb * Z.to_nat bs) nums))
                 = Z.of_nat (length nums) / bs * bs).
  { rewrite length_firstn. subst nb. nia. }
  unfold reshape_rows. rewrite Hlen.
  replace (bs <=? 0) with false by (symmetry; apply Z.leb_gt; lia).
  rewrite Z_mod_mult, Z.eqb_refl. simpl negb. cbv iota.
  rewrite Z_div_mult by lia. reflexivity.
Qed.

(** C7: for a batch size of at least one and [backwards = False], the batch
    matrix has [len // bs] rows of [bs] tokens, stream [r] read in time
    order is the slice of the token stream from [r * (len // bs)] to
    [(r + 1) * (len // bs)], and the streams put end to end are the stream
    truncated to [bs * (len // bs)] tokens. *)
Theorem batchify_streams (nums : list Z) (bs : Z) :
  1 <= bs ->
  let nb := Z.to_nat (Z.of_nat (length nums) / bs) in
  exists m,
    batchify bs false nums = Ok m
    /\ Z.of_nat (length m) = Z.of_nat (length nums) / bs
    /\ (forall row, In row m -> Z.of_nat (length row) = bs)
    /\ (forall r, (r < Z.to_nat bs)%nat ->
          stream r m = firstn nb (skipn (r * nb) nums)
          /\ (r * nb + nb <= length nums)%nat)
    /\ concat (map (fun r => stream r m) (seq 0 (Z.to_nat bs)))
       = firstn (Z.to_nat bs * nb) nums.
Proof.
  intros Hbs nb. eexists. split; [apply (batchify_eq nums bs false Hbs)|].
  fold nb. set (rows := Z.to_nat bs).
  set (flat := firstn (nb * rows) nums).
  assert (Hq : 0 <= Z.of_nat (length nums) / bs) by (apply Z.div_pos; lia).
  assert (Hfit : (nb * rows <= length nums)%nat).
  { assert (bs * (Z.of_nat (length nums) / bs) <= Z.of_nat (length nums))
      by (apply Z.mul_div_le; lia).
    subst nb rows. nia. }
  assert (Hflat : length flat = (nb * rows)%nat)
    by (subst flat; rewrite length_firstn; lia).
  assert (Hcol : forall r, (r < rows)%nat ->
            stream r (transpose nb (chunks rows nb flat))
            = firstn nb (skipn (r * nb) nums)).
  { intros r Hr. unfold stream.
    assert (Hin : (r * nb + nb <= nb * rows)%nat) by nia.
    rewrite transpose_column.
    - rewrite chunks_nth by exact Hr. subst flat.
      rewrite skipn_firstn_comm.
      rewrite firstn_firstn. f_equal. lia.
    - now rewrite chunks_length.
    - rewrite chunks_nth by exact Hr. apply chunk_full. lia. }
  split; [|split; [|split]].
  - rewrite transpose_length. subst nb. lia.
  - intros row Hrow. apply transpose_row_length in Hrow.
    rewrite Hrow, chunks_length. subst rows. lia.
  - intros r Hr. split; [apply Hcol; exact Hr|]. nia.
  - rewrite (map_ext_in _ (fun r => nth r (chunks rows nb flat) [])).
    + replace rows with (length (chunks rows nb flat)) at 1
        by apply chunks_length.
      rewrite nth_seq_all, chunks_concat. subst flat.
      rewrite firstn_firstn. f_equal. lia.
    + intros r Hr. apply in_seq in Hr. rewrite Hcol by lia.
      rewrite chunks_nth by lia. subst flat.
      rewrite skipn_firstn_comm, firstn_firstn. f_equal. nia.
Qed.

End Batchify.

(** ** The traversal *)

Section Traversal.
Import Loader.

Lemma len_ok (self : LanguageModelLoader) (c : Z) :
  len self = Ok c ->
  bptt self <> 0 /\ c = (n self - 1) / bptt self /\ 0 <= c.
Proof.
  unfold len, __len__. destruct (Z.eqb_spec (bptt self) 0) as [E|E].
  - discriminate.
  - simpl. destruct (Z.ltb_spec ((n self - 1) / bptt self) 0); [discriminate|].
    intros [= <-]. auto.
Qed.

Lemma len_positive (self : LanguageModelLoader) :
  1 <= bptt self -> 0 <= n self - 1 ->
  len self = Ok ((n self - 1) / bptt self).
Proof.
  intros Hb Hn. unfold len, __len__.
  replace (bptt self =? 0) with false by (symmetry; apply Z.eqb_neq; lia).
  simpl.
  replace ((n self - 1) / bptt self <? 0) with false; [reflexivity|].
  symmetry. apply Z.ltb_ge. apply Z.div_pos; lia.
Qed.

(** A positive number of windows over a positive extent needs a positive
    [bptt]. *)
Lemma cap_sign (a b : Z) : 0 < a -> b <> 0 -> 1 <= a / b -> 1 <= b.
Proof.
  intros Ha Hb Hq.
  destruct (Z.lt_ge_cases b 0) as [Hneg|Hpos]; [|lia].
  pose proof (Z.div_mod a b Hb) as Hdm.
  pose proof (Z.mod_neg_bound a b Hneg) as Hm.
  nia.
Qed.

Ltac loop_step self :=
  cbn [while_loop];
  destruct (Z.ltb_spec (i self) (n self - 1)) as [Hcur|Hcur];
  [ destruct (len self) as [c|e] eqn:Hlen;
    [ destruct (Z.ltb_spec (iter self) c) as [Hit|Hit];
      [ destruct (first self && (i self =? 0)) eqn:Hfirst | ]
    | ]
  | ].

(** The loop only writes [first], [i] and [iter]. *)
Lemma loop_frame (fuel : nat) (draws : nat -> Z) (k : nat)
      (self : LanguageModelLoader) :
  let r := while_loop fuel draws k self in
  bptt (final r) = bptt self /\ n (final r) = n self
  /\ data (final r) = data self /\ bs (final r) = bs self
  /\ backwards (final r) = backwards self.
Proof.
  revert k self; induction fuel as [|fuel IH]; intros k self.
  - simpl. auto.
  - loop_step self; simpl; auto.
    + destruct (IH k {| bs := bs self; bptt := bptt self;
                       backwards := backwards self; data := data self;
                       first := false; i := i self + (bptt self + 25);
                       iter := iter self + 1; n := n self |}) as (?&?&?&?&?).
      auto.
    + destruct (IH (S k) {| bs := bs self; bptt := bptt self;
                       backwards := backwards self; data := data self;
                       first := first self;
                       i := i self + Z.max 5 (draws k);
                       iter := iter self + 1; n := n self |}) as (?&?&?&?&?).
      auto.
Qed.

(** Every window is cut at a cursor below [n - 1], with a requested length
    of at least one, by [get_batch]. *)
Lemma loop_yields (fuel : nat) (draws : nat -> Z) (k : nat)
      (self : LanguageModelLoader) (y : Yield) :
  0 <= i self -> 0 <= iter self ->
  In y (yields (while_loop fuel draws k self)) ->
  i self <= y_i y < n self - 1 /\ 1 <= y_seq_len y
  /\ y_res y = get_batch self (y_i y) (y_seq_len y).
Proof.
  revert k self; induction fuel as [|fuel IH]; intros k self Hi Hiter.
  - simpl. tauto.
  - loop_step self; simpl; try tauto.
    + apply len_ok in Hlen as (Hb & -> & _).
      assert (1 <= bptt self) by (apply (cap_sign (n self - 1)); lia).
      intros [<-|Hin]; simpl.
      * repeat split; try lia.
      * apply IH in Hin; simpl; try lia. simpl in Hin.
        destruct Hin as (? & ? & ->). repeat split; try lia.
    + intros [<-|Hin]; simpl.
      * repeat split; try lia.
      * apply IH in Hin; simpl; try lia. simpl in Hin.
        destruct Hin as (? & ? & ->). repeat split; try lia.
Qed.

(** [get_batch] at a cursor below [n - 1] and a requested length of at least
    one. *)
Lemma get_batch_inside (self : LanguageModelLoader) (c s : Z) :
  0 <= c < Z.of_nat (length (data self)) - 1 -> 1 <= s ->
  let k := Z.to_nat (Z.min s (Z.of_nat (length (data self)) - 1 - c)) in
  get_batch self c s
  = (firstn k (skipn (Z.to_nat c) (data self)),
     concat (firstn k (skipn (S (Z.to_nat c)) (data self)))).
Proof.
  intros Hc Hs k. unfold get_batch.
  rewrite (py_slice_inside c) by lia.
  rewrite (py_slice_inside (c + 1)) by lia.
  subst k. set (m := Z.min s (Z.of_nat (length (data self)) - 1 - c)).
  replace (c + m - c) with m by lia.
  replace (c + 1 + m - (c + 1)) with m by lia.
  replace (Z.to_nat (c + 1)) with (S (Z.to_nat c)) by lia.
  reflexivity.
Qed.

Lemma firstn_snoc {A} (j : nat) (l : list A) (x : A) :
  nth_error l j = Some x -> firstn (S j) l = firstn j l ++ [x].
Proof.
  revert l; induction j as [|j IH]; intros [|a l] H; simpl in *;
    try discriminate.
  - now injection H as ->.
  - now rewrite <- IH.
Qed.

(** The rows [1 .. k] of a sequence are the rows [0 .. k-1] without the
    first, followed by row [k]. *)
Lemma shift_window {A} (k : nat) (l : list A) :
  (1 <= k < length l)%nat ->
  exists x, nth_error l k = Some x
            /\ firstn k (tl l) = tl (firstn k l) ++ [x].
Proof.
  intros Hk. destruct l as [|a l]; simpl in *; [lia|].
  destruct k as [|j]; [lia|]. simpl.
  destruct (nth_error l j) as [x|] eqn:E.
  - exists x. split; [reflexivity|]. now apply firstn_snoc.
  - apply nth_error_None in E. lia.
Qed.

Lemma skipn_tl {A} (c : nat) (l : list A) : skipn (S c) l = tl (skipn c l).
Proof.
  revert l; induction c as [|c IH]; intros [|a l]; simpl; try reflexivity.
  apply IH.
Qed.

(** C6: a window cut at cursor [i] for a requested length [seq_len] has the
    effective length [min seq_len (n - 1 - i)], which is at least one and at
    most [n - 1 - i]; its input is the rows [i .. i+len) of the batch
    matrix, its target the rows [i+1 .. i+1+len) flattened: the target is
    the input without its first row, followed by row [i+len]. *)
Theorem window_target_is_shifted_input
        (self : LanguageModelLoader) (draws : nat -> Z) (y : Yield) :
  n self = Z.of_nat (length (data self)) ->
  In y (yields (__iter__ self draws)) ->
  let k := Z.to_nat (Z.min (y_seq_len y) (n self - 1 - y_i y)) in
  let c := Z.to_nat (y_i y) in
  0 <= y_i y
  /\ 1 <= Z.of_nat k <= n self - 1 - y_i y
  /\ fst (y_res y) = firstn k (skipn c (data self))
  /\ length (fst (y_res y)) = k
  /\ snd (y_res y) = concat (firstn k (skipn (S c) (data self)))
  /\ exists next, nth_error (data self) (c + k) = Some next
       /\ snd (y_res y) = concat (tl (fst (y_res y)) ++ [next]).
Proof.
  intros Hn Hin k c. unfold __iter__ in Hin.
  apply loop_yields in Hin; simpl; try lia.
  simpl in Hin. destruct Hin as (Hi & Hs & Hres).
  assert (Hres' : y_res y = get_batch self (y_i y) (y_seq_len y))
    by exact Hres.
  rewrite get_batch_inside in Hres' by lia.
  rewrite <- Hn in Hres'. fold k c in Hres'.
  assert (Hk : 1 <= Z.of_nat k <= n self - 1 - y_i y) by (subst k; lia).
  assert (Hlen : length (firstn k (skipn c (data self))) = k).
  { rewrite length_firstn, length_skipn. subst c. lia. }
  rewrite Hres'. cbn [fst snd].
  split; [lia|]. split; [exact Hk|]. split; [reflexivity|].
  split; [exact Hlen|]. split; [reflexivity|].
  destruct (shift_window k (skipn c (data self))) as (x & Hx & Hshift).
  { rewrite length_skipn. subst c. lia. }
  exists x. split.
  - now rewrite nth_error_skipn in Hx.
  - now rewrite skipn_tl, Hshift.
Qed.

Ltac loop_count_step IH :=
  match goal with
  | |- context [while_loop ?fuel ?draws ?k' ?s'] =>
      destruct (IH k' s') as (H1 & H2 & H3 & H4);
      [simpl; lia | simpl; lia | simpl; lia | simpl; lia |];
      cbn [emit yields final stop length];
      cbn [iter n bptt i] in H2, H3, H4;
      rewrite Nat2Z.inj_succ;
      split; [exact H1|]; split; [lia|]; split; [lia|];
      destruct H4 as [H4|H4]; [left|right]; lia
  end.

(** The count of windows of the loop, from any state of the traversal. *)
Lemma loop_count (fuel : nat) (draws : nat -> Z) (k : nat)
      (self : LanguageModelLoader) :
  1 <= bptt self -> 0 <= i self -> 0 <= iter self ->
  (Z.to_nat ((n self - 1) / bptt self - iter self) < fuel)%nat ->
  let r := while_loop fuel draws k self in
  stop r = Exhausted
  /\ iter (final r) = iter self + Z.of_nat (length (yields r))
  /\ iter (final r) <= Z.max (iter self) ((n self - 1) / bptt self)
  /\ (n self - 1 <= i (final r)
      \/ (n self - 1) / bptt self <= iter (final r)).
Proof.
  revert k self; induction fuel as [|fuel IH];
    intros k self Hb Hi Hiter Hfuel; [lia|].
  loop_step self.
  - apply len_ok in Hlen as (_ & -> & _). loop_count_step IH.
  - apply len_ok in Hlen as (_ & -> & _). loop_count_step IH.
  - apply len_ok in Hlen as (_ & -> & _). simpl. repeat split; lia.
  - rewrite len_positive in Hlen by lia. discriminate.
  - simpl. repeat split; lia.
Qed.

(** A traversal always comes to an end: the cap bounds the iterations when
    [bptt] is positive, and otherwise the loop is left, or [len] raises,
    before a first window. *)
Lemma traversal_total (self : LanguageModelLoader) (draws : nat -> Z) :
  stop (__iter__ self draws) <> OutOfFuel.
Proof.
  unfold __iter__.
  destruct (Z.lt_ge_cases (bptt self) 1) as [Hb|Hb].
  - cbn [while_loop restart i n iter].
    destruct (Z.ltb_spec 0 (n self - 1)) as [Hn|Hn]; [|discriminate].
    destruct (len (restart self)) as [c|e] eqn:Hlen; [|discriminate].
    apply len_ok in Hlen as (Hz & -> & Hc). cbn [restart bptt n] in Hz, Hc |- *.
    destruct (Z.ltb_spec 0 ((n self - 1) / bptt self)) as [Hq|Hq];
      [|discriminate].
    pose proof (cap_sign (n self - 1) (bptt self) Hn Hz). lia.
  - destruct (loop_count (S (cap (restart self))) draws 0 (restart self))
      as (H & _); try (simpl; lia).
    + unfold cap, __len__. cbn [restart bptt n iter].
      replace (bptt self =? 0) with false
        by (symmetry; apply Z.eqb_neq; lia).
      lia.
    + rewrite H. discriminate.
Qed.

Lemma init_ok (nums : list Z) (bs bptt : Z) (backwards : bool) :
  1 <= bs ->
  exists ld, __init__ nums bs bptt backwards = Ok ld
             /\ n ld = Z.of_nat (length nums) / bs
             /\ n ld = Z.of_nat (length (data ld))
             /\ Loader.bptt ld = bptt /\ first ld = true.
Proof.
  intros Hbs. unfold __init__. rewrite batchify_eq by exact Hbs.
  simpl. eexists. split; [reflexivity|]. simpl.
  assert (0 <= Z.of_nat (length nums) / bs) by (apply Z.div_pos; lia).
  repeat split.
  destruct backwards; rewrite ?length_rev, transpose_length; lia.
Qed.

(** C1, as the code has it: with [bs >= 1] and [bptt >= 1] a traversal ends
    normally after at most [(n - 1) // bptt] windows (none when that number
    is negative), where [n = len // bs]; it yields fewer only when the
    cursor has reached [n - 1] before, which depends on the draws. *)
Theorem window_count_at_most
        (nums : list Z) (bs bptt : Z) (backwards : bool) (draws : nat -> Z) :
  1 <= bs -> 1 <= bptt ->
  exists ld,
    __init__ nums bs bptt backwards = Ok ld
    /\ n ld = Z.of_nat (length nums) / bs
    /\ let r := __iter__ ld draws in
       let count := Z.of_nat (length (windows r)) in
       stop r = Exhausted
       /\ count <= Z.max 0 ((n ld - 1) / bptt)
       /\ (count = Z.max 0 ((n ld - 1) / bptt) \/ n ld - 1 <= i (final r)).
Proof.
  intros Hbs Hbptt.
  destruct (init_ok nums bs bptt backwards Hbs) as (ld & E & Hn & _ & Hb & _).
  exists ld. split; [exact E|]. split; [exact Hn|].
  unfold windows. rewrite length_map. unfold __iter__.
  destruct (loop_count (S (cap (restart ld))) draws 0 (restart ld))
    as (H1 & H2 & H3 & H4).
  - simpl. lia.
  - simpl. lia.
  - simpl. lia.
  - unfold cap, __len__. simpl.
    replace (Loader.bptt ld =? 0) with false
      by (symmetry; apply Z.eqb_neq; lia).
    lia.
  - set (r := while_loop (S (cap (restart ld))) draws 0 (restart ld)) in *.
    clearbody r. cbn [restart iter n Loader.bptt i] in H2, H3, H4.
    rewrite Hb in H3, H4.
    split; [exact H1|]. split; [lia|]. destruct H4 as [H4|H4]; [now right|].
    left. lia.
Qed.

Lemma loop_first_off (fuel : nat) (draws : nat -> Z) (k : nat)
      (self : LanguageModelLoader) :
  first self = false -> first (final (while_loop fuel draws k self)) = false.
Proof.
  revert k self; induction fuel as [|fuel IH]; intros k self Hf.
  - exact Hf.
  - loop_step self; simpl; try exact Hf.
    + now apply IH.
    + now apply IH.
Qed.

(** The first window of the loop, and the flag once a window was cut at
    cursor zero. *)
Lemma loop_head (fuel : nat) (draws : nat -> Z) (k : nat)
      (self : LanguageModelLoader) (y : Yield) (rest : list Yield) :
  yields (while_loop fuel draws k self) = y :: rest ->
  y_i y = i self
  /\ y_seq_len y = (if first self && (i self =? 0)
                    then bptt self + 25 else Z.max 5 (draws k))
  /\ (i self = 0 -> first (final (while_loop fuel draws k self)) = false).
Proof.
  destruct fuel as [|fuel]; [discriminate|].
  loop_step self; simpl; try discriminate.
  - intros [= <- _]. simpl. repeat split.
    intros _. now apply loop_first_off.
  - intros [= <- _]. simpl. repeat split.
    intros E. apply loop_first_off. simpl.
    rewrite E in Hfirst. simpl in Hfirst.
    now rewrite andb_true_r in Hfirst.
Qed.

(** Whether the loop cuts a first window depends on [i], [iter], [n] and
    [bptt] only. *)
Lemma loop_starts (fuel : nat) (draws draws' : nat -> Z) (k k' : nat)
      (self self' : LanguageModelLoader) :
  i self' = i self -> iter self' = iter self -> n self' = n self ->
  bptt self' = bptt self ->
  yields (while_loop (S fuel) draws k self) <> [] ->
  yields (while_loop (S fuel) draws' k' self') <> [].
Proof.
  intros Ei Eit En Eb.
  assert (El : len self' = len self)
    by (unfold len, __len__; now rewrite En, Eb).
  cbn [while_loop]. rewrite Ei, Eit, En, El.
  destruct (i self <? n self - 1); [|tauto].
  destruct (len self) as [c|e]; [|tauto].
  destruct (iter self <? c); [|tauto].
  intros _.
  destruct (first self' && (i self =? 0)); simpl; discriminate.
Qed.

(** C2, as the code has it: every traversal restarts at cursor zero, and
    the burn-in length [bptt + 25] is requested for the first window of the
    first traversal after construction only; the first window of the next
    traversal has a drawn length, [max 5] of the first draw. *)
Theorem burn_in_first_traversal_only
        (nums : list Z) (bs bptt : Z) (backwards : bool)
        (ld : LanguageModelLoader) (draws1 draws2 : nat -> Z) :
  __init__ nums bs bptt backwards = Ok ld ->
  let r1 := __iter__ ld draws1 in
  let r2 := __iter__ (final r1) draws2 in
  (forall y rest, yields r1 = y :: rest ->
     y_i y = 0 /\ y_seq_len y = bptt + 25)
  /\ (forall y rest, yields r2 = y :: rest ->
        y_i y = 0 /\ y_seq_len y = Z.max 5 (draws2 O)).
Proof.
  intros Hinit r1 r2.
  assert (Hld : first ld = true /\ Loader.bptt ld = bptt).
  { unfold __init__ in Hinit.
    destruct (batchify bs backwards nums); simpl in Hinit; [|discriminate].
    injection Hinit as <-. simpl. auto. }
  destruct Hld as (Hf & Hb).
  destruct (loop_frame (S (cap (restart ld))) draws1 0 (restart ld))
    as (Fb & Fn & _).
  fold (__iter__ ld draws1) in Fb, Fn. fold r1 in Fb, Fn.
  simpl in Fb, Fn.
  split.
  - intros y rest Hy. apply loop_head in Hy as (Hi & Hs & _).
    simpl in Hi, Hs. rewrite Hf, Hb in Hs. simpl in Hs. auto.
  - intros y rest Hy.
    assert (Ecap : cap (restart (final r1)) = cap (restart ld))
      by (unfold cap, __len__; cbn [restart Loader.bptt n iter];
          now rewrite Fb, Fn).
    assert (Hne : yields r1 <> []).
    { unfold r1, __iter__.
      apply (loop_starts (cap (restart ld)) draws2 draws1 0 0
                         (restart (final r1)) (restart ld));
        [ reflexivity | reflexivity
        | cbn [restart n]; congruence
        | cbn [restart Loader.bptt]; congruence | ].
      rewrite <- Ecap. unfold r2, __iter__ in Hy. rewrite Hy. discriminate. }
    destruct (yields r1) as [|y1 rest1] eqn:Hy1; [congruence|].
    apply loop_head in Hy1 as (_ & _ & Hoff). specialize (Hoff eq_refl).
    fold (__iter__ ld draws1) in Hoff. fold r1 in Hoff.
    apply loop_head in Hy as (Hi & Hs & _). simpl in Hi, Hs.
    rewrite Hoff in Hs. simpl in Hs. auto.
Qed.

Lemma batchify_streams_witness :
  1 <= 2
  /\ exists m, batchify 2 false small_stream = Ok m
               /\ stream 1 m = [6; 7; 8; 9; 10; 11].
Proof.
  split; [lia|].
  destruct (batchify_streams small_stream 2) as (m & E & _ & _ & Hs & _);
    [lia|].
  exists m. split; [exact E|].
  destruct (Hs 1%nat) as (H & _); [vm_compute; lia|]. exact H.
Defined.

Lemma window_target_is_shifted_input_witness :
  n small = Z.of_nat (length (data small))
  /\ In small_window (yields (__iter__ small (fun _ => 5)))
  /\ exists next, nth_error (data small) 5 = Some next
       /\ snd (y_res small_window)
          = concat (tl (fst (y_res small_window)) ++ [next]).
Proof.
  split; [reflexivity|]. split; [left; reflexivity|].
  destruct (window_target_is_shifted_input small (fun _ => 5) small_window)
    as (_ & _ & _ & _ & _ & H); [reflexivity | left; reflexivity | exact H].
Defined.

(** The end-to-end scenario (1000 ids, [bs = 10], [bptt = 20], so [n = 100]
    and [(n - 1) // bptt = 4]) when the draws are 30: the cursor goes 45,
    75, 105 and the traversal ends after three windows; with draws of 20 it
    yields four. *)
Lemma window_count_depends_on_draws :
  exists ld,
    __init__ scenario 10 20 false = Ok ld
    /\ n ld = 100
    /\ (n ld - 1) / 20 = 4
    /\ length (windows (__iter__ ld (fun _ => 30))) = 3%nat
    /\ length (windows (__iter__ ld (fun _ => 20))) = 4%nat
    /\ Z.of_nat (length (windows (__iter__ ld (fun _ => 30))))
       <> (n ld - 1) / 20.
Proof.
  eexists. split; [vm_compute; reflexivity|].
  repeat split; try (vm_compute; reflexivity).
  vm_compute. discriminate.
Qed.

Lemma window_count_at_most_witness :
  1 <= 10 /\ 1 <= 20
  /\ exists ld,
       __init__ scenario 10 20 false = Ok ld
       /\ n ld = Z.of_nat (length scenario) / 10
       /\ let r := __iter__ ld (fun _ => 30) in
          let count := Z.of_nat (length (windows r)) in
          stop r = Exhausted
          /\ count <= Z.max 0 ((n ld - 1) / 20)
          /\ (count = Z.max 0 ((n ld - 1) / 20) \/ n ld - 1 <= i (final r)).
Proof.
  split; [lia|]. split; [lia|].
  apply (window_count_at_most scenario 10 20 false (fun _ => 30)); lia.
Defined.

(** The small loader traversed twice with draws of 5: the first window of
    the second traversal is requested for 5 steps, not for
    [bptt + 25 = 26]. *)
Lemma burn_in_not_repeated :
  __init__ small_stream 2 1 false = Ok small
  /\ exists y rest,
       yields (__iter__ (final (__iter__ small (fun _ => 5))) (fun _ => 5))
       = y :: rest
       /\ y_seq_len y = 5
       /\ y_seq_len y <> bptt small + 25.
Proof.
  split; [reflexivity|].
  eexists. eexists. split; [vm_compute; reflexivity|].
  split; [reflexivity|]. vm_compute. discriminate.
Qed.

Lemma burn_in_first_traversal_only_witness :
  __init__ small_stream 2 1 false = Ok small
  /\ (forall y rest, yields (__iter__ small (fun _ => 5)) = y :: rest ->
        y_i y = 0 /\ y_seq_len y = 1 + 25)
  /\ (forall y rest,
        yields (__iter__ (final (__iter__ small (fun _ => 5))) (fun _ => 7))
        = y :: rest ->
        y_i y = 0 /\ y_seq_len y = Z.max 5 7).
Proof.
  split; [reflexivity|].
  apply (burn_in_first_traversal_only small_stream 2 1 false small
           (fun _ => 5) (fun _ => 7)).
  reflexivity.
Defined.

End Traversal.

(** ** Construction and the dropout probabilities *)

Section Construction.
Import Torch.

Lemma comprehension_total {A X} (f : X -> A) (xs : list X) :
  RNNCore.comprehension (fun x => Ok (f x)) xs = Ok (map f xs).
Proof.
  induction xs as [|x xs IH]; simpl; [reflexivity|]. now rewrite IH.
Qed.

Lemma hidden_dps_built (hidden_p : Q) (k : nat) :
  RNNCore.comprehension (fun _ : nat => RNNDropout.__init__ hidden_p)
                        (RNNCore.range k)
  = Ok (map (fun _ => {| RNNDropout.p := hidden_p;
                         RNNDropout.training := true |})
            (RNNCore.range k)).
Proof. apply (comprehension_total (fun _ : nat => _)). Qed.

(** The exception of the construction of the encoder, if any, is the one of
    the table or of a layer: it is the same for any other probabilities. *)
Lemma core_init_raised (B : RNNCore.Backend) (init : nat -> Q)
      (vocab_sz emb_sz n_hid n_layers : nat) (pad_token : option Z)
      (bidir qrnn : bool) (hidden_p input_p embed_p weight_p : Q)
      (hidden_p' input_p' embed_p' weight_p' : Q) :
  raised (RNNCore.__init__ B init vocab_sz emb_sz n_hid n_layers pad_token
                           bidir hidden_p input_p embed_p weight_p qrnn)
  = raised (RNNCore.__init__ B init vocab_sz emb_sz n_hid n_layers pad_token
                             bidir hidden_p' input_p' embed_p' weight_p'
                             qrnn).
Proof.
  unfold RNNCore.__init__.
  destruct (RNNCore.nn_Embedding B vocab_sz emb_sz pad_token) as [pad|e];
    [|reflexivity].
  cbn [bind EmbeddingDropout.__init__].
  rewrite !hidden_dps_built.
  destruct qrnn.
  - destruct (RNNCore.qrnn_importable B); [|reflexivity].
    destruct (RNNCore.comprehension _ (RNNCore.range n_layers));
      reflexivity.
  - destruct (RNNCore.comprehension _ (RNNCore.range n_layers));
      reflexivity.
Qed.

(** C4, as the code has it: no constructor looks at a probability.
    [RNNDropout] and [EmbeddingDropout] are built for every value, which
    they store as given, and the construction of the encoder raises the
    same exception or none whatever the four probabilities are. *)
Theorem construction_ignores_probabilities :
  (forall p : Q,
      RNNDropout.__init__ p
      = Ok {| RNNDropout.p := p; RNNDropout.training := true |})
  /\ (forall (emb : EmbeddingDropout.Embedding) (p : Q),
         exists d, EmbeddingDropout.__init__ emb p = Ok d
                   /\ EmbeddingDropout.embed_p d = p
                   /\ EmbeddingDropout.emb d = emb)
  /\ (forall (B : RNNCore.Backend) (init : nat -> Q)
             (vocab_sz emb_sz n_hid n_layers : nat) (pad_token : option Z)
             (bidir qrnn : bool) (hidden_p input_p embed_p weight_p : Q)
             (hidden_p' input_p' embed_p' weight_p' : Q),
         raised (RNNCore.__init__ B init vocab_sz emb_sz n_hid n_layers
                   pad_token bidir hidden_p input_p embed_p weight_p qrnn)
         = raised (RNNCore.__init__ B init vocab_sz emb_sz n_hid n_layers
                     pad_token bidir hidden_p' input_p' embed_p' weight_p'
                     qrnn)).
Proof.
  split; [reflexivity|]. split.
  - intros emb p. eexists. split; [reflexivity|]. split; reflexivity.
  - apply core_init_raised.
Qed.

(** A dropout module is built with [p = 3/2], and an encoder with
    [hidden_p = 3/2], [input_p = -1], [embed_p = 2] and [weight_p = 7],
    which it stores. *)
Lemma probability_outside_unit_accepted :
  ~ in_unit (3 # 2)
  /\ succeeds (RNNDropout.__init__ (3 # 2))
  /\ ~ in_unit (-1) /\ ~ in_unit 2 /\ ~ in_unit 7
  /\ exists self,
       Demo.construct_wild = Ok self
       /\ RNNDropout.p (RNNCore.input_dp self) = (-1)%Q
       /\ map RNNDropout.p (RNNCore.hidden_dps self) = [3 # 2; 3 # 2]
       /\ EmbeddingDropout.embed_p (RNNCore.encoder_dp self) = 2%Q
       /\ map RNNCore.weight_p (RNNCore.rnns self) = [Some 7%Q; Some 7%Q].
Proof.
  assert (H : forall q, (1 <= q)%Q \/ (q < 0)%Q -> ~ in_unit q).
  { intros q [H|H] [H0 H1].
    - apply (Qlt_not_le _ _ H1 H).
    - apply (Qlt_not_le _ _ H H0). }
  split; [apply H; left; discriminate|].
  split; [eexists; reflexivity|].
  split; [apply H; right; reflexivity|].
  split; [apply H; left; discriminate|].
  split; [apply H; left; discriminate|].
  eexists. split; [vm_compute; reflexivity|].
  repeat split.
Qed.

End Construction.

(** ** The embedding table across a forward call *)

Section EmbeddingFrame.
Import Torch EmbeddingDropout.
Variable renorm : Q -> Q -> LongTensor -> Tensor -> Tensor.

(** With dropout drawn, the scale goes to the tensor of the call and the
    table keeps its weight. *)
Lemma forward_training_keeps_weight
      (grad_enabled : bool) (draw : Rng) (pos : nat)
      (self : EmbeddingDropout) (words : LongTensor) (scale : option Q) :
  training self = true -> Qeq_bool (embed_p self) 0 = false ->
  max_norm (emb self) = None ->
  emb (fst (forward renorm grad_enabled draw pos self words scale))
  = emb self.
Proof.
  intros Ht Hp Hm. unfold forward. rewrite Ht, Hp. simpl.
  destruct scale as [c|]; [destruct (truthy (Some c))|];
    unfold embedding; simpl; rewrite Hm;
    match goal with
    | |- context [lookup ?w ?t] => destruct (lookup w t)
    end; reflexivity.
Qed.

(** Without a scale, the table keeps its weight. *)
Lemma forward_unscaled_keeps_weight
      (grad_enabled : bool) (draw : Rng) (pos : nat)
      (self : EmbeddingDropout) (words : LongTensor) (scale : option Q) :
  truthy scale = false -> max_norm (emb self) = None ->
  emb (fst (forward renorm grad_enabled draw pos self words scale))
  = emb self.
Proof.
  intros Hs Hm. unfold forward.
  destruct (training self && negb (Qeq_bool (embed_p self) 0));
    simpl; (destruct scale as [c|]; [rewrite Hs|]);
    unfold embedding; simpl; rewrite Hm;
    match goal with
    | |- context [lookup ?w ?t] => destruct (lookup w t)
    end; reflexivity.
Qed.

(** Without drawn dropout, a scale is multiplied into the weight of the
    table itself, where the engine lets it. *)
Lemma forward_scale_writes_weight
      (draw : Rng) (pos : nat) (grad_enabled : bool)
      (self : EmbeddingDropout) (words : LongTensor) (c : Q) :
  training self && negb (Qeq_bool (embed_p self) 0) = false ->
  truthy (Some c) = true ->
  requires_grad (emb self) && grad_enabled = false ->
  max_norm (emb self) = None ->
  weight (emb (fst (forward renorm grad_enabled draw pos self words
                            (Some c))))
  = scale_by c (weight (emb self)).
Proof.
  intros Hd Hc Hg Hm. unfold forward. rewrite Hd, Hc.
  unfold mul_. rewrite Hg. unfold embedding. simpl. rewrite Hm.
  match goal with
  | |- context [lookup ?w ?t] => destruct (lookup w t)
  end; reflexivity.
Qed.

End EmbeddingFrame.

(** C8 on the code: in evaluation mode, with gradients not recorded (as in
    a validation pass), a forward call with [scale = 2] on the table
    [[1, 2], [3, 4]] returns the scaled rows and leaves the table with the
    weight [[2, 4], [6, 8]]; a second call doubles it again. *)
Theorem embedding_scale_overwrites_table
        (renorm : Q -> Q -> Torch.LongTensor -> Torch.Tensor -> Torch.Tensor)
        (draw : Torch.Rng) (pos : nat) :
  let words := {| Torch.l_shape := [1%nat]; Torch.l_elems := [0] |} in
  let call self :=
    EmbeddingDropout.forward renorm false draw pos self words (Some 2%Q) in
  let after := fst (call Demo.eval_dropout) in
  Torch.elems (EmbeddingDropout.weight
                 (EmbeddingDropout.emb Demo.eval_dropout))
  = [1; 2; 3; 4]%Q
  /\ snd (call Demo.eval_dropout)
     = Ok ({| Torch.shape := [1%nat; 2%nat]; Torch.elems := [2; 4]%Q |}, pos)
  /\ Torch.elems (EmbeddingDropout.weight (EmbeddingDropout.emb after))
     = [2; 4; 6; 8]%Q
  /\ Torch.elems (EmbeddingDropout.weight
                    (EmbeddingDropout.emb (fst (call after))))
     = [4; 8; 12; 16]%Q.
Proof.
  repeat split.
Qed.

(** ** The state of the encoder *)

Section CoreState.
Import Torch RNNCore.
Variable B : Backend.

Lemma not_last_eq (l k : nat) : not_last l k = negb (S l =? k)%nat.
Proof.
  unfold not_last. f_equal.
  destruct (Nat.eqb_spec (S l) k); [apply Z.eqb_eq | apply Z.eqb_neq]; lia.
Qed.

Lemma zeros_all_zero (sz : list nat) :
  Forall (fun v => v = 0%Q) (elems (zeros sz)).
Proof.
  apply Forall_forall. intros v Hv. now apply repeat_spec in Hv.
Qed.

Lemma nth_error_map_range {X} (f : nat -> X) (k l : nat) (x : X) :
  nth_error (map f (range k)) l = Some x -> (l < k)%nat /\ x = f l.
Proof.
  unfold range. rewrite nth_error_map, nth_error_seq.
  destruct (Nat.ltb_spec l k); simpl; [|discriminate].
  intros [= <-]. auto.
Qed.

(** [reset] leaves one all-zero state per layer, as wide as [self.bs]. *)
Lemma reset_zero_state (self : RNNCore B) :
  exists hs, hidden (reset B self) = Some hs
             /\ zero_state self (bs self) hs.
Proof.
  unfold reset. cbn [set_hidden hidden qrnn set_weights set_rnns n_layers].
  eexists. split; [reflexivity|]. split.
  - unfold range. destruct (qrnn self); now rewrite length_map, length_seq.
  - intros l h t Hh Ht.
    assert (Hz : t = zeros [ndir self; bs self;
                            ((if not_last l (n_layers self)
                              then n_hid self else emb_sz self)
                             / ndir self)%nat]).
    { destruct (qrnn self); apply nth_error_map_range in Hh as (_ & ->);
        simpl in Ht; intuition (subst; reflexivity). }
    subst t. rewrite not_last_eq. split; [|apply zeros_all_zero].
    cbn [zeros shape]. now destruct (S l =? n_layers self)%nat.
Qed.

Lemma adopt_width_bs (self : RNNCore B) (width : nat) :
  bs (adopt_width B self width) = width.
Proof.
  unfold adopt_width. destruct (Nat.eqb_spec width (bs self)); simpl; auto.
Qed.

(** A width other than the stored one is stored and the state is
    reallocated as zeros before anything reads it. *)
Lemma adopt_width_resets (self : RNNCore B) (width : nat) :
  width <> bs self ->
  exists hs, hidden (adopt_width B self width) = Some hs
             /\ zero_state self width hs.
Proof.
  intros Hw. unfold adopt_width.
  replace (width =? bs self)%nat with false
    by (symmetry; now apply Nat.eqb_neq).
  cbn [negb].
  destruct (reset_zero_state (set_bs B self width)) as (hs & Hh & Hz).
  exists hs. split; [exact Hh|]. exact Hz.
Qed.

Lemma embed_input_frame (grad_enabled : bool) (draw : Rng) (pos : nat)
      (self : RNNCore B) (input : LongTensor) :
  let s := fst (embed_input B grad_enabled draw pos self input) in
  bs s = bs self /\ hidden s = hidden self /\ rnns s = rnns self
  /\ hidden_dps s = hidden_dps self /\ n_layers s = n_layers self
  /\ training s = training self.
Proof.
  unfold embed_input.
  destruct (EmbeddingDropout.forward _ _ _ _ _ _ _) as [edp [[emb p1]|e]];
    simpl; auto 10.
Qed.

(** [forward] after the width was adopted only writes the table, the
    layers and the state. *)
Lemma run_bs (grad_enabled : bool) (draw : Rng) (pos : nat)
      (self : RNNCore B) (input : LongTensor) :
  bs (fst (run B grad_enabled draw pos self input)) = bs self.
Proof.
  unfold run.
  pose proof (embed_input_frame grad_enabled draw pos self input) as F.
  destruct (embed_input B grad_enabled draw pos self input)
    as [s [[x p2]|e]]; simpl in F; destruct F as (Fb & _); simpl;
    [|exact Fb].
  destruct (layers B s draw 0 _ x _) as [rs [acc|e]]; simpl; exact Fb.
Qed.

Lemma forward_bs (grad_enabled : bool) (draw : Rng) (pos : nat)
      (self : RNNCore B) (input : LongTensor) (sl width : nat) :
  l_shape input = [sl; width] ->
  bs (fst (forward B grad_enabled draw pos self input)) = width.
Proof.
  intros Hs. unfold forward. rewrite Hs.
  rewrite run_bs. apply adopt_width_bs.
Qed.

(** C3: a forward call on an input whose batch width is not the stored
    [bs] stores the new width and runs on a hidden state reallocated, for
    every layer, as all-zero tensors of shape (directions, new width, layer
    hidden size); after any forward call the stored [bs] is the width of
    its input, so a call of another width that follows (width 4, then
    width 6) runs on such a state too. *)
Theorem width_change_resets_hidden
        (grad_enabled : bool) (draw : Rng) (pos : nat)
        (self : RNNCore B) (input : LongTensor) (sl width : nat) :
  l_shape input = [sl; width] -> width <> bs self ->
  let fresh := adopt_width B self width in
  forward B grad_enabled draw pos self input
  = run B grad_enabled draw pos fresh input
  /\ bs fresh = width
  /\ (exists hs, hidden fresh = Some hs /\ zero_state self width hs)
  /\ bs (fst (forward B grad_enabled draw pos self input)) = width.
Proof.
  intros Hs Hw fresh. split; [|split; [|split]].
  - unfold forward. now rewrite Hs.
  - apply adopt_width_bs.
  - now apply adopt_width_resets.
  - now apply (forward_bs _ _ _ _ _ sl).
Qed.

End CoreState.

(** ** The layers of the encoder *)

Section CoreLayers.
Import Torch RNNCore.
Variable B : Backend.

Lemma last_item_snoc {X} (l : list X) (a : X) :
  RNNTrainer.last_item (l ++ [a]) = Some a.
Proof.
  induction l as [|x l IH]; [reflexivity|].
  simpl. destruct (l ++ [a]) eqn:E; [|exact IH].
  destruct l; discriminate.
Qed.

Lemma comprehension_length {A X} (f : X -> result A) (xs : list X)
      (ys : list A) :
  comprehension f xs = Ok ys -> length ys = length xs.
Proof.
  revert ys; induction xs as [|x xs IH]; intros ys; simpl.
  - now intros [= <-].
  - destruct (f x); simpl; [|discriminate].
    destruct (comprehension f xs); simpl; [|discriminate].
    intros [= <-]. simpl. f_equal. now apply IH.
Qed.

Ltac layers_step self l :=
  cbn [layers];
  destruct (hidden self) as [hs|] eqn:Hhid;
  [ destruct (nth_error hs l) as [h|] eqn:Hnth;
    [ match goal with
      | |- context [layer_forward ?b ?tr ?wp ?c ?x ?h ?d ?p] =>
          destruct (layer_forward b tr wp c x h d p)
            as [[[[raw new_h] m] pos1]|e1] eqn:Hcall
      end
    | ]
  | ].

(** A completed loop: what it appended, and its last two outputs. *)
Lemma layers_last (self : RNNCore B) (draw : Rng)
      (zs : list (Rnn B * RNNDropout.RNNDropout)) :
  forall (l : nat) (x : Tensor) (acc acc' : Acc B) (rs : list (Rnn B)),
    (l + length zs)%nat = n_layers self ->
    layers B self draw l zs x acc = (rs, Ok acc') ->
    length (raw_outputs acc') = (length (raw_outputs acc) + length zs)%nat
    /\ length (outputs acc') = (length (outputs acc) + length zs)%nat
    /\ ((zs = [] /\ acc' = acc)
        \/ exists t, RNNTrainer.last_item (outputs acc') = Some t
                     /\ RNNTrainer.last_item (raw_outputs acc') = Some t).
Proof.
  induction zs as [|[rnn hid_dp] zs IH]; intros l x acc acc' rs Hl.
  - simpl. intros [= _ <-]. repeat split; try lia. now left.
  - layers_step self l; try discriminate.
    destruct (if not_last l (n_layers self)
              then RNNDropout.forward draw pos1 hid_dp raw
              else Ok (raw, pos1)) as [[out pos2]|e2] eqn:Hdrop;
      [|discriminate].
    intros Hrec. simpl in Hl.
    destruct (IH (S l) out _ acc' rs ltac:(lia) Hrec) as (L1 & L2 & Hlast).
    cbn [raw_outputs outputs] in L1, L2. rewrite length_app in L1, L2.
    simpl in L1, L2. simpl length.
    split; [lia|]. split; [lia|]. right.
    destruct Hlast as [(-> & ->)|Hlast]; [|exact Hlast].
    cbn [raw_outputs outputs]. rewrite !last_item_snoc.
    assert (Hnl : not_last l (n_layers self) = false).
    { rewrite not_last_eq. simpl in Hl.
      replace (S l =? n_layers self)%nat with true; [reflexivity|].
      symmetry. apply Nat.eqb_eq. lia. }
    rewrite Hnl in Hdrop. injection Hdrop as <- _. eauto.
Qed.

(** With a state for every layer, a loop that raises has found the state
    of every layer it reached: the layers of a prefix returned, and the
    call of the next layer, or of its hidden dropout, raised.  [x0] is the
    activation that the first layer of the whole loop was given. *)
Lemma layers_raise (self : RNNCore B) (draw : Rng)
      (zs : list (Rnn B * RNNDropout.RNNDropout)) (state : list Hidden)
      (x0 : Tensor) :
  hidden self = Some state ->
  forall (l : nat) (x : Tensor) (acc : Acc B) (rs : list (Rnn B))
         (e : PyErr),
    last (outputs acc) x0 = x ->
    (l + length zs <= length state)%nat ->
    layers B self draw l zs x acc = (rs, Raise e) ->
    exists pre rnn hid_dp post rs1 acc1 h,
      zs = pre ++ (rnn, hid_dp) :: post
      /\ layers B self draw l pre x acc = (rs1, Ok acc1)
      /\ nth_error state (l + length pre) = Some h
      /\ (layer_forward B (training self) (weight_p rnn) (cell rnn)
                        (last (outputs acc1) x0) h draw (cursor acc1)
          = Raise e
          \/ exists raw new_h m pos1,
               layer_forward B (training self) (weight_p rnn) (cell rnn)
                             (last (outputs acc1) x0) h draw (cursor acc1)
               = Ok (raw, new_h, m, pos1)
               /\ not_last (l + length pre) (n_layers self) = true
               /\ RNNDropout.forward draw pos1 hid_dp raw = Raise e).
Proof.
  intros Hh. induction zs as [|[rnn hid_dp] zs IH]; intros l x acc rs e Hx Hl.
  - simpl. discriminate.
  - layers_step self l.
    + injection Hh as <-.
      destruct (if not_last l (n_layers self)
                then RNNDropout.forward draw pos1 hid_dp raw
                else Ok (raw, pos1)) as [[out pos2]|e2] eqn:Hdrop.
      * intros Hrec. simpl in Hl.
        apply IH in Hrec; [| cbn [outputs]; apply last_last | lia].
        destruct Hrec
          as (pre & rnn' & hd' & post & rs1 & acc1 & h' & -> & Hpre & Hn & Hor).
        exists ((rnn, hid_dp) :: pre), rnn', hd', post, rs1, acc1, h'.
        split; [reflexivity|]. split.
        { cbn [layers]. rewrite Hhid, Hnth, Hcall, Hdrop. exact Hpre. }
        cbn [length]. replace (l + S (length pre))%nat
          with (S l + length pre)%nat by lia.
        split; [exact Hn | exact Hor].
      * intros [= _ <-].
        exists [], rnn, hid_dp, zs, (called acc), acc, h.
        split; [reflexivity|]. split; [reflexivity|].
        cbn [length]. rewrite Nat.add_0_r. split; [exact Hnth|].
        right. exists raw, new_h, m, pos1. rewrite Hx.
        split; [exact Hcall|].
        destruct (not_last l (n_layers self)); [|discriminate].
        split; [reflexivity | exact Hdrop].
    + injection Hh as <-. intros [= _ <-].
      exists [], rnn, hid_dp, zs, (called acc), acc, h.
      split; [reflexivity|]. split; [reflexivity|].
      cbn [length]. rewrite Nat.add_0_r. split; [exact Hnth|].
      left. rewrite Hx. exact Hcall.
    + injection Hh as <-. apply nth_error_None in Hnth. simpl in Hl. lia.
    + discriminate.
Qed.

(** [layer_raised] holds of no exception when the encoder has no state or
    no layer: it speaks of a layer of the run that found its state. *)
Lemma layer_raised_found_state (self : RNNCore B) (draw : Rng) (x : Tensor)
      (pos : nat) (e : PyErr) :
  layer_raised B self draw x pos e ->
  exists hs l h,
    hidden self = Some hs /\ nth_error hs l = Some h
    /\ (l < length (rnns self))%nat /\ (l < length (hidden_dps self))%nat.
Proof.
  intros (pre & rnn & hid_dp & post & rs & acc & hs & h & Ezs & _ & Hh & Hn
          & _).
  exists hs, (length pre), h. split; [exact Hh|]. split; [exact Hn|].
  assert (L : (length pre
               < length (combine (rnns self) (hidden_dps self)))%nat).
  { rewrite Ezs, length_app. simpl. lia. }
  rewrite length_combine in L. lia.
Qed.

(** Without a state, the first layer stops the loop. *)
Lemma layers_unallocated (self : RNNCore B) (draw : Rng)
      (zs : list (Rnn B * RNNDropout.RNNDropout)) (l : nat) (x : Tensor)
      (acc : Acc B) :
  hidden self = None -> zs <> [] ->
  snd (layers B self draw l zs x acc) = Raise (AttributeError "hidden").
Proof.
  intros Hh Hz. destruct zs as [|[rnn hid_dp] zs]; [congruence|].
  cbn [layers]. now rewrite Hh.
Qed.

Lemma adopt_width_frame (self : RNNCore B) (width : nat) :
  let s := adopt_width B self width in
  n_layers s = n_layers self
  /\ length (rnns s) = length (rnns self)
  /\ hidden_dps s = hidden_dps self.
Proof.
  unfold adopt_width. destruct (negb (width =? bs self)%nat); simpl; auto.
  now rewrite length_map.
Qed.

(** The layers that the loop hands back are the ones it was given, one for
    one. *)
Lemma layers_called (self : RNNCore B) (draw : Rng)
      (zs : list (Rnn B * RNNDropout.RNNDropout)) :
  forall (l : nat) (x : Tensor) (acc : Acc B),
    length (fst (layers B self draw l zs x acc))
    = (length (called acc) + length zs)%nat.
Proof.
  induction zs as [|[rnn hid_dp] zs IH]; intros l x acc.
  - simpl. lia.
  - layers_step self l; cbn [fst];
      rewrite ?length_app; simpl; rewrite ?length_map; try lia.
    destruct (if not_last l (n_layers self)
              then RNNDropout.forward draw pos1 hid_dp raw
              else Ok (raw, pos1)) as [[out pos2]|e2].
    + rewrite IH. cbn [called]. rewrite length_app. simpl. lia.
    + cbn [fst]. rewrite length_app. simpl. rewrite length_map. lia.
Qed.

Lemma reset_wf (self : RNNCore B) : wf self -> wf (reset B self).
Proof.
  intros (Wr & Wd). split; simpl; [now rewrite length_map | exact Wd].
Qed.

(** [forward] keeps one layer and one hidden dropout per layer. *)
Lemma forward_wf (grad_enabled : bool) (draw : Rng) (pos : nat)
      (self : RNNCore B) (input : LongTensor) :
  wf self -> wf (fst (forward B grad_enabled draw pos self input)).
Proof.
  intros W. unfold forward.
  destruct (l_shape input) as [|sl [|width [|]]]; try exact W.
  assert (W0 : wf (adopt_width B self width)).
  { unfold adopt_width. destruct (negb (width =? bs self)%nat); [|exact W].
    apply reset_wf. exact W. }
  set (s0 := adopt_width B self width) in *. destruct W0 as (Wr & Wd).
  unfold run.
  pose proof (embed_input_frame B grad_enabled draw pos s0 input) as F.
  destruct (embed_input B grad_enabled draw pos s0 input)
    as [s [[x p2]|e]]; simpl in F; destruct F as (_ & _ & Fr & Fd & Fn & _);
    [|split; cbn [fst]; congruence].
  match goal with
  | |- context [layers B s draw 0 ?zs x ?acc] =>
      pose proof (layers_called s draw zs 0 x acc) as L;
      destruct (layers B s draw 0 zs x acc) as [rs [acc'|e]]
  end; cbn [fst called] in L |- *;
    rewrite length_combine, Fr, Fd in L; simpl in L;
    (split; simpl; [|congruence]);
    unfold unzipped; rewrite length_app, length_skipn, L, Fr, Fd, Fn; lia.
Qed.

(** C9: the lists that a forward call returns have one entry per layer, and
    the last dropout-adjusted activation is the last raw activation, so
    that [self.out[-1]] and [self.raw_out[-1]] of the training hook are the
    same tensor. *)
Theorem final_output_is_raw
        (grad_enabled : bool) (draw : Rng) (pos : nat)
        (self self' : RNNCore B) (input : LongTensor)
        (raws outs : list Tensor) :
  wf self ->
  forward B grad_enabled draw pos self input = (self', Ok (raws, outs)) ->
  RNNTrainer.last_item outs = RNNTrainer.last_item raws
  /\ length raws = n_layers self /\ length outs = n_layers self
  /\ RNNTrainer.final_of "out" (Some outs)
     = RNNTrainer.final_of "raw_out" (Some raws).
Proof.
  intros (Wr & Wd). unfold forward.
  destruct (l_shape input) as [|sl [|width [|]]]; try discriminate.
  destruct (adopt_width_frame self width) as (An & Ar & Ad).
  set (s0 := adopt_width B self width) in *. unfold run.
  pose proof (embed_input_frame B grad_enabled draw pos s0 input) as F.
  destruct (embed_input B grad_enabled draw pos s0 input)
    as [s [[x p2]|e]]; [|discriminate].
  simpl in F. destruct F as (_ & _ & Fr & Fd & Fn & _).
  destruct (layers B s draw 0 _ x _) as [rs [acc|e]] eqn:Hl;
    [|discriminate].
  intros [= _ <- <-].
  apply layers_last in Hl.
  - destruct Hl as (L1 & L2 & Hlast). simpl in L1, L2.
    rewrite length_combine, Fr, Fd, Ar, Ad, Wr, Wd, Nat.min_id in L1, L2.
    assert (Hsame : RNNTrainer.last_item (outputs acc)
                    = RNNTrainer.last_item (raw_outputs acc)).
    { destruct Hlast as [(_ & ->)|(t & -> & ->)]; reflexivity. }
    repeat split; try assumption.
    unfold RNNTrainer.final_of. rewrite Hsame.
    now destruct (RNNTrainer.last_item (raw_outputs acc)).
  - rewrite length_combine, Fr, Fd, Fn, Ar, Ad, An, Wr, Wd, Nat.min_id.
    reflexivity.
Qed.

End CoreLayers.

(** ** The first forward call *)

Section FirstForward.
Import Torch RNNCore.
Variable B : Backend.

(** What [__init__] leaves. *)
Lemma init_fresh (init : nat -> Q)
      (vocab_sz emb_sz n_hid n_layers : nat) (pad_token : option Z)
      (bidir : bool) (hidden_p input_p embed_p weight_p : Q) (qrnn : bool)
      (self : RNNCore B) :
  __init__ B init vocab_sz emb_sz n_hid n_layers pad_token bidir
           hidden_p input_p embed_p weight_p qrnn = Ok self ->
  bs self = 1%nat /\ hidden self = None
  /\ RNNCore.n_layers self = n_layers /\ wf self.
Proof.
  unfold __init__.
  destruct (nn_Embedding B vocab_sz emb_sz pad_token) as [pad|e];
    [|discriminate].
  cbn [bind EmbeddingDropout.__init__ RNNDropout.__init__].
  rewrite hidden_dps_built.
  assert (Hwrap : forall rs : list (Layer B),
             length (if negb (Qeq_bool weight_p 0)
                     then map (fun r => WeightDropout B r weight_p) rs
                     else map (bare B) rs) = length rs)
    by (intros rs; destruct (negb (Qeq_bool weight_p 0));
        apply length_map).
  assert (Hrange : length (range n_layers) = n_layers)
    by apply length_seq.
  destruct qrnn.
  - destruct (qrnn_importable B); [|discriminate].
    destruct (comprehension _ (range n_layers)) as [rs|e] eqn:Hrs;
      [|discriminate].
    apply comprehension_length in Hrs.
    cbn [bind]. intros [= <-]. unfold wf. simpl.
    rewrite Hwrap, length_map. repeat split; congruence.
  - destruct (comprehension _ (range n_layers)) as [rs|e] eqn:Hrs;
      [|discriminate].
    apply comprehension_length in Hrs.
    cbn [bind]. intros [= <-]. unfold wf. simpl.
    rewrite Hwrap, length_map. repeat split; congruence.
Qed.

(** C10, as the code has it: a new encoder stores [bs = 1] and has no
    hidden state.  Its first forward call on an input of another width
    allocates the state of every layer before any is read; it returns,
    unless the lookup or the input dropout raises, or a layer that the
    loop reaches, having found its state, raises in its own call or in
    the call of its hidden dropout.  On an input of width 1 it fails when
    the encoder has at least one layer, for the missing attribute once
    the lookup is through; with no layer nothing reads the state and the
    call returns two empty lists. *)
Theorem first_forward_and_the_hidden_state
        (init : nat -> Q)
        (vocab_sz emb_sz n_hid n_layers : nat) (pad_token : option Z)
        (bidir : bool) (hidden_p input_p embed_p weight_p : Q) (qrnn : bool)
        (self : RNNCore B)
        (grad_enabled : bool) (draw : Rng) (pos : nat)
        (input : LongTensor) (sl width : nat) :
  __init__ B init vocab_sz emb_sz n_hid n_layers pad_token bidir
           hidden_p input_p embed_p weight_p qrnn = Ok self ->
  l_shape input = [sl; width] ->
  let out := forward B grad_enabled draw pos self input in
  let fresh := adopt_width B self width in
  bs self = 1%nat /\ hidden self = None
  /\ (width <> 1%nat ->
      out = run B grad_enabled draw pos fresh input
      /\ (exists hs, hidden fresh = Some hs /\ zero_state self width hs)
      /\ (succeeds (snd out)
          \/ exists e,
               snd out = Raise e
               /\ (snd (embed_input B grad_enabled draw pos fresh input)
                   = Raise e
                   \/ exists s x p2,
                        embed_input B grad_enabled draw pos fresh input
                        = (s, Ok (x, p2))
                        /\ layer_raised B s draw x p2 e)))
  /\ (width = 1%nat -> (1 <= n_layers)%nat ->
      fails (snd out)
      /\ (succeeds (snd (embed_input B grad_enabled draw pos self input)) ->
          snd out = Raise (AttributeError "hidden")))
  /\ (width = 1%nat -> n_layers = 0%nat ->
      succeeds (snd (embed_input B grad_enabled draw pos self input)) ->
      snd out = Ok ([], [])).
Proof.
  intros Hinit Hshape out fresh.
  apply init_fresh in Hinit as (Hbs & Hhid & Hn & Wr & Wd).
  assert (Hout : out = run B grad_enabled draw pos fresh input)
    by (unfold out, forward; now rewrite Hshape).
  split; [exact Hbs|]. split; [exact Hhid|]. split; [|split].
  - intros Hw. split; [exact Hout|].
    destruct (adopt_width_resets B self width) as (hs & Hh & Hz);
      [congruence|].
    split; [now exists hs|].
    rewrite Hout. unfold run.
    pose proof (embed_input_frame B grad_enabled draw pos fresh input) as F.
    destruct (embed_input B grad_enabled draw pos fresh input)
      as [s [[x p2]|e0]]; simpl in F |- *;
      [|right; exists e0; split; [reflexivity | left; reflexivity]].
    destruct F as (_ & Fh & Fr & Fd & _).
    destruct (layers B s draw 0 _ x _) as [rs [acc|e1]] eqn:Hl;
      simpl; [left; eexists; reflexivity|].
    right. exists e1. split; [reflexivity|]. right.
    exists s, x, p2. split; [reflexivity|].
    assert (Hs : hidden s = Some hs) by (rewrite Fh; exact Hh).
    assert (Hlen : (0 + length (combine (rnns s) (hidden_dps s))
                    <= length hs)%nat).
    { destruct (adopt_width_frame B self width) as (_ & Ar & Ad).
      fold fresh in Ar, Ad. destruct Hz as (Hlen & _).
      rewrite length_combine, Fr, Fd, Ar, Ad, Wr, Wd, Hlen. simpl. lia. }
    pose proof (fun Hx => layers_raise B s draw _ hs x Hs 0 x _ rs e1
                                       Hx Hlen Hl) as R.
    destruct (R eq_refl)
      as (pre & rnn & hid_dp & post & rs1 & acc1 & h & Ezs & Hpre & Hnth
          & Hor).
    exists pre, rnn, hid_dp, post, rs1, acc1, hs, h.
    split; [exact Ezs|]. split; [exact Hpre|]. split; [exact Hs|].
    split; [exact Hnth | exact Hor].
  - intros -> Hpos.
    assert (Efresh : fresh = self).
    { unfold fresh, adopt_width. now rewrite Hbs. }
    rewrite Efresh in Hout.
    assert (Hcase : (exists e, snd (embed_input B grad_enabled draw pos
                                                self input) = Raise e
                               /\ snd out = Raise e)
                    \/ (succeeds (snd (embed_input B grad_enabled draw pos
                                                   self input))
                        /\ snd out = Raise (AttributeError "hidden"))).
    { rewrite Hout. unfold run.
      pose proof (embed_input_frame B grad_enabled draw pos self input) as F.
      destruct (embed_input B grad_enabled draw pos self input)
        as [s [[x p2]|e0]]; simpl in F |- *; [|left; eauto].
      destruct F as (_ & Fh & Fr & Fd & _). right.
      split; [eexists; reflexivity|].
      match goal with
      | |- context [layers B s draw 0 ?zs x ?acc] =>
          pose proof (layers_unallocated B s draw zs 0 x acc) as U;
          destruct (layers B s draw 0 zs x acc) as [rs [acc'|e1]]
      end; simpl in U |- *.
      - assert (Habs : @Ok (Acc B) acc' = Raise (AttributeError "hidden")).
        { apply U; [congruence|]. rewrite Fr, Fd.
          destruct (rnns self); destruct (hidden_dps self);
            simpl in *; try lia; discriminate. }
        discriminate.
      - assert (E1 : @Raise (Acc B) e1 = Raise (AttributeError "hidden")).
        { apply U; [congruence|]. rewrite Fr, Fd.
          destruct (rnns self); destruct (hidden_dps self);
            simpl in *; try lia; discriminate. }
        injection E1 as ->. reflexivity. }
    destruct Hcase as [(e & He & Ho)|(Hs & Ho)].
    + split; [now exists e|]. intros (a & Ha). congruence.
    + split; [eexists; exact Ho|]. intros _. exact Ho.
  - intros -> Hzero (a & Ha).
    assert (Efresh : fresh = self).
    { unfold fresh, adopt_width. now rewrite Hbs. }
    rewrite Hout, Efresh. unfold run.
    pose proof (embed_input_frame B grad_enabled draw pos self input) as F.
    destruct (embed_input B grad_enabled draw pos self input)
      as [s [[x p2]|e0]]; simpl in F, Ha |- *; [|discriminate].
    destruct F as (_ & _ & Fr & _). rewrite Fr.
    destruct (rnns self); [reflexivity|]. simpl in Wr. lia.
Qed.

End FirstForward.

(** ** The encoder on the small backend *)

Section CoreExamples.
Import Torch RNNCore Demo.

Lemma width_change_resets_hidden_witness :
  l_shape (ids 1 6 0) = [1%nat; 6%nat]
  /\ 6%nat <> bs after_width_4
  /\ let fresh := adopt_width backend after_width_4 6 in
     forward backend false no_drop 0 after_width_4 (ids 1 6 0)
     = run backend false no_drop 0 fresh (ids 1 6 0)
     /\ bs fresh = 6%nat
     /\ (exists hs, hidden fresh = Some hs /\ zero_state after_width_4 6 hs)
     /\ bs (fst (forward backend false no_drop 0 after_width_4 (ids 1 6 0)))
        = 6%nat.
Proof.
  split; [reflexivity|]. split; [vm_compute; discriminate|].
  apply (width_change_resets_hidden backend false no_drop 0 after_width_4
           (ids 1 6 0) 1 6); [reflexivity | vm_compute; discriminate].
Defined.

Lemma final_output_is_raw_witness :
  wf two_layers
  /\ exists self' raws outs,
       forward backend false no_drop 0 two_layers (ids 1 4 0)
       = (self', Ok (raws, outs))
       /\ RNNTrainer.last_item outs = RNNTrainer.last_item raws.
Proof.
  assert (W : wf two_layers) by (split; reflexivity).
  split; [exact W|].
  destruct (forward backend false no_drop 0 two_layers (ids 1 4 0))
    as [self' [[raws outs]|e]] eqn:E.
  - exists self', raws, outs. split; [reflexivity|].
    apply (final_output_is_raw backend false no_drop 0 two_layers self'
             (ids 1 4 0) raws outs W E).
  - vm_compute in E. discriminate E.
Defined.

(** The first layer's dropout-adjusted output is not its raw output: the
    equality of C9 is one of the last entries only. *)
Lemma first_output_is_dropped :
  exists self' raw0 raw1 out0 out1,
    forward backend false no_drop 0 two_layers (ids 1 4 0)
    = (self', Ok ([raw0; raw1], [out0; out1]))
    /\ out0 <> raw0 /\ out1 = raw1.
Proof.
  do 5 eexists. split; [vm_compute; reflexivity|].
  split; [discriminate|reflexivity].
Qed.

Lemma first_forward_and_the_hidden_state_witness :
  construct 2 = Ok two_layers
  /\ (forward backend false no_drop 0 two_layers (ids 1 2 0)
      = run backend false no_drop 0 (adopt_width backend two_layers 2)
            (ids 1 2 0)
      /\ (exists hs, hidden (adopt_width backend two_layers 2) = Some hs
                     /\ zero_state two_layers 2 hs)
      /\ succeeds (snd (forward backend false no_drop 0 two_layers
                                (ids 1 2 0))))
  /\ fails (snd (forward backend false no_drop 0 two_layers (ids 1 1 0))).
Proof.
  assert (C : construct 2 = Ok two_layers) by (vm_compute; reflexivity).
  split; [exact C|]. split.
  - destruct (first_forward_and_the_hidden_state backend (init_rows 2)
                3 2 4 2 (Some 1) false (1 # 5) (3 # 5) (1 # 10) (1 # 2) false
                two_layers false no_drop 0 (ids 1 2 0) 1 2 C eq_refl)
      as (_ & _ & H & _).
    destruct (H ltac:(discriminate)) as (Hrun & Hzero & [Hok|(e & He & _)]).
    + split; [exact Hrun|]. split; [exact Hzero | exact Hok].
    + vm_compute in He. discriminate He.
  - destruct (first_forward_and_the_hidden_state backend (init_rows 2)
                3 2 4 2 (Some 1) false (1 # 5) (3 # 5) (1 # 10) (1 # 2) false
                two_layers false no_drop 0 (ids 1 1 0) 1 1 C eq_refl)
      as (_ & _ & _ & H & _).
    destruct (H eq_refl) as (F & _); [lia | exact F].
Defined.

(** Neither half of the claim holds as it stands.  An encoder built with
    [n_layers = 0]: its first forward call on an input of width 1, without
    a reset before, returns two empty lists.  The two-layer encoder over a
    table of three rows: its first forward call on an input of width 2
    that holds the id 7 raises in the lookup, after the width change has
    allocated a state for both layers. *)
Lemma first_forward_not_decided_by_width :
  (construct 0 = Ok no_layers
   /\ bs no_layers = 1%nat /\ hidden no_layers = None
   /\ l_shape (ids 1 1 0) = [1%nat; 1%nat]
   /\ snd (forward backend false no_drop 0 no_layers (ids 1 1 0))
      = Ok ([], [])
   /\ ~ fails (snd (forward backend false no_drop 0 no_layers
                            (ids 1 1 0))))
  /\ (construct 2 = Ok two_layers
      /\ bs two_layers = 1%nat /\ hidden two_layers = None
      /\ l_shape (ids 1 2 7) = [1%nat; 2%nat]
      /\ (exists hs,
            hidden (fst (forward backend false no_drop 0 two_layers
                                 (ids 1 2 7))) = Some hs
            /\ length hs = 2%nat)
      /\ snd (embed_input backend false no_drop 0
                          (adopt_width backend two_layers 2) (ids 1 2 7))
         = Raise IndexError
      /\ snd (forward backend false no_drop 0 two_layers (ids 1 2 7))
         = Raise IndexError
      /\ fails (snd (forward backend false no_drop 0 two_layers
                             (ids 1 2 7)))
      /\ ~ succeeds (snd (forward backend false no_drop 0 two_layers
                                  (ids 1 2 7)))).
Proof.
  split.
  - split; [vm_compute; reflexivity|].
    split; [reflexivity|]. split; [reflexivity|]. split; [reflexivity|].
    split; [vm_compute; reflexivity|].
    intros (e & He). vm_compute in He. discriminate He.
  - split; [vm_compute; reflexivity|].
    split; [reflexivity|]. split; [reflexivity|]. split; [reflexivity|].
    split; [eexists; split; vm_compute; reflexivity|].
    split; [vm_compute; reflexivity|].
    split; [vm_compute; reflexivity|].
    split; [exists IndexError; vm_compute; reflexivity|].
    intros (a & Ha). vm_compute in Ha. discriminate Ha.
Qed.

End CoreExamples.

(** ** The learning rate under the training hook *)

Section LearningRate.
Import Torch RNNTrainer.

(** One call multiplies the learning rate of the optimizer, where it is,
    by the length of the window over [bptt]. *)
Lemma hook_scales_in_place (self : RNNTrainer) (loss : Q)
      (input : LongTensor) (size0 : nat) (rest : list nat) :
  adjust self = true -> bptt self <> 0 ->
  l_shape input = size0 :: rest ->
  let self' := fst (on_backward_begin self loss input) in
  lr (opt (learn self'))
  = (lr (opt (learn self))
     * (inject_Z (Z.of_nat size0) / inject_Z (bptt self)))%Q
  /\ adjust self' = true /\ bptt self' = bptt self.
Proof.
  intros Ha Hb Hs. unfold on_backward_begin. rewrite Ha, Hs.
  replace (bptt self =? 0) with false by (symmetry; now apply Z.eqb_neq).
  simpl. auto.
Qed.

(** Nothing in the hook restores the rate: after two windows it carries
    both factors. *)
Lemma hook_compounds (self : RNNTrainer) (loss : Q)
      (x1 x2 : LongTensor) (a b : nat) (r1 r2 : list nat) :
  adjust self = true -> bptt self <> 0 ->
  l_shape x1 = a :: r1 -> l_shape x2 = b :: r2 ->
  lr (opt (learn (backward_begins self loss [x1; x2])))
  = (lr (opt (learn self))
     * (inject_Z (Z.of_nat a) / inject_Z (bptt self))
     * (inject_Z (Z.of_nat b) / inject_Z (bptt self)))%Q.
Proof.
  intros Ha Hb H1 H2. cbn [backward_begins].
  destruct (hook_scales_in_place self loss x1 a r1 Ha Hb H1)
    as (E1 & Ha1 & Hb1).
  destruct (hook_scales_in_place _ loss x2 b r2 Ha1
              ltac:(rewrite Hb1; exact Hb) H2) as (E2 & _ & _).
  rewrite E2, E1, Hb1. reflexivity.
Qed.

(** C5 on the code: with a configured rate of 1 and [bptt = 20], the hook
    called for a window of 45 steps and then for a window of 20 steps
    leaves the rate at 9/4 for the first and still at 9/4 for the second,
    whose own ratio is 1: the factor of the first window is carried over. *)
Theorem lr_factor_carries_over :
  let w45 := Demo.ids 45 10 0 in
  let w20 := Demo.ids 20 10 0 in
  let t1 := fst (on_backward_begin Demo.trainer 0 w45) in
  let t2 := fst (on_backward_begin t1 0 w20) in
  (lr (opt (learn Demo.trainer)) == 1)%Q
  /\ (lr (opt (learn t1)) == 1 * (45 / 20))%Q
  /\ (lr (opt (learn t2)) == 9 # 4)%Q
  /\ ~ (lr (opt (learn t2)) == 1 * (20 / 20))%Q
  /\ t2 = backward_begins Demo.trainer 0 [w45; w20].
Proof.
  repeat split; try reflexivity. vm_compute. discriminate.
Qed.

End LearningRate.

(** * Further properties *)

(** ** The loader: direction, coverage, short matrices *)

Section LoaderMore.
Import Loader.

(** Stream [r] of the matrix that [batchify] builds forwards. *)
Lemma batch_stream (nums : list Z) (bs : Z) (r : nat) :
  1 <= bs -> (r < Z.to_nat bs)%nat ->
  let nb := Z.to_nat (Z.of_nat (length nums) / bs) in
  stream r (transpose nb (chunks (Z.to_nat bs) nb
                                 (firstn (nb * Z.to_nat bs) nums)))
  = firstn nb (skipn (r * nb) nums).
Proof.
  intros Hbs Hr nb. set (rows := Z.to_nat bs) in *.
  assert (Hfit : (nb * rows <= length nums)%nat).
  { assert (0 <= Z.of_nat (length nums) / bs) by (apply Z.div_pos; lia).
    assert (bs * (Z.of_nat (length nums) / bs) <= Z.of_nat (length nums))
      by (apply Z.mul_div_le; lia).
    subst nb rows. nia. }
  assert (Hin : (r * nb + nb <= nb * rows)%nat) by nia.
  unfold stream. rewrite transpose_column.
  - rewrite chunks_nth by exact Hr.
    rewrite skipn_firstn_comm, firstn_firstn. f_equal. lia.
  - now rewrite chunks_length.
  - rewrite chunks_nth by exact Hr. apply chunk_full.
    rewrite length_firstn. lia.
Qed.

(** X1: with [backwards = True] the batch matrix is the forward one with
    its rows in reverse order, so that stream [r] read in time order is the
    slice [r * nb .. (r + 1) * nb) of the token stream read backwards. *)
Theorem batchify_backwards_reverses (nums : list Z) (bs : Z) :
  1 <= bs ->
  let nb := Z.to_nat (Z.of_nat (length nums) / bs) in
  exists m,
    batchify bs false nums = Ok m
    /\ batchify bs true nums = Ok (rev m)
    /\ Z.of_nat (length (rev m)) = Z.of_nat (length nums) / bs
    /\ forall r, (r < Z.to_nat bs)%nat ->
         stream r (rev m) = rev (firstn nb (skipn (r * nb) nums)).
Proof.
  intros Hbs nb. eexists.
  split; [apply (batchify_eq nums bs false Hbs)|].
  split; [apply (batchify_eq nums bs true Hbs)|].
  fold nb. split.
  - rewrite length_rev, transpose_length.
    assert (0 <= Z.of_nat (length nums) / bs) by (apply Z.div_pos; lia).
    subst nb. lia.
  - intros r Hr. unfold stream at 1. rewrite map_rev. f_equal.
    apply (batch_stream nums bs r Hbs Hr).
Qed.

Lemma batchify_backwards_reverses_witness :
  1 <= 2
  /\ exists m, batchify 2 true small_stream = Ok (rev m)
               /\ stream 1 (rev m) = [11; 10; 9; 8; 7; 6].
Proof.
  split; [lia|].
  destruct (batchify_backwards_reverses small_stream 2)
    as (m & _ & E & _ & Hs); [lia|].
  exists m. split; [exact E|]. apply (Hs 1%nat). vm_compute. lia.
Defined.

Ltac loop_case self :=
  cbn [while_loop];
  destruct (Z.ltb_spec (i self) (n self - 1)) as [Hcur|Hcur];
  [ destruct (len self) as [c|e] eqn:Hlen;
    [ destruct (Z.ltb_spec (iter self) c) as [Hit'|Hit'];
      [ destruct (first self && (i self =? 0)) eqn:Hfirst | ]
    | ]
  | ].

Lemma blocks_join {A} (d : list A) (c a b : nat) :
  firstn a (skipn c d) ++ firstn b (skipn (c + a) d)
  = firstn (a + b) (skipn c d).
Proof.
  rewrite firstn_plus, skipn_skipn. do 3 f_equal. lia.
Qed.

(** The inputs, and the targets, of the windows that the loop cuts from
    cursor [i] on are consecutive blocks of rows. *)
Lemma loop_cover (fuel : nat) (draws : nat -> Z) (k : nat)
      (self : LanguageModelLoader) :
  0 <= i self -> 0 <= iter self ->
  n self = Z.of_nat (length (data self)) ->
  let r := while_loop fuel draws k self in
  let c := Z.to_nat (i self) in
  let m := Z.to_nat (Z.min (i (final r)) (n self - 1)) in
  i self <= i (final r)
  /\ concat (map (fun y => fst (y_res y)) (yields r))
     = firstn (m - c) (skipn c (data self))
  /\ concat (map (fun y => snd (y_res y)) (yields r))
     = concat (firstn (m - c) (skipn (S c) (data self))).
Proof.
  revert k self; induction fuel as [|fuel IH]; intros k self Hi Hit Hn.
  - simpl. replace (_ - _)%nat with O by lia. simpl. auto with zarith.
  - assert (Hstop :
      i self <= i self
      /\ concat (map (fun y : Yield => fst (y_res y)) [])
         = firstn (Z.to_nat (Z.min (i self) (n self - 1))
                   - Z.to_nat (i self))
                  (skipn (Z.to_nat (i self)) (data self))
      /\ concat (map (fun y : Yield => snd (y_res y)) [])
         = concat (firstn (Z.to_nat (Z.min (i self) (n self - 1))
                           - Z.to_nat (i self))
                          (skipn (S (Z.to_nat (i self))) (data self)))).
    { replace (_ - _)%nat with O by lia. simpl. auto with zarith. }
    assert (Hyield : forall s k' f',
               1 <= s ->
               i self < n self - 1 ->
               let self' := {| bs := bs self; bptt := bptt self;
                               backwards := backwards self;
                               data := data self; first := f';
                               i := i self + s; iter := iter self + 1;
                               n := n self |} in
               let r := emit {| y_i := i self; y_seq_len := s;
                                y_res := get_batch self (i self) s |}
                             (while_loop fuel draws k' self') in
               let c := Z.to_nat (i self) in
               let m := Z.to_nat (Z.min (i (final r)) (n self - 1)) in
               i self <= i (final r)
               /\ concat (map (fun y => fst (y_res y)) (yields r))
                  = firstn (m - c) (skipn c (data self))
               /\ concat (map (fun y => snd (y_res y)) (yields r))
                  = concat (firstn (m - c) (skipn (S c) (data self)))).
    { intros s k' f' Hs Hcur self' r c m.
      destruct (IH k' self' ltac:(simpl; lia) ltac:(simpl; lia) Hn)
        as (Hmono & Hin & Htg).
      subst self'. cbn [i n data] in Hmono, Hin, Htg.
      subst m r. cbn [emit yields final]. rewrite !map_cons, !concat_cons.
      cbn [y_res]. rewrite get_batch_inside by lia. cbn [fst snd].
      rewrite Hin, Htg, <- concat_app.
      match goal with
      | |- context [i (final ?w)] => set (fin := i (final w)) in *
      end.
      rewrite <- Hn.
      split; [lia|].
      destruct (Z.le_gt_cases s (n self - 1 - i self)) as [Hfit|Hcut].
      - rewrite Z.min_l by lia.
        replace (Z.to_nat (i self + s)) with (c + Z.to_nat s)%nat
          by (subst c; lia).
        replace (S (c + Z.to_nat s)) with (S c + Z.to_nat s)%nat by lia.
        rewrite !blocks_join.
        replace (Z.to_nat s
                 + (Z.to_nat (Z.min fin (n self - 1)) - (c + Z.to_nat s)))%nat
          with (Z.to_nat (Z.min fin (n self - 1)) - c)%nat by (subst c; lia).
        split; reflexivity.
      - rewrite Z.min_r by lia.
        replace (Z.to_nat (Z.min fin (n self - 1)) - Z.to_nat (i self + s))%nat
          with O by lia.
        simpl firstn. rewrite !app_nil_r.
        replace (Z.to_nat (Z.min fin (n self - 1)) - c)%nat
          with (Z.to_nat (n self - 1 - i self)) by (subst c; lia).
        split; reflexivity. }
    loop_case self.
    + apply len_ok in Hlen as (Hb & -> & _).
      assert (1 <= bptt self) by (apply (cap_sign (n self - 1)); lia).
      apply Hyield; lia.
    + apply Hyield; lia.
    + exact Hstop.
    + exact Hstop.
    + exact Hstop.
Qed.

(** X2: the windows of one traversal tile the batch matrix.  Their inputs
    put end to end are its rows [0 .. m), their targets put end to end are
    its rows [1 .. m] flattened, where [m] is the final cursor or [n - 1],
    whichever is smaller: no row is skipped and none comes twice. *)
Theorem windows_tile_the_matrix
        (self : LanguageModelLoader) (draws : nat -> Z) :
  n self = Z.of_nat (length (data self)) ->
  let r := __iter__ self draws in
  let m := Z.to_nat (Z.min (i (final r)) (n self - 1)) in
  concat (map fst (windows r)) = firstn m (data self)
  /\ concat (map snd (windows r)) = concat (firstn m (skipn 1 (data self))).
Proof.
  intros Hn r m. unfold windows. rewrite !map_map.
  destruct (loop_cover (S (cap (restart self))) draws 0 (restart self))
    as (_ & Hin & Htg); try (simpl; lia); try exact Hn.
  fold (__iter__ self draws) in Hin, Htg. fold r in Hin, Htg.
  cbn [restart i n data] in Hin, Htg. fold m in Hin, Htg.
  change (Z.to_nat 0) with O in Hin, Htg.
  rewrite Nat.sub_0_r in Hin, Htg. split; assumption.
Qed.

Lemma windows_tile_the_matrix_witness :
  n small = Z.of_nat (length (data small))
  /\ concat (map fst (windows (__iter__ small (fun _ => 5))))
     = firstn 5 (data small)
  /\ concat (map snd (windows (__iter__ small (fun _ => 5))))
     = concat (firstn 5 (skipn 1 (data small))).
Proof.
  split; [reflexivity|].
  apply (windows_tile_the_matrix small (fun _ => 5)). reflexivity.
Defined.

(** X3: a batch matrix with fewer than [bptt + 1] rows gives an empty
    traversal: no window, no exception, the cursor left at zero. *)
Theorem short_matrix_yields_nothing
        (self : LanguageModelLoader) (draws : nat -> Z) :
  1 <= bptt self -> n self - 1 < bptt self ->
  let r := __iter__ self draws in
  windows r = [] /\ stop r = Exhausted /\ i (final r) = 0.
Proof.
  intros Hb Hn r. subst r. unfold __iter__, windows.
  cbn [while_loop restart i n iter].
  destruct (Z.ltb_spec 0 (n self - 1)) as [Hpos|Hneg]; [|auto].
  rewrite len_positive by (simpl; lia). cbn [restart n bptt].
  rewrite Z.div_small by lia. simpl. auto.
Qed.

Lemma short_matrix_yields_nothing_witness :
  1 <= 7 /\ n small - 1 < 7
  /\ windows (__iter__ (mk 2 7 false (data small) true 0 0 6) (fun _ => 5))
     = [].
Proof.
  split; [lia|]. split; [vm_compute; reflexivity|].
  destruct (short_matrix_yields_nothing
              (mk 2 7 false (data small) true 0 0 6) (fun _ => 5))
    as (H & _); [simpl; lia | vm_compute; reflexivity | exact H].
Defined.

(** X4: [bptt] is not checked when the loader is built.  With [bptt = 0]
    and a matrix of at least two rows the first pull raises
    [ZeroDivisionError]; with a negative [bptt] it raises [ValueError],
    from [len] on a negative [__len__]; no window comes out. *)
Theorem nonpositive_bptt_raises
        (self : LanguageModelLoader) (draws : nat -> Z) :
  bptt self <= 0 -> 2 <= n self ->
  let r := __iter__ self draws in
  windows r = []
  /\ stop r = Raised (if bptt self =? 0 then ZeroDivisionError
                      else ValueError).
Proof.
  intros Hb Hn r. subst r. unfold __iter__, windows.
  cbn [while_loop restart i n iter].
  replace (0 <? n self - 1) with true by (symmetry; apply Z.ltb_lt; lia).
  unfold len, __len__. cbn [restart bptt n].
  destruct (Z.eqb_spec (bptt self) 0) as [E|E]; [simpl; auto|].
  cbn [bind].
  assert (Hneg : (n self - 1) / bptt self < 0).
  { pose proof (Z.div_mod (n self - 1) (bptt self) E) as Hdm.
    pose proof (Z.mod_neg_bound (n self - 1) (bptt self) ltac:(lia)) as Hm.
    nia. }
  replace ((n self - 1) / bptt self <? 0) with true
    by (symmetry; apply Z.ltb_lt; exact Hneg).
  simpl. auto.
Qed.

Lemma nonpositive_bptt_raises_witness :
  0 <= 0 /\ 2 <= 6
  /\ stop (__iter__ (mk 2 0 false (data small) true 0 0 6) (fun _ => 5))
     = Raised ZeroDivisionError.
Proof.
  split; [lia|]. split; [lia|].
  destruct (nonpositive_bptt_raises
              (mk 2 0 false (data small) true 0 0 6) (fun _ => 5))
    as (_ & H); [simpl; lia | simpl; lia | exact H].
Defined.

End LoaderMore.

(** ** Dropout masks *)

Section Blocks.
Context {A : Type}.

Lemma chunks_all_full (rows cols : nat) (l : list A) (b : list A) :
  (rows * cols <= length l)%nat -> In b (chunks rows cols l) ->
  length b = cols.
Proof.
  revert l; induction rows as [|r IH]; intros l Hl; simpl; [tauto|].
  intros [<-|Hb].
  - rewrite length_firstn. lia.
  - apply (IH (skipn cols l)); [rewrite length_skipn; lia | exact Hb].
Qed.

(** Block [k] of a concatenation of blocks of one length. *)
Lemma concat_block (c : nat) (bs : list (list A)) (k : nat) :
  (forall b, In b bs -> length b = c) -> (k < length bs)%nat ->
  firstn c (skipn (k * c) (concat bs)) = nth k bs [].
Proof.
  revert k; induction bs as [|b bs IH]; intros k Hc Hk; simpl in Hk; [lia|].
  assert (Hb : length b = c) by (apply Hc; now left).
  destruct k as [|k]; simpl.
  - rewrite firstn_app, Hb, Nat.sub_diag. simpl.
    rewrite app_nil_r. apply firstn_all2. lia.
  - rewrite skipn_app, Hb.
    replace (c + k * c - c)%nat with (k * c)%nat by lia.
    rewrite (skipn_all2 b) by lia. simpl.
    apply IH; [intros b' Hb'; apply Hc; now right | lia].
Qed.

Lemma concat_block_nth (c : nat) (bs : list (list A)) (k j : nat) (d : A) :
  (forall b, In b bs -> length b = c) -> (k < length bs)%nat ->
  (j < c)%nat ->
  nth (k * c + j) (concat bs) d = nth j (nth k bs []) d.
Proof.
  intros Hc Hk Hj. rewrite <- (concat_block c bs k Hc Hk).
  rewrite nth_firstn.
  replace (j <? c)%nat with true by (symmetry; now apply Nat.ltb_lt).
  now rewrite nth_skipn.
Qed.

Lemma concat_uniform_length (c : nat) (bs : list (list A)) :
  (forall b, In b bs -> length b = c) ->
  length (concat bs) = (length bs * c)%nat.
Proof.
  induction bs as [|b bs IH]; intros Hc; simpl; [reflexivity|].
  rewrite length_app, IH by (intros b' Hb'; apply Hc; now right).
  rewrite (Hc b) by now left. reflexivity.
Qed.

End Blocks.

Section Masks.
Import Torch.

Lemma zip_mul_length (xs ms : list Q) :
  length (zip_mul xs ms) = Nat.min (length xs) (length ms).
Proof.
  revert ms; induction xs as [|x xs IH]; intros [|m ms]; simpl;
    try reflexivity.
  now rewrite IH.
Qed.

Lemma zip_mul_nth (xs ms : list Q) (j : nat) :
  (j < length xs)%nat -> (j < length ms)%nat ->
  nth j (zip_mul xs ms) 0%Q = (nth j xs 0 * nth j ms 0)%Q.
Proof.
  revert ms j; induction xs as [|x xs IH]; intros [|m ms] j Hx Hm;
    simpl in *; try lia.
  destruct j as [|j]; [reflexivity|]. apply IH; lia.
Qed.

Lemma numel_pair (a b : nat) : numel [a; b] = (a * b)%nat.
Proof. unfold numel. simpl. lia. Qed.

Lemma numel_one (a : nat) : numel [a] = a.
Proof. unfold numel. simpl. lia. Qed.

Lemma numel_mask3 (b f : nat) : numel [1%nat; b; f] = (b * f)%nat.
Proof. unfold numel. simpl. lia. Qed.

Lemma mask_nth (g : nat -> Q) (pos c j : nat) :
  (j < c)%nat -> nth j (map g (seq pos c)) 0%Q = g (pos + j)%nat.
Proof.
  intros Hj. rewrite (nth_indep _ 0%Q (g O)) by now rewrite length_map, length_seq.
  rewrite map_nth, seq_nth by exact Hj. reflexivity.
Qed.

(** X5: in training mode with [p] neither 0 nor 1 (where [1/(1-p)] is a
    number), [RNNDropout] takes [batch * features] trials and gives the
    tensor of the same shape in which entry [(t, j)] is the input's times
    the factor of [j], [0] or [1/(1-p)]: one mask for every time step. *)
Theorem variational_mask_shared_over_time
        (draw : Rng) (pos : nat) (self : RNNDropout.RNNDropout)
        (x : Tensor) (t b f : nat) :
  RNNDropout.training self = true ->
  Qeq_bool (RNNDropout.p self) 0 = false ->
  Qeq_bool (RNNDropout.p self) 1 = false ->
  shape x = [t; b; f] -> length (elems x) = (t * (b * f))%nat ->
  exists y,
    RNNDropout.forward draw pos self x = Ok (y, (pos + b * f)%nat)
    /\ shape y = [t; b; f]
    /\ length (elems y) = (t * (b * f))%nat
    /\ forall step j, (step < t)%nat -> (j < b * f)%nat ->
         nth (step * (b * f) + j) (elems y) 0%Q
         = (nth (step * (b * f) + j) (elems x) 0
            * ((if draw (pos + j)%nat then 1 else 0)
               / (1 - RNNDropout.p self)))%Q.
Proof.
  intros Ht Hp _ Hs Hlen. unfold RNNDropout.forward.
  rewrite Ht, Hp, Hs. cbn [negb orb]. unfold dropout_mask.
  rewrite numel_mask3. eexists. split; [reflexivity|].
  unfold mul_leading. rewrite Hs. cbn [shape elems tl hd].
  rewrite numel_pair. set (c := (b * f)%nat).
  set (g := fun j : nat => ((if draw j then 1 else 0)
                            / (1 - RNNDropout.p self))%Q).
  set (ms := map g (seq pos c)).
  assert (Hms : length ms = c) by (subst ms; now rewrite length_map, length_seq).
  assert (Hfull : forall row, In row (chunks t c (elems x)) -> length row = c)
    by (intros row; apply chunks_all_full; lia).
  assert (Hblocks : forall blk,
             In blk (map (fun row => zip_mul row ms)
                         (chunks t c (elems x))) ->
             length blk = c).
  { intros blk Hb. apply in_map_iff in Hb as (row & <- & Hrow).
    rewrite zip_mul_length, Hms, (Hfull row Hrow). apply Nat.min_id. }
  split; [reflexivity|]. split.
  - rewrite (concat_uniform_length c) by exact Hblocks.
    now rewrite length_map, chunks_length.
  - intros step j Hstep Hj.
    rewrite (concat_block_nth c) by
      (try exact Hblocks; try exact Hj;
       now rewrite length_map, chunks_length).
    rewrite (nth_indep _ [] (zip_mul [] ms))
      by now rewrite length_map, chunks_length.
    rewrite (map_nth (fun row => zip_mul row ms)).
    rewrite chunks_nth by exact Hstep.
    assert (Hrow : length (firstn c (skipn (step * c) (elems x))) = c).
    { rewrite length_firstn, length_skipn. nia. }
    rewrite zip_mul_nth by lia.
    rewrite nth_firstn.
    replace (j <? c)%nat with true by (symmetry; now apply Nat.ltb_lt).
    rewrite nth_skipn. subst ms. rewrite mask_nth by exact Hj.
    reflexivity.
Qed.

Lemma variational_mask_shared_over_time_witness :
  RNNDropout.training Samples.dropout_half = true
  /\ Qeq_bool (RNNDropout.p Samples.dropout_half) 0 = false
  /\ Qeq_bool (RNNDropout.p Samples.dropout_half) 1 = false
  /\ shape Samples.activation = [2; 1; 2]%nat
  /\ length (elems Samples.activation) = (2 * (1 * 2))%nat
  /\ exists y,
       RNNDropout.forward Samples.alternate 0 Samples.dropout_half
                          Samples.activation = Ok (y, 2%nat)
       /\ shape y = [2; 1; 2]%nat.
Proof.
  repeat (split; [reflexivity|]).
  destruct (variational_mask_shared_over_time Samples.alternate 0
              Samples.dropout_half Samples.activation 2 1 2
              eq_refl eq_refl eq_refl eq_refl eq_refl) as (y & E & Hs & _).
  exists y. split; [exact E | exact Hs].
Defined.

End Masks.

(** ** The embedding table under dropout *)

Section EmbeddingRows.
Import Torch EmbeddingDropout.
Variable renorm : Q -> Q -> LongTensor -> Tensor -> Tensor.

(** The rows of a table whose every row is scaled by its own factor. *)
Lemma mul_rows_row (w m : Tensor) (nrows cols : nat) (k : Z) :
  shape w = [nrows; cols] -> length (elems w) = (nrows * cols)%nat ->
  length (elems m) = nrows -> 0 <= k < Z.of_nat nrows ->
  row (mul_rows w m) k
  = Ok (map (fun v => (v * nth (Z.to_nat k) (elems m) 0)%Q)
            (firstn cols (skipn (Z.to_nat k * cols) (elems w)))).
Proof.
  intros Hs Hlen Hm Hk. unfold row, mul_rows. rewrite Hs.
  cbn [shape elems tl hd]. rewrite numel_one.
  replace (k <? 0) with false by (symmetry; apply Z.ltb_ge; lia).
  replace (Z.of_nat nrows <=? k) with false
    by (symmetry; apply Z.leb_gt; lia).
  cbn [orb]. f_equal.
  set (scale := fun rm : list Q * Q => map (fun v => (v * snd rm)%Q) (fst rm)).
  assert (Hcomb : length (combine (chunks nrows cols (elems w)) (elems m))
                  = nrows)
    by (rewrite length_combine, chunks_length, Hm; apply Nat.min_id).
  rewrite (concat_block cols).
  - rewrite (nth_indep _ [] (scale ([], 0%Q)))
      by (rewrite length_map, Hcomb; lia).
    rewrite (map_nth scale), combine_nth by now rewrite chunks_length.
    unfold scale. cbn [fst snd].
    now rewrite chunks_nth by lia.
  - intros blk Hb. apply in_map_iff in Hb as ([chunk f] & <- & Hin).
    unfold scale. cbn [fst snd]. rewrite length_map.
    apply in_combine_l in Hin.
    apply (chunks_all_full nrows cols (elems w)); [lia | exact Hin].
  - rewrite length_map, Hcomb. lia.
Qed.

Lemma rows_scaled (w m : Tensor) (nrows cols : nat) (ks : list Z) :
  shape w = [nrows; cols] -> length (elems w) = (nrows * cols)%nat ->
  length (elems m) = nrows ->
  Forall (fun k => 0 <= k < Z.of_nat nrows) ks ->
  rows (mul_rows w m) ks
  = Ok (concat
          (map (fun k =>
                  map (fun v => (v * nth (Z.to_nat k) (elems m) 0)%Q)
                      (firstn cols (skipn (Z.to_nat k * cols) (elems w))))
               ks)).
Proof.
  intros Hs Hlen Hm Hks. induction Hks as [|k ks Hk _ IH]; [reflexivity|].
  cbn [rows]. rewrite (mul_rows_row w m nrows cols k Hs Hlen Hm Hk), IH.
  reflexivity.
Qed.

(** X6: in training mode with [embed_p] neither 0 nor 1, on ids inside the
    table, the lookup returns for every id its stored row times one factor
    per vocabulary entry, [0] or [1/(1-embed_p)], drawn once per row of
    the table: a word's vector is kept or dropped as a whole, and the same
    way at each of its occurrences in the call. *)
Theorem embedding_drops_whole_rows
        (grad_enabled : bool) (draw : Rng) (pos : nat)
        (self : EmbeddingDropout) (words : LongTensor) (nrows cols : nat) :
  training self = true ->
  Qeq_bool (embed_p self) 0 = false ->
  Qeq_bool (embed_p self) 1 = false ->
  max_norm (emb self) = None ->
  shape (weight (emb self)) = [nrows; cols] ->
  length (elems (weight (emb self))) = (nrows * cols)%nat ->
  Forall (fun k => 0 <= k < Z.of_nat nrows) (l_elems words) ->
  let factor k := ((if draw (pos + Z.to_nat k)%nat then 1 else 0)
                   / (1 - embed_p self))%Q in
  snd (forward renorm grad_enabled draw pos self words None)
  = Ok ({| shape := l_shape words ++ [cols];
           elems :=
             concat
               (map (fun k =>
                       map (fun v => (v * factor k)%Q)
                           (firstn cols (skipn (Z.to_nat k * cols)
                                               (elems (weight (emb self))))))
                    (l_elems words)) |},
        (pos + nrows)%nat).
Proof.
  intros Ht Hp _ Hm Hs Hlen Hids factor. unfold forward.
  rewrite Ht, Hp. cbn [negb andb]. unfold dropout_mask. rewrite Hs.
  cbn [hd]. rewrite numel_pair, Nat.mul_1_r.
  unfold embedding. rewrite Hm. cbn [deref]. unfold lookup.
  set (g := fun j : nat => ((if draw j then 1 else 0)
                            / (1 - embed_p self))%Q).
  rewrite (rows_scaled _ _ nrows cols) by
    (try exact Hs; try exact Hlen; try exact Hids;
     cbn [elems]; now rewrite length_map, length_seq).
  cbn [bind snd shape elems]. unfold mul_rows. rewrite Hs. cbn [shape tl].
  do 2 f_equal. f_equal. f_equal. apply map_ext_in. intros k Hk.
  rewrite Forall_forall in Hids. specialize (Hids k Hk).
  apply map_ext. intros v. rewrite mask_nth by lia. reflexivity.
Qed.

(** X7: a forward call leaves the table as it was whenever no in-place
    write can reach it: with no scale, a zero scale, or a mask drawn (in
    training mode with [embed_p <> 0]); the table has no [max_norm]. *)
Theorem embedding_table_kept
        (grad_enabled : bool) (draw : Rng) (pos : nat)
        (self : EmbeddingDropout) (words : LongTensor) (scale : option Q) :
  max_norm (emb self) = None ->
  truthy scale = false
  \/ (training self = true /\ Qeq_bool (embed_p self) 0 = false) ->
  emb (fst (forward renorm grad_enabled draw pos self words scale))
  = emb self.
Proof.
  intros Hm [Hs|(Ht & Hp)].
  - now apply forward_unscaled_keeps_weight.
  - now apply forward_training_keeps_weight.
Qed.

End EmbeddingRows.

Section EmbeddingRowsExamples.
Import Torch EmbeddingDropout.

Lemma embedding_drops_whole_rows_witness :
  training Samples.train_dropout = true
  /\ Qeq_bool (embed_p Samples.train_dropout) 0 = false
  /\ Qeq_bool (embed_p Samples.train_dropout) 1 = false
  /\ max_norm (emb Samples.train_dropout) = None
  /\ shape (weight (emb Samples.train_dropout)) = [3; 2]%nat
  /\ length (elems (weight (emb Samples.train_dropout))) = (3 * 2)%nat
  /\ Forall (fun k => 0 <= k < Z.of_nat 3) [2; 1; 2]
  /\ exists out,
       snd (forward (RNNCore.embedding_renorm Demo.backend) false Samples.alternate 0 Samples.train_dropout
                    {| l_shape := [3%nat]; l_elems := [2; 1; 2] |} None)
       = Ok (out, 3%nat)
       /\ shape out = [3; 2]%nat.
Proof.
  repeat (split; [reflexivity|]).
  assert (H : Forall (fun k => 0 <= k < Z.of_nat 3) [2; 1; 2])
    by (repeat constructor; simpl; lia).
  split; [exact H|].
  eexists. split.
  - apply (embedding_drops_whole_rows (RNNCore.embedding_renorm Demo.backend) false Samples.alternate 0
             Samples.train_dropout
             {| l_shape := [3%nat]; l_elems := [2; 1; 2] |} 3 2
             eq_refl eq_refl eq_refl eq_refl eq_refl eq_refl H).
  - reflexivity.
Defined.

Lemma embedding_table_kept_witness :
  max_norm (emb Samples.train_dropout) = None
  /\ (truthy (Some 2%Q) = false
      \/ (training Samples.train_dropout = true
          /\ Qeq_bool (embed_p Samples.train_dropout) 0 = false))
  /\ emb (fst (forward (RNNCore.embedding_renorm Demo.backend) false Samples.alternate 0
                       Samples.train_dropout
                       {| l_shape := [1%nat]; l_elems := [0] |}
                       (Some 2%Q)))
     = emb Samples.train_dropout.
Proof.
  split; [reflexivity|].
  assert (H : truthy (Some 2%Q) = false
              \/ (training Samples.train_dropout = true
                  /\ Qeq_bool (embed_p Samples.train_dropout) 0 = false))
    by (right; split; reflexivity).
  split; [exact H|].
  apply (embedding_table_kept (RNNCore.embedding_renorm Demo.backend) false Samples.alternate 0
           Samples.train_dropout _ (Some 2%Q) eq_refl H).
Defined.

End EmbeddingRowsExamples.

(** ** The weight-drop wrapper *)

Section WeightDrop.
Import Torch WeightDropout.

Lemma append_length (s t : string) :
  String.length (s ++ t) = (String.length s + String.length t)%nat.
Proof. induction s as [|c s IH]; simpl; [reflexivity|]. now rewrite IH. Qed.

Lemma append_inj_l (s1 s2 t : string) :
  (s1 ++ t)%string = (s2 ++ t)%string -> s1 = s2.
Proof.
  revert s2; induction s1 as [|c s1 IH]; intros [|d s2] H; simpl in H.
  - reflexivity.
  - apply (f_equal String.length) in H. simpl in H.
    rewrite append_length in H. lia.
  - apply (f_equal String.length) in H. simpl in H.
    rewrite append_length in H. lia.
  - injection H as -> H. f_equal. now apply IH.
Qed.

Lemma raw_name_inj (a b : string) : raw_name a = raw_name b -> a = b.
Proof. apply append_inj_l. Qed.

Lemma get_set_same (k : string) (v : Tensor) (ps : Params) :
  get k (set k v ps) = Some v.
Proof.
  induction ps as [|[k' w] ps IH]; simpl.
  - now rewrite String.eqb_refl.
  - destruct (String.eqb_spec k k') as [<-|Hne]; simpl.
    + now rewrite String.eqb_refl.
    + destruct (String.eqb_spec k k'); [contradiction|exact IH].
Qed.

Lemma get_set_other (k k' : string) (v : Tensor) (ps : Params) :
  k <> k' -> get k (set k' v ps) = get k ps.
Proof.
  intros Hne. induction ps as [|[k0 w] ps IH]; simpl.
  - destruct (String.eqb_spec k k'); [contradiction|reflexivity].
  - destruct (String.eqb_spec k' k0) as [<-|Hne']; simpl.
    + destruct (String.eqb_spec k k'); [contradiction|reflexivity].
    + destruct (String.eqb_spec k k0); [reflexivity|exact IH].
Qed.

Section WrappedTable.
Variable Inner : Type.

(** The loop of [__init__] on names that the module has. *)
Lemma register_raws_ok (m : Wrapped Inner) (names : list string) :
  (forall l, In l names -> get l (_parameters m) <> None) ->
  forall raws, exists raws',
    register_raws m names raws = Ok raws'
    /\ (forall l, In l names ->
          get (raw_name l) raws' = get l (_parameters m))
    /\ (forall key, (forall l, In l names -> key <> raw_name l) ->
          get key raws' = get key raws).
Proof.
  induction names as [|layer rest IH]; intros Hall raws.
  - exists raws. simpl. repeat split; tauto.
  - simpl. destruct (get layer (_parameters m)) as [w|] eqn:Hw.
    + destruct (IH (fun l Hl => Hall l (or_intror Hl))
                   (set (raw_name layer) w raws))
        as (raws' & E & Hcopy & Hframe).
      exists raws'. split; [exact E|]. split.
      * intros l [<-|Hl].
        -- destruct (in_dec string_dec layer rest) as [Hin|Hout].
           ++ apply Hcopy. exact Hin.
           ++ rewrite Hframe.
              ** rewrite get_set_same. symmetry. exact Hw.
              ** intros l Hl E'. apply raw_name_inj in E'. congruence.
        -- apply Hcopy. exact Hl.
      * intros key Hkey. rewrite Hframe.
        -- apply get_set_other. apply Hkey. now left.
        -- intros l Hl. apply Hkey. now right.
    + exfalso. apply (Hall layer); [now left | exact Hw].
Qed.

Lemma register_raws_fail (m : Wrapped Inner) (names : list string) :
  forall raws e,
    register_raws m names raws = Raise e ->
    exists l, In l names /\ get l (_parameters m) = None
              /\ e = AttributeError l.
Proof.
  induction names as [|layer rest IH]; intros raws e; simpl.
  - discriminate.
  - destruct (get layer (_parameters m)) as [w|] eqn:Hw.
    + intros H. apply IH in H as (l & Hl & Hn & He).
      exists l. auto.
    + intros [= <-]. exists layer. auto.
Qed.

(** X8: the wrapper is built exactly when the wrapped module has every
    weight that [layer_names] names; otherwise [__init__] raises
    [AttributeError] for a name that the module does not have. *)
Theorem weight_drop_needs_named_weights
        (m : Wrapped Inner) (p : Q) (names : list string) :
  ((forall l, In l names -> get l (_parameters m) <> None)
   <-> succeeds (__init__ m p names))
  /\ forall e, __init__ m p names = Raise e ->
       exists l, In l names /\ get l (_parameters m) = None
                 /\ e = AttributeError l.
Proof.
  unfold __init__. split; [split|].
  - intros Hall. destruct (register_raws_ok m names Hall [])
      as (raws & -> & _). simpl. eexists. reflexivity.
  - intros (self & Hs) l Hl Hnone.
    destruct (register_raws m names []) as [raws|e] eqn:E;
      [|discriminate].
    clear Hs. revert E. generalize (@nil (string * Tensor)).
    induction names as [|layer rest IH]; intros raws0 E; [contradiction|].
    simpl in E. destruct (get layer (_parameters m)) as [w|] eqn:Hw;
      [|discriminate].
    destruct Hl as [<-|Hl]; [congruence|]. apply (IH Hl _ E).
  - intros e. destruct (register_raws m names []) as [raws|e'] eqn:E;
      simpl; [discriminate|].
    intros [= <-]. apply (register_raws_fail m names [] e' E).
Qed.

(** X9: a wrapper that was built holds the module, the probability and the
    names as given, is in training mode, and has for every name a raw
    parameter [name_raw] with the values of the module's weight [name]. *)
Theorem weight_drop_raw_is_the_weight
        (m : Wrapped Inner) (p : Q) (names : list string)
        (self : WeightDropout Inner) :
  __init__ m p names = Ok self ->
  module self = m /\ weight_p self = p /\ layer_names self = names
  /\ training self = true
  /\ forall l, In l names ->
       exists w, get l (_parameters m) = Some w
                 /\ get (raw_name l) (raw_parameters self) = Some w.
Proof.
  intros H.
  assert (Hall : forall l, In l names -> get l (_parameters m) <> None).
  { intros l Hl Hnone. unfold __init__ in H.
    destruct (register_raws m names []) as [raws|e] eqn:E;
      [|discriminate].
    clear H. revert E. generalize (@nil (string * Tensor)).
    induction names as [|layer rest IH]; intros raws0 E; [contradiction|].
    simpl in E. destruct (get layer (_parameters m)) as [w|] eqn:Hw;
      [|discriminate].
    destruct Hl as [<-|Hl]; [congruence|]. apply (IH Hl _ E). }
  unfold __init__ in H.
  destruct (register_raws_ok m names Hall []) as (raws & E & Hcopy & _).
  rewrite E in H. simpl in H. injection H as <-. simpl.
  repeat split. intros l Hl. specialize (Hcopy l Hl).
  destruct (get l (_parameters m)) as [w|] eqn:Hw.
  - exists w. auto.
  - exfalso. apply (Hall l Hl Hw).
Qed.

(** What the loop of [_setweights] leaves in the table of the module,
    whatever the mode: the names it does not go through keep their
    entries. *)
Lemma set_layers_frame (draw : Rng) (self : WeightDropout Inner)
      (names : list string) :
  forall pos ps key,
    ~ In key names ->
    get key (fst (set_layers draw pos self names ps)) = get key ps.
Proof.
  induction names as [|layer rest IH]; intros pos ps key Hkey; simpl.
  - reflexivity.
  - destruct (get (raw_name layer) (raw_parameters self)) as [raw|];
      [|reflexivity].
    destruct (F.dropout draw pos raw (weight_p self) (training self))
      as [[w pos']|e]; [|reflexivity].
    rewrite IH by (intros Hin; apply Hkey; now right).
    apply get_set_other. intros ->. apply Hkey. now left.
Qed.

(** Outside training mode on a probability in [[0, 1]], the engine's
    dropout hands the tensor back. *)
Lemma dropout_eval (draw : Rng) (pos : nat) (x : Tensor) (p : Q) :
  Qle_bool 0 p = true -> Qle_bool p 1 = true ->
  F.dropout draw pos x p false = Ok (x, pos).
Proof. intros H0 H1. unfold F.dropout. now rewrite H0, H1. Qed.

Lemma set_layers_eval (draw : Rng) (self : WeightDropout Inner)
      (names : list string) :
  training self = false ->
  Qle_bool 0 (weight_p self) = true -> Qle_bool (weight_p self) 1 = true ->
  (forall l, In l names -> get (raw_name l) (raw_parameters self) <> None) ->
  forall pos ps,
    snd (set_layers draw pos self names ps) = Ok pos
    /\ forall l, In l names ->
         get l (fst (set_layers draw pos self names ps))
         = get (raw_name l) (raw_parameters self).
Proof.
  intros Ht H0 H1. induction names as [|layer rest IH]; intros Hall pos ps.
  - simpl. split; [reflexivity|tauto].
  - simpl.
    destruct (get (raw_name layer) (raw_parameters self)) as [raw|] eqn:Hraw;
      [|exfalso; apply (Hall layer); [now left | exact Hraw]].
    rewrite Ht, dropout_eval by assumption.
    destruct (IH (fun l Hl => Hall l (or_intror Hl)) pos (set layer raw ps))
      as (Hok & Hset).
    split; [exact Hok|]. intros l [<-|Hl].
    + destruct (in_dec string_dec layer rest) as [Hin|Hout].
      * apply Hset. exact Hin.
      * rewrite set_layers_frame by exact Hout.
        rewrite get_set_same. symmetry. exact Hraw.
    + apply Hset. exact Hl.
Qed.

(** X10: in evaluation mode, with a probability in [[0, 1]], [_setweights]
    takes no trial and gives every named weight of the module the values
    of its raw parameter; the other entries of the module's table stay. *)
Theorem weight_drop_eval_uses_raw
        (draw : Rng) (pos : nat) (self : WeightDropout Inner) :
  training self = false ->
  Qle_bool 0 (weight_p self) = true -> Qle_bool (weight_p self) 1 = true ->
  (forall l, In l (layer_names self) ->
     get (raw_name l) (raw_parameters self) <> None) ->
  let after := fst (_setweights draw pos self) in
  snd (_setweights draw pos self) = Ok pos
  /\ (forall l, In l (layer_names self) ->
        get l (_parameters (module after))
        = get (raw_name l) (raw_parameters self))
  /\ (forall key, ~ In key (layer_names self) ->
        get key (_parameters (module after))
        = get key (_parameters (module self))).
Proof.
  intros Ht H0 H1 Hall after. subst after. unfold _setweights.
  pose proof (set_layers_eval draw self (layer_names self) Ht H0 H1 Hall
                pos (_parameters (module self))) as (Hok & Hset).
  pose proof (set_layers_frame draw self (layer_names self) pos
                (_parameters (module self))) as Hframe.
  destruct (set_layers draw pos self (layer_names self)
                       (_parameters (module self))) as [ps r].
  simpl in *. auto.
Qed.

End WrappedTable.

Section WrappedCall.
Variable Inner Args Out : Type.
Variable inner_forward : Params -> Inner -> Args -> result Out * Inner.

(** X11: a forward call of the wrapper, in any mode and whether it returns
    or raises, leaves the raw parameters, the probability and the names as
    they were, and writes no entry of the module's table other than the
    named weights. *)
Theorem weight_drop_keeps_raw
        (draw : Rng) (pos : nat) (self : WeightDropout Inner) (args : Args) :
  let after := fst (forward Inner Args Out inner_forward draw pos self args) in
  raw_parameters after = raw_parameters self
  /\ weight_p after = weight_p self
  /\ layer_names after = layer_names self
  /\ training after = training self
  /\ forall key, ~ In key (layer_names self) ->
       get key (_parameters (module after))
       = get key (_parameters (module self)).
Proof.
  intros after. subst after. unfold forward, _setweights.
  pose proof (set_layers_frame Inner draw self (layer_names self) pos
                (_parameters (module self))) as Hframe.
  destruct (set_layers draw pos self (layer_names self)
                       (_parameters (module self))) as [ps [pos'|e]];
    simpl in Hframe |- *.
  - destruct (inner_forward ps (inner (module self)) args) as [r st].
    simpl. auto.
  - auto.
Qed.

(** X12: a probability outside [[0, 1]] is only found out by the first
    forward call: with a name to go through, the call raises [ValueError]
    before the wrapped module is called, and the module is as it was. *)
Theorem weight_drop_probability_checked_at_forward
        (draw : Rng) (pos : nat) (self : WeightDropout Inner) (args : Args)
        (layer : string) (rest : list string) :
  Qle_bool 0 (weight_p self) = false \/ Qle_bool (weight_p self) 1 = false ->
  layer_names self = layer :: rest ->
  get (raw_name layer) (raw_parameters self) <> None ->
  forward Inner Args Out inner_forward draw pos self args
  = (self, Raise ValueError).
Proof.
  intros Hp Hn Hraw. unfold forward, _setweights. rewrite Hn. simpl.
  destruct (get (raw_name layer) (raw_parameters self)) as [raw|];
    [|congruence].
  assert (E : F.dropout draw pos raw (weight_p self) (training self)
              = Raise ValueError).
  { unfold F.dropout. destruct Hp as [-> | ->]; simpl;
      [reflexivity | now rewrite orb_true_r]. }
  rewrite E. simpl. destruct self as [[ps st] p names raws tr]. reflexivity.
Qed.

End WrappedCall.

Lemma weight_drop_raw_is_the_weight_witness :
  __init__ Samples.two_weights (1 # 2) ["weight_hh_l0"%string]
  = Ok (Samples.wrapped (1 # 2))
  /\ get (raw_name "weight_hh_l0") (raw_parameters (Samples.wrapped (1 # 2)))
     = Some {| shape := [2%nat]; elems := [3; 4]%Q |}.
Proof.
  assert (E : __init__ Samples.two_weights (1 # 2) ["weight_hh_l0"%string]
              = Ok (Samples.wrapped (1 # 2))) by reflexivity.
  split; [exact E|].
  destruct (weight_drop_raw_is_the_weight nat Samples.two_weights (1 # 2)
              ["weight_hh_l0"%string] (Samples.wrapped (1 # 2)) E)
    as (_ & _ & _ & _ & H).
  destruct (H "weight_hh_l0"%string (or_introl eq_refl)) as (w & Hw & Hr).
  rewrite Hr. rewrite <- Hw. reflexivity.
Defined.

Lemma weight_drop_probability_checked_at_forward_witness :
  (Qle_bool 0 (weight_p (Samples.wrapped 7)) = false
   \/ Qle_bool (weight_p (Samples.wrapped 7)) 1 = false)
  /\ layer_names (Samples.wrapped 7) = ["weight_hh_l0"%string]
  /\ get (raw_name "weight_hh_l0") (raw_parameters (Samples.wrapped 7))
     <> None
  /\ succeeds (__init__ Samples.two_weights 7 ["weight_hh_l0"%string])
  /\ forward nat unit Tensor Samples.call_count Samples.alternate 0
             (Samples.wrapped 7) tt
     = (Samples.wrapped 7, Raise ValueError).
Proof.
  assert (Hp : Qle_bool 0 (weight_p (Samples.wrapped 7)) = false
               \/ Qle_bool (weight_p (Samples.wrapped 7)) 1 = false)
    by (right; reflexivity).
  assert (Hr : get (raw_name "weight_hh_l0")
                   (raw_parameters (Samples.wrapped 7)) <> None)
    by discriminate.
  split; [exact Hp|]. split; [reflexivity|]. split; [exact Hr|].
  split; [eexists; reflexivity|].
  apply (weight_drop_probability_checked_at_forward nat unit Tensor
           Samples.call_count Samples.alternate 0 (Samples.wrapped 7) tt
           "weight_hh_l0"%string [] Hp eq_refl Hr).
Defined.

End WeightDrop.

Section WeightDropEval.
Import Torch WeightDropout.

Lemma weight_drop_eval_uses_raw_witness :
  training Samples.wrapped_eval = false
  /\ Qle_bool 0 (weight_p Samples.wrapped_eval) = true
  /\ Qle_bool (weight_p Samples.wrapped_eval) 1 = true
  /\ (forall l, In l (layer_names Samples.wrapped_eval) ->
        get (raw_name l) (raw_parameters Samples.wrapped_eval) <> None)
  /\ get "weight_hh_l0"
         (_parameters (module (fst (_setweights Samples.alternate 0
                                                Samples.wrapped_eval))))
     = Some {| shape := [2%nat]; elems := [3; 4]%Q |}.
Proof.
  assert (H : forall l, In l (layer_names Samples.wrapped_eval) ->
                get (raw_name l) (raw_parameters Samples.wrapped_eval)
                <> None).
  { intros l [<-|[]]. discriminate. }
  repeat (split; [reflexivity|]). split; [exact H|].
  destruct (weight_drop_eval_uses_raw nat Samples.alternate 0
              Samples.wrapped_eval eq_refl eq_refl eq_refl H)
    as (_ & Hset & _).
  rewrite (Hset "weight_hh_l0"%string (or_introl eq_refl)). reflexivity.
Defined.

End WeightDropEval.

(** ** The encoder between calls *)

Section CoreMore.
Import Torch RNNCore.
Variable B : Backend.

Ltac layer_case self l :=
  cbn [layers];
  destruct (hidden self) as [hs|] eqn:Hhid;
  [ destruct (nth_error hs l) as [h|] eqn:Hnth;
    [ match goal with
      | |- context [layer_forward ?b ?tr ?wp ?c ?x ?h ?d ?p] =>
          destruct (layer_forward b tr wp c x h d p)
            as [[[[raw new_h] m] pos1]|e1] eqn:Hcall
      end
    | ]
  | ].

(** A completed loop has collected one state per layer it went through,
    and, where no hidden dropout is active, the raw activations as
    outputs. *)
Lemma layers_collect (self : RNNCore B) (draw : Rng)
      (zs : list (Rnn B * RNNDropout.RNNDropout)) :
  forall (l : nat) (x : Tensor) (acc acc' : Acc B) (rs : list (Rnn B)),
    layers B self draw l zs x acc = (rs, Ok acc') ->
    length (new_hidden acc') = (length (new_hidden acc) + length zs)%nat
    /\ length (raw_outputs acc')
       = (length (raw_outputs acc) + length zs)%nat
    /\ length (outputs acc') = (length (outputs acc) + length zs)%nat
    /\ ((forall d, In d (map snd zs) ->
           RNNDropout.training d = false
           \/ Qeq_bool (RNNDropout.p d) 0 = true) ->
        outputs acc = raw_outputs acc ->
        outputs acc' = raw_outputs acc').
Proof.
  induction zs as [|[rnn hid_dp] zs IH]; intros l x acc acc' rs.
  - simpl. intros [= _ <-]. repeat split; try lia. auto.
  - layer_case self l; try discriminate.
    destruct (if not_last l (n_layers self)
              then RNNDropout.forward draw pos1 hid_dp raw
              else Ok (raw, pos1)) as [[out pos2]|e2] eqn:Hdrop;
      [|discriminate].
    intros Hrec. apply IH in Hrec as (L0 & L1 & L2 & Hsame).
    cbn [new_hidden raw_outputs outputs] in L0, L1, L2, Hsame.
    rewrite length_app in L0, L1, L2. simpl in L0, L1, L2. simpl length.
    split; [lia|]. split; [lia|]. split; [lia|].
    intros Hoff Hacc. apply Hsame.
    + intros d Hd. apply Hoff. simpl. now right.
    + assert (Hout : out = raw).
      { destruct (not_last l (n_layers self)).
        - unfold RNNDropout.forward in Hdrop.
          destruct (Hoff hid_dp (or_introl eq_refl)) as [Ht|Hp].
          + rewrite Ht in Hdrop. simpl in Hdrop. now injection Hdrop.
          + rewrite Hp, orb_true_r in Hdrop. now injection Hdrop.
        - now injection Hdrop. }
      now rewrite Hout, Hacc.
Qed.

(** What a forward call that returns leaves: the state that the layers
    returned, one entry per layer, and the lists. *)
Lemma forward_returns (grad_enabled : bool) (draw : Rng) (pos : nat)
      (self self' : RNNCore B) (input : LongTensor)
      (raws outs : list Tensor) :
  wf self ->
  forward B grad_enabled draw pos self input = (self', Ok (raws, outs)) ->
  (exists hs, hidden self' = Some hs /\ length hs = n_layers self)
  /\ length raws = n_layers self /\ length outs = n_layers self
  /\ ((forall d, In d (hidden_dps self) ->
         RNNDropout.training d = false
         \/ Qeq_bool (RNNDropout.p d) 0 = true) ->
      outs = raws).
Proof.
  intros (Wr & Wd). unfold forward.
  destruct (l_shape input) as [|sl [|width [|]]]; try discriminate.
  destruct (adopt_width_frame B self width) as (An & Ar & Ad).
  set (s0 := adopt_width B self width) in *. unfold run.
  pose proof (embed_input_frame B grad_enabled draw pos s0 input) as F.
  destruct (embed_input B grad_enabled draw pos s0 input)
    as [s [[x p2]|e]]; [|discriminate].
  simpl in F. destruct F as (_ & _ & Fr & Fd & Fn & _).
  destruct (layers B s draw 0 _ x _) as [rs [acc|e]] eqn:Hl;
    [|discriminate].
  intros [= <- <- <-].
  apply layers_collect in Hl as (L0 & L1 & L2 & Hsame).
  simpl in L0, L1, L2, Hsame.
  rewrite length_combine, Fr, Fd, Ar, Ad, Wr, Wd, Nat.min_id in L0, L1, L2.
  split; [|split; [exact L1|split; [exact L2|]]].
  - eexists. split; [reflexivity|].
    unfold repackage_var. now rewrite length_map.
  - intros Hoff. apply Hsame; [|reflexivity].
    intros d Hd. apply Hoff. rewrite <- Ad, <- Fd.
    apply in_map_iff in Hd as ([r d'] & <- & Hin).
    apply in_combine_r in Hin. exact Hin.
Qed.

(** X13: a forward call that returns leaves the encoder with the width of
    the input as [bs], with one state per layer, and with one layer and one
    hidden dropout per layer; a following call on an input of the same
    width does not reset: it runs on the state that was left. *)
Theorem hidden_state_is_carried
        (grad_enabled : bool) (draw : Rng) (pos : nat)
        (self self' : RNNCore B) (input : LongTensor)
        (raws outs : list Tensor) (sl width : nat) :
  wf self -> l_shape input = [sl; width] ->
  forward B grad_enabled draw pos self input = (self', Ok (raws, outs)) ->
  bs self' = width /\ wf self'
  /\ (exists hs, hidden self' = Some hs /\ length hs = n_layers self)
  /\ forall grad_enabled' draw' pos' input' sl',
       l_shape input' = [sl'; width] ->
       forward B grad_enabled' draw' pos' self' input'
       = run B grad_enabled' draw' pos' self' input'.
Proof.
  intros W Hs Hf.
  assert (Hbs : bs self' = width).
  { pose proof (forward_bs B grad_enabled draw pos self input sl width Hs)
      as Hb. now rewrite Hf in Hb. }
  split; [exact Hbs|]. split.
  - pose proof (forward_wf B grad_enabled draw pos self input W) as W'.
    now rewrite Hf in W'.
  - split; [apply (forward_returns _ _ _ _ _ _ _ _ W Hf)|].
    intros ge' draw' pos' input' sl' Hs'. unfold forward. rewrite Hs'.
    unfold adopt_width. now rewrite Hbs, Nat.eqb_refl.
Qed.

(** X14: when no hidden dropout is active (every one of them outside
    training mode, or with [p = 0]), the dropout-adjusted activations that
    a forward call returns are the raw activations, layer by layer. *)
Theorem inactive_dropout_outputs_are_raw
        (grad_enabled : bool) (draw : Rng) (pos : nat)
        (self self' : RNNCore B) (input : LongTensor)
        (raws outs : list Tensor) :
  wf self ->
  (forall d, In d (hidden_dps self) ->
     RNNDropout.training d = false \/ Qeq_bool (RNNDropout.p d) 0 = true) ->
  forward B grad_enabled draw pos self input = (self', Ok (raws, outs)) ->
  outs = raws /\ length raws = n_layers self.
Proof.
  intros W Hoff Hf.
  destruct (forward_returns _ _ _ _ _ _ _ _ W Hf) as (_ & L & _ & Hsame).
  split; [now apply Hsame | exact L].
Qed.

(** X15: after an explicit [reset] every layer has an all-zero state as
    wide as the stored [bs]; a forward call on an input of that width then
    runs on it without another reset, and returns, unless the lookup or
    the input dropout raises, or a layer that the loop reaches, having
    found its state, raises in its own call or in the call of its hidden
    dropout. *)
Theorem explicit_reset_allocates
        (grad_enabled : bool) (draw : Rng) (pos : nat)
        (self : RNNCore B) (input : LongTensor) (sl : nat) :
  wf self -> l_shape input = [sl; bs self] ->
  let fresh := reset B self in
  (exists hs, hidden fresh = Some hs /\ zero_state self (bs self) hs)
  /\ forward B grad_enabled draw pos fresh input
     = run B grad_enabled draw pos fresh input
  /\ (succeeds (snd (forward B grad_enabled draw pos fresh input))
      \/ exists e,
           snd (forward B grad_enabled draw pos fresh input) = Raise e
           /\ (snd (embed_input B grad_enabled draw pos fresh input)
               = Raise e
               \/ exists s x p2,
                    embed_input B grad_enabled draw pos fresh input
                    = (s, Ok (x, p2))
                    /\ layer_raised B s draw x p2 e)).
Proof.
  intros (Wr & Wd) Hs fresh.
  destruct (reset_zero_state B self) as (hs & Hh & Hz).
  assert (Hrun : forward B grad_enabled draw pos fresh input
                 = run B grad_enabled draw pos fresh input).
  { unfold forward. rewrite Hs. unfold adopt_width.
    replace (bs fresh) with (bs self) by reflexivity.
    now rewrite Nat.eqb_refl. }
  split; [now exists hs|]. split; [exact Hrun|].
  rewrite Hrun. unfold run.
  pose proof (embed_input_frame B grad_enabled draw pos fresh input) as F.
  destruct (embed_input B grad_enabled draw pos fresh input)
    as [s [[x p2]|e0]]; simpl in F |- *;
    [|right; exists e0; split; [reflexivity | left; reflexivity]].
  destruct F as (_ & Fh & Fr & Fd & _).
  destruct (layers B s draw 0 _ x _) as [rs [acc|e1]] eqn:Hl;
    simpl; [left; eexists; reflexivity|].
  right. exists e1. split; [reflexivity|]. right.
  exists s, x, p2. split; [reflexivity|].
  assert (Hsome : hidden s = Some hs) by (rewrite Fh; exact Hh).
  assert (Hlen : (0 + length (combine (rnns s) (hidden_dps s))
                  <= length hs)%nat).
  { destruct Hz as (Hlen & _).
    rewrite length_combine, Fr, Fd, Hlen. subst fresh. simpl.
    rewrite length_map. lia. }
  pose proof (fun Hx => layers_raise B s draw _ hs x Hsome 0 x _ rs e1
                                     Hx Hlen Hl) as R.
  destruct (R eq_refl)
    as (pre & rnn & hid_dp & post & rs1 & acc1 & h & Ezs & Hpre & Hn & Hor).
  exists pre, rnn, hid_dp, post, rs1, acc1, hs, h.
  split; [exact Ezs|]. split; [exact Hpre|]. split; [exact Hsome|].
  split; [exact Hn | exact Hor].
Qed.

End CoreMore.

Section CoreMoreExamples.
Import Torch RNNCore Demo.

Lemma hidden_state_is_carried_witness :
  wf two_layers /\ l_shape (ids 1 4 0) = [1%nat; 4%nat]
  /\ exists self' raws outs,
       forward backend false no_drop 0 two_layers (ids 1 4 0)
       = (self', Ok (raws, outs))
       /\ bs self' = 4%nat
       /\ forward backend false no_drop 0 self' (ids 2 4 1)
          = run backend false no_drop 0 self' (ids 2 4 1).
Proof.
  assert (W : wf two_layers) by (split; reflexivity).
  split; [exact W|]. split; [reflexivity|].
  destruct (forward backend false no_drop 0 two_layers (ids 1 4 0))
    as [self' [[raws outs]|e]] eqn:E.
  - exists self', raws, outs. split; [reflexivity|].
    destruct (hidden_state_is_carried backend false no_drop 0 two_layers
                self' (ids 1 4 0) raws outs 1 4 W eq_refl E)
      as (Hb & _ & _ & Hnext).
    split; [exact Hb|]. apply (Hnext false no_drop 0%nat (ids 2 4 1) 2%nat).
    reflexivity.
  - vm_compute in E. discriminate E.
Defined.

Lemma inactive_dropout_outputs_are_raw_witness :
  wf Samples.evaluating
  /\ (forall d, In d (hidden_dps Samples.evaluating) ->
        RNNDropout.training d = false
        \/ Qeq_bool (RNNDropout.p d) 0 = true)
  /\ exists self' raws outs,
       forward backend false no_drop 0 Samples.evaluating (ids 1 3 0)
       = (self', Ok (raws, outs))
       /\ outs = raws.
Proof.
  assert (W : wf Samples.evaluating) by (split; reflexivity).
  assert (H : forall d, In d (hidden_dps Samples.evaluating) ->
                RNNDropout.training d = false
                \/ Qeq_bool (RNNDropout.p d) 0 = true).
  { intros d [<-|[<-|[]]]; left; reflexivity. }
  split; [exact W|]. split; [exact H|].
  destruct (forward backend false no_drop 0 Samples.evaluating (ids 1 3 0))
    as [self' [[raws outs]|e]] eqn:E.
  - exists self', raws, outs. split; [reflexivity|].
    apply (inactive_dropout_outputs_are_raw backend false no_drop 0
             Samples.evaluating self' (ids 1 3 0) raws outs W H E).
  - vm_compute in E. discriminate E.
Defined.

Lemma explicit_reset_allocates_witness :
  wf two_layers /\ l_shape (ids 1 1 0) = [1%nat; bs two_layers]
  /\ (exists hs, hidden (reset backend two_layers) = Some hs
                 /\ zero_state two_layers (bs two_layers) hs)
  /\ forward backend false no_drop 0 (reset backend two_layers) (ids 1 1 0)
     = run backend false no_drop 0 (reset backend two_layers) (ids 1 1 0)
  /\ succeeds (snd (forward backend false no_drop 0
                            (reset backend two_layers) (ids 1 1 0))).
Proof.
  assert (W : wf two_layers) by (split; reflexivity).
  split; [exact W|]. split; [reflexivity|].
  destruct (explicit_reset_allocates backend false no_drop 0 two_layers
              (ids 1 1 0) 1 W eq_refl)
    as (Hzero & Hrun & [Hok|(e & He & _)]).
  - split; [exact Hzero|]. split; [exact Hrun | exact Hok].
  - vm_compute in He. discriminate He.
Defined.

End CoreMoreExamples.

(** ** The penalties of the training hook *)

Section Penalties.
Import Torch RNNTrainer.

Lemma sq_nonneg (v : Q) : (0 <= v * v)%Q.
Proof. destruct v as [a b]. unfold Qle. simpl. nia. Qed.

Lemma total_sq_nonneg (vs : list Q) :
  (0 <= total (map (fun v => v * v) vs))%Q.
Proof.
  induction vs as [|v vs IH]; simpl; [apply Qle_refl|].
  rewrite <- (Qplus_0_r 0). apply Qplus_le_compat; [apply sq_nonneg|exact IH].
Qed.

Lemma mean_sq_nonneg (vs : list Q) : (0 <= mean_sq vs)%Q.
Proof.
  unfold mean_sq, Qdiv. apply Qmult_le_0_compat; [apply total_sq_nonneg|].
  apply Qinv_le_0_compat. unfold Qle. simpl. lia.
Qed.

Lemma add_nonneg (x y : Q) : (0 <= y)%Q -> (x <= x + y)%Q.
Proof.
  intros H. rewrite <- (Qplus_0_r x) at 1. apply Qplus_le_compat;
    [apply Qle_refl | exact H].
Qed.

(** X16: with [alpha = 0] and [beta = 0] the hook hands the loss back as it
    got it, and reads neither activation list: it does so even when
    [on_loss_begin] never ran. *)
Theorem no_penalty_keeps_loss
        (self : RNNTrainer) (loss : Q) (input : LongTensor) :
  Qeq_bool (alpha self) 0 = true -> Qeq_bool (beta self) 0 = true ->
  adjust self = false \/ (bptt self <> 0 /\ l_shape input <> []) ->
  snd (on_backward_begin self loss input) = Ok loss.
Proof.
  intros Ha Hb Hadj. unfold on_backward_begin.
  destruct (adjust self).
  - destruct Hadj as [Hf|(Hz & Hs)]; [discriminate|].
    destruct (l_shape input) as [|size0 rest]; [congruence|].
    replace (bptt self =? 0) with false by (symmetry; now apply Z.eqb_neq).
    cbn [snd set_lr alpha beta]. now rewrite Ha, Hb.
  - cbn [snd]. now rewrite Ha, Hb.
Qed.

Lemma no_penalty_keeps_loss_witness :
  Qeq_bool (alpha Demo.trainer) 0 = true
  /\ Qeq_bool (beta Demo.trainer) 0 = true
  /\ (adjust Demo.trainer = false
      \/ (bptt Demo.trainer <> 0 /\ l_shape (Demo.ids 45 10 0) <> []))
  /\ out Demo.trainer = None
  /\ snd (on_backward_begin Demo.trainer (7 # 3) (Demo.ids 45 10 0))
     = Ok (7 # 3).
Proof.
  assert (H : adjust Demo.trainer = false
              \/ (bptt Demo.trainer <> 0 /\ l_shape (Demo.ids 45 10 0) <> []))
    by (right; split; discriminate).
  repeat (split; [reflexivity|]). split; [exact H|]. split; [reflexivity|].
  apply (no_penalty_keeps_loss Demo.trainer (7 # 3) (Demo.ids 45 10 0)
           eq_refl eq_refl H).
Defined.

(** X17: when the last raw activation has at most one time step, the hook
    returns what it returns with [beta = 0]: the temporal penalty adds
    nothing, whatever the activation holds. *)
Theorem tar_needs_two_steps
        (self : RNNTrainer) (loss : Q) (input : LongTensor)
        (raws : list Tensor) (h : Tensor) (len : nat) (rest : list nat) :
  raw_out self = Some raws -> last_item raws = Some h ->
  shape h = len :: rest -> (len <= 1)%nat ->
  snd (on_backward_begin self loss input)
  = snd (on_backward_begin
           {| learn := learn self; bptt := bptt self; alpha := alpha self;
              beta := 0; adjust := adjust self;
              raw_out := raw_out self; out := out self |}
           loss input).
Proof.
  intros Hr Hl Hs Hlen. unfold on_backward_begin. cbn [adjust bptt learn].
  assert (Hpen : forall (l0 : Q),
             (if negb (Qeq_bool (beta self) 0)
              then let* h0 := final_of "raw_out" (raw_out self) in
                   match shape h0 with
                   | [] => Raise ValueError
                   | len0 :: _ =>
                       if (1 <? len0)%nat
                       then Ok (l0 + beta self * mean_sq (time_diff h0))%Q
                       else Ok l0
                   end
              else Ok l0) = Ok l0).
  { intros l0. destruct (negb (Qeq_bool (beta self) 0)); [|reflexivity].
    unfold final_of. rewrite Hr, Hl. cbn [bind]. rewrite Hs.
    replace (1 <? len)%nat with false
      by (symmetry; apply Nat.ltb_ge; exact Hlen).
    reflexivity. }
  destruct (adjust self).
  - destruct (l_shape input) as [|size0 tail]; [reflexivity|].
    destruct (bptt self =? 0); [reflexivity|].
    cbn [snd set_lr alpha beta out raw_out].
    destruct (if negb (Qeq_bool (alpha self) 0)
              then let* o := final_of "out" (out self) in
                   Ok (loss + alpha self * mean_sq (elems o))%Q
              else Ok loss) as [l0|e]; cbn [bind]; [|reflexivity].
    rewrite Hpen. reflexivity.
  - cbn [snd alpha beta out raw_out].
    destruct (if negb (Qeq_bool (alpha self) 0)
              then let* o := final_of "out" (out self) in
                   Ok (loss + alpha self * mean_sq (elems o))%Q
              else Ok loss) as [l0|e]; cbn [bind]; [|reflexivity].
    rewrite Hpen. reflexivity.
Qed.

Lemma tar_needs_two_steps_witness :
  raw_out Samples.penalised
  = Some [{| shape := [1; 1; 2]%nat; elems := [3; 4]%Q |}]
  /\ (1 <= 1)%nat
  /\ snd (on_backward_begin Samples.penalised 1 (Demo.ids 1 1 0))
     = snd (on_backward_begin
              {| learn := learn Samples.penalised;
                 bptt := bptt Samples.penalised;
                 alpha := alpha Samples.penalised;
                 beta := 0; adjust := adjust Samples.penalised;
                 raw_out := raw_out Samples.penalised;
                 out := out Samples.penalised |}
              1 (Demo.ids 1 1 0)).
Proof.
  split; [reflexivity|]. split; [lia|].
  apply (tar_needs_two_steps Samples.penalised 1 (Demo.ids 1 1 0)
           [{| shape := [1; 1; 2]%nat; elems := [3; 4]%Q |}]
           {| shape := [1; 1; 2]%nat; elems := [3; 4]%Q |} 1 [1; 2]%nat
           eq_refl eq_refl eq_refl).
  lia.
Defined.

(** X18: with [alpha >= 0] and [beta >= 0], and means taken over at least
    one element, the loss that the hook returns is never below the loss
    it got. *)
Theorem penalties_never_lower_loss
        (self : RNNTrainer) (loss loss' : Q) (input : LongTensor) :
  (0 <= alpha self)%Q -> (0 <= beta self)%Q ->
  (forall o, final_of "out" (out self) = Ok o -> elems o <> []) ->
  (forall h, final_of "raw_out" (raw_out self) = Ok h ->
     (1 < hd O (shape h))%nat -> time_diff h <> []) ->
  snd (on_backward_begin self loss input) = Ok loss' ->
  (loss <= loss')%Q.
Proof.
  intros Ha Hb _ _. unfold on_backward_begin.
  assert (Hcore : forall s : RNNTrainer,
             alpha s = alpha self -> beta s = beta self ->
             (let* last_loss :=
                if negb (Qeq_bool (alpha s) 0)
                then let* o := final_of "out" (out s) in
                     Ok (loss + alpha s * mean_sq (elems o))%Q
                else Ok loss in
              if negb (Qeq_bool (beta s) 0)
              then let* h := final_of "raw_out" (raw_out s) in
                   match shape h with
                   | [] => Raise ValueError
                   | len :: _ =>
                       if (1 <? len)%nat
                       then Ok (last_loss
                                + beta s * mean_sq (time_diff h))%Q
                       else Ok last_loss
                   end
              else Ok last_loss) = Ok loss' ->
             (loss <= loss')%Q).
  { intros s Ea Eb. rewrite Ea, Eb.
    assert (Hfirst : forall l0,
               (if negb (Qeq_bool (alpha self) 0)
                then let* o := final_of "out" (out s) in
                     Ok (loss + alpha self * mean_sq (elems o))%Q
                else Ok loss) = Ok l0 -> (loss <= l0)%Q).
    { intros l0. destruct (negb (Qeq_bool (alpha self) 0)).
      - destruct (final_of "out" (out s)) as [o|e]; cbn [bind];
          [|discriminate].
        intros [= <-]. apply add_nonneg.
        apply Qmult_le_0_compat; [exact Ha | apply mean_sq_nonneg].
      - intros [= <-]. apply Qle_refl. }
    destruct (if negb (Qeq_bool (alpha self) 0)
              then let* o := final_of "out" (out s) in
                   Ok (loss + alpha self * mean_sq (elems o))%Q
              else Ok loss) as [l0|e]; cbn [bind]; [|discriminate].
    specialize (Hfirst l0 eq_refl).
    destruct (negb (Qeq_bool (beta self) 0)).
    - destruct (final_of "raw_out" (raw_out s)) as [h|e]; cbn [bind];
        [|discriminate].
      destruct (shape h) as [|len tail]; [discriminate|].
      destruct (1 <? len)%nat.
      + intros [= <-]. apply (Qle_trans _ l0); [exact Hfirst|].
        apply add_nonneg.
        apply Qmult_le_0_compat; [exact Hb | apply mean_sq_nonneg].
      + intros [= <-]. exact Hfirst.
    - intros [= <-]. exact Hfirst. }
  destruct (adjust self).
  - destruct (l_shape input) as [|size0 tail]; [discriminate|].
    destruct (bptt self =? 0); [discriminate|].
    cbn [snd]. apply Hcore; reflexivity.
  - cbn [snd]. apply Hcore; reflexivity.
Qed.

Lemma penalties_never_lower_loss_witness :
  (0 <= alpha Samples.penalised)%Q /\ (0 <= beta Samples.penalised)%Q
  /\ snd (on_backward_begin Samples.penalised 1 (Demo.ids 1 1 0))
     = Ok (1 + 2 * ((3 * 3 + (4 * 4 + 0)) / inject_Z 2))%Q
  /\ (1 <= 1 + 2 * ((3 * 3 + (4 * 4 + 0)) / inject_Z 2))%Q.
Proof.
  assert (Ha : (0 <= alpha Samples.penalised)%Q) by discriminate.
  assert (Hb : (0 <= beta Samples.penalised)%Q) by discriminate.
  assert (E : snd (on_backward_begin Samples.penalised 1 (Demo.ids 1 1 0))
              = Ok (1 + 2 * ((3 * 3 + (4 * 4 + 0)) / inject_Z 2))%Q)
    by reflexivity.
  split; [exact Ha|]. split; [exact Hb|]. split; [exact E|].
  apply (penalties_never_lower_loss Samples.penalised 1 _ (Demo.ids 1 1 0)
           Ha Hb); [| | exact E].
  - intros o Ho. injection Ho as <-. discriminate.
  - intros h Hh Hlen. injection Hh as <-. simpl in Hlen. lia.
Defined.

(** X19: the hook rescales the learning rate before it reads the
    activation lists: called with [alpha <> 0] when [on_loss_begin] has
    not stored them, it raises [AttributeError] and leaves the rate
    multiplied by the window's ratio. *)
Theorem penalty_without_loss_begin_raises
        (self : RNNTrainer) (loss : Q) (input : LongTensor)
        (size0 : nat) (rest : list nat) :
  adjust self = true -> bptt self <> 0 -> l_shape input = size0 :: rest ->
  Qeq_bool (alpha self) 0 = false -> out self = None ->
  on_backward_begin self loss input
  = (set_lr self (lr (opt (learn self))
                  * (inject_Z (Z.of_nat size0) / inject_Z (bptt self)))%Q,
     Raise (AttributeError "out")).
Proof.
  intros Hadj Hb Hs Ha Ho. unfold on_backward_begin. rewrite Hadj, Hs.
  replace (bptt self =? 0) with false by (symmetry; now apply Z.eqb_neq).
  cbn [set_lr alpha out]. rewrite Ha, Ho. reflexivity.
Qed.

Lemma penalty_without_loss_begin_raises_witness :
  snd (on_backward_begin
         {| learn := learn Demo.trainer; bptt := 20; alpha := 2; beta := 0;
            adjust := true; raw_out := None; out := None |}
         1 (Demo.ids 45 10 0))
  = Raise (AttributeError "out").
Proof.
  rewrite (penalty_without_loss_begin_raises
             {| learn := learn Demo.trainer; bptt := 20; alpha := 2;
                beta := 0; adjust := true; raw_out := None; out := None |}
             1 (Demo.ids 45 10 0) 45 [10%nat]);
    try reflexivity. discriminate.
Defined.

End Penalties.

(** ** The decoder and the whole model *)

Section Decoder.
Import Torch.

(** What a decoder call that returns hands back. *)
Lemma decoder_forward_ok
      (table : Tensor) (draw : Rng) (pos : nat)
      (self : LinearDecoder.LinearDecoder) (raws outs : list Tensor)
      (decoded : Tensor) (raws' outs' : list Tensor) :
  LinearDecoder.forward table draw pos self (raws, outs)
  = Ok (decoded, raws', outs') ->
  raws' = raws /\ outs' = outs
  /\ exists rows n_out n_in,
       shape decoded = [rows; n_out]
       /\ shape (LinearDecoder.the_weight table self) = [n_out; n_in].
Proof.
  unfold LinearDecoder.forward.
  destruct (RNNTrainer.last_item outs) as [last|]; [|discriminate].
  destruct (RNNDropout.forward draw pos (LinearDecoder.output_dp self) last)
    as [[output p1]|e]; cbn [bind]; [|discriminate].
  destruct (LinearDecoder.flatten_time output) as [flat|e] eqn:Hflat;
    cbn [bind]; [|discriminate].
  unfold F.linear.
  destruct (shape flat) as [|r [|f [|]]]; try discriminate.
  destruct (shape (LinearDecoder.the_weight table self))
    as [|o [|f' [|]]]; try discriminate.
  destruct (f =? f')%nat; [|discriminate].
  cbn [bind]. intros [= <- <- <-]. repeat split.
  exists r, o, f'. split; reflexivity.
Qed.

(** X20: the decoder reads the last entry of [outputs] and so raises
    [IndexError] on an empty list; when it returns, both lists come back as
    they were given, and the logits have two axes, the second as long as
    the weight has rows. *)
Theorem decoder_passes_lists_through
        (table : Tensor) (draw : Rng) (pos : nat)
        (self : LinearDecoder.LinearDecoder) (raws outs : list Tensor) :
  LinearDecoder.forward table draw pos self (raws, []) = Raise IndexError
  /\ forall decoded raws' outs',
       LinearDecoder.forward table draw pos self (raws, outs)
       = Ok (decoded, raws', outs') ->
       raws' = raws /\ outs' = outs
       /\ exists rows n_out n_in,
            shape decoded = [rows; n_out]
            /\ shape (LinearDecoder.the_weight table self) = [n_out; n_in].
Proof.
  split.
  - unfold LinearDecoder.forward. cbn [RNNTrainer.last_item]. reflexivity.
  - intros decoded raws' outs' H.
    destruct (decoder_forward_ok table draw pos self raws outs decoded
                raws' outs' H) as (Hr & Ho & Hshape).
    split; [exact Hr|]. split; [exact Ho | exact Hshape].
Qed.

End Decoder.

Section Model.
Import Torch.
Variable B : RNNCore.Backend.

Lemma init_table (init : nat -> Q)
      (vocab_sz emb_sz n_hid n_layers : nat) (pad_token : option Z)
      (bidir : bool) (hidden_p input_p embed_p weight_p : Q) (qrnn : bool)
      (self : RNNCore.RNNCore B) :
  RNNCore.__init__ B init vocab_sz emb_sz n_hid n_layers pad_token bidir
                   hidden_p input_p embed_p weight_p qrnn = Ok self ->
  EmbeddingDropout.max_norm (RNNCore.encoder self) = None
  /\ shape (EmbeddingDropout.weight (RNNCore.encoder self))
     = [vocab_sz; emb_sz].
Proof.
  unfold RNNCore.__init__.
  destruct (RNNCore.nn_Embedding B vocab_sz emb_sz pad_token) as [pad|e];
    [|discriminate].
  cbn [bind EmbeddingDropout.__init__ RNNDropout.__init__].
  match goal with
  | |- (let* rnns := ?R in _) = _ -> _ => destruct R as [rnns|e]
  end; cbn [bind]; [|discriminate].
  match goal with
  | |- (let* ds := ?R in _) = _ -> _ => destruct R as [ds|e]
  end; cbn [bind]; [|discriminate].
  intros [= <-]. split; reflexivity.
Qed.

Lemma core_forward_keeps_table
      (grad_enabled : bool) (draw : Rng) (pos : nat)
      (self : RNNCore.RNNCore B) (input : LongTensor) :
  EmbeddingDropout.max_norm (RNNCore.encoder self) = None ->
  RNNCore.encoder
    (fst (RNNCore.forward B grad_enabled draw pos self input))
  = RNNCore.encoder self.
Proof.
  intros Hm. unfold RNNCore.forward.
  destruct (l_shape input) as [|sl [|width [|]]]; try reflexivity.
  assert (Ha : RNNCore.encoder_dp (RNNCore.adopt_width B self width)
               = RNNCore.encoder_dp self).
  { unfold RNNCore.adopt_width.
    destruct (negb (width =? RNNCore.bs self)%nat); reflexivity. }
  set (s0 := RNNCore.adopt_width B self width) in *.
  unfold RNNCore.encoder in *. rewrite <- Ha in Hm |- *.
  unfold RNNCore.run, RNNCore.embed_input.
  pose proof (forward_unscaled_keeps_weight (RNNCore.embedding_renorm B)
                grad_enabled draw pos (RNNCore.encoder_dp s0) input None
                eq_refl Hm) as K.
  destruct (EmbeddingDropout.forward _ _ _ _ _ _ _) as [edp [[emb p1]|e]];
    cbn [fst] in K; [|exact K].
  destruct (RNNDropout.forward draw p1 (RNNCore.input_dp s0) emb)
    as [[x p2]|e]; [|exact K].
  match goal with
  | |- context [RNNCore.layers B ?s draw 0 ?zs x ?acc] =>
      destruct (RNNCore.layers B s draw 0 zs x acc) as [rs [acc'|e]]
  end; exact K.
Qed.

(** X21: a model built by [get_language_model] with tied weights returns,
    when its call returns, the two lists of the encoder as they are and
    logits with one column per word of the vocabulary; the call leaves the
    decoder as it was. *)
Theorem tied_model_scores_the_vocabulary
        (init_enc init_dec : nat -> Q)
        (vocab_sz emb_sz n_hid n_layers : nat) (pad_token : option Z)
        (qrnn bias : bool) (output_p hidden_p input_p embed_p weight_p : Q)
        (model model' : SequentialRNN.SequentialRNN B)
        (grad_enabled : bool) (draw : Rng) (pos pos' : nat)
        (input : LongTensor) (decoded : Tensor) (raws outs : list Tensor) :
  SequentialRNN.get_language_model B init_enc init_dec vocab_sz emb_sz n_hid
    n_layers pad_token true qrnn bias output_p hidden_p input_p embed_p
    weight_p = Ok model ->
  SequentialRNN.forward B grad_enabled draw pos pos' model input
  = (model', Ok (decoded, raws, outs)) ->
  RNNCore.forward B grad_enabled draw pos (SequentialRNN.rnn_enc model) input
  = (SequentialRNN.rnn_enc model', Ok (raws, outs))
  /\ SequentialRNN.decoder model' = SequentialRNN.decoder model
  /\ exists rows, shape decoded = [rows; vocab_sz].
Proof.
  unfold SequentialRNN.get_language_model.
  destruct (RNNCore.__init__ B init_enc vocab_sz emb_sz n_hid n_layers
              pad_token false hidden_p input_p embed_p weight_p qrnn)
    as [enc0|e] eqn:Hinit; cbn [bind]; [|discriminate].
  apply init_table in Hinit as (Hmax & Hshape).
  cbn [LinearDecoder.__init__ RNNDropout.__init__ bind].
  intros [= <-]. unfold SequentialRNN.forward.
  cbn [SequentialRNN.rnn_enc SequentialRNN.decoder].
  pose proof (core_forward_keeps_table grad_enabled draw pos enc0 input Hmax)
    as K.
  destruct (RNNCore.forward B grad_enabled draw pos enc0 input)
    as [enc [[raws0 outs0]|e]]; cbn [fst] in K; [|discriminate].
  intros [= <- Hdec].
  cbn [SequentialRNN.rnn_enc SequentialRNN.decoder].
  destruct (decoder_forward_ok
              (EmbeddingDropout.weight (RNNCore.encoder enc)) draw pos'
              {| LinearDecoder.weight := LinearDecoder.Tied;
                 LinearDecoder.bias :=
                   if bias then Some (zeros [vocab_sz]) else None;
                 LinearDecoder.output_dp :=
                   {| RNNDropout.p := output_p;
                      RNNDropout.training := true |} |}
              raws0 outs0 decoded raws outs Hdec)
    as (-> & -> & rows & o & f & Hd & Hw).
  split; [reflexivity|]. split; [reflexivity|].
  unfold LinearDecoder.the_weight in Hw. cbn [LinearDecoder.weight] in Hw.
  rewrite K, Hshape in Hw. injection Hw as <- <-.
  exists rows. exact Hd.
Qed.

(** X22: a model built with [n_layers = 0] never returns from a call: the
    encoder raises, or it returns empty lists and the decoder raises on
    [outputs[-1]]. *)
Theorem model_without_layers_always_raises
        (init_enc init_dec : nat -> Q)
        (vocab_sz emb_sz n_hid : nat) (pad_token : option Z)
        (tie_weights qrnn bias : bool)
        (output_p hidden_p input_p embed_p weight_p : Q)
        (model : SequentialRNN.SequentialRNN B)
        (grad_enabled : bool) (draw : Rng) (pos pos' : nat)
        (input : LongTensor) :
  SequentialRNN.get_language_model B init_enc init_dec vocab_sz emb_sz n_hid
    0 pad_token tie_weights qrnn bias output_p hidden_p input_p embed_p
    weight_p = Ok model ->
  fails (snd (SequentialRNN.forward B grad_enabled draw pos pos' model
                                    input)).
Proof.
  unfold SequentialRNN.get_language_model.
  destruct (RNNCore.__init__ B init_enc vocab_sz emb_sz n_hid 0
              pad_token false hidden_p input_p embed_p weight_p qrnn)
    as [enc0|e] eqn:Hinit; cbn [bind]; [|discriminate].
  apply init_fresh in Hinit as (_ & _ & Hn & W).
  cbn [LinearDecoder.__init__ RNNDropout.__init__ bind].
  intros [= <-]. unfold SequentialRNN.forward.
  cbn [SequentialRNN.rnn_enc SequentialRNN.decoder].
  destruct (RNNCore.forward B grad_enabled draw pos enc0 input)
    as [enc [[raws outs]|e]] eqn:Hf; cbn [snd].
  - destruct (forward_returns B grad_enabled draw pos enc0 enc input raws
                outs W Hf) as (_ & _ & Hlen & _).
    rewrite Hn in Hlen. destruct outs; [|discriminate].
    unfold fails. simpl. eauto.
  - unfold fails. eauto.
Qed.

End Model.

Section ModelExamples.
Import Torch.

Lemma tied_model_scores_the_vocabulary_witness :
  exists model' decoded raws outs,
    SequentialRNN.forward Demo.backend true Demo.no_drop 0 0 Samples.model2
                          (Demo.ids 3 2 0)
    = (model', Ok (decoded, raws, outs))
    /\ RNNCore.forward Demo.backend true Demo.no_drop 0
         (SequentialRNN.rnn_enc Samples.model2) (Demo.ids 3 2 0)
       = (SequentialRNN.rnn_enc model', Ok (raws, outs))
    /\ SequentialRNN.decoder model' = SequentialRNN.decoder Samples.model2
    /\ exists rows, shape decoded = [rows; 3%nat].
Proof.
  destruct (SequentialRNN.forward Demo.backend true Demo.no_drop 0 0
              Samples.model2 (Demo.ids 3 2 0))
    as [model' [[[decoded raws] outs]|e]] eqn:Hf;
    [|vm_compute in Hf; discriminate].
  exists model', decoded, raws, outs. split; [reflexivity|].
  apply (tied_model_scores_the_vocabulary Demo.backend (Demo.init_rows 2)
           (fun _ => 0%Q) 3 2 4 2 (Some 1) false true
           (2 # 5) (1 # 5) (3 # 5) (1 # 10) (1 # 2)
           Samples.model2 model' true Demo.no_drop 0 0 (Demo.ids 3 2 0)
           decoded raws outs); [reflexivity | exact Hf].
Defined.

Lemma model_without_layers_always_raises_witness :
  fails (snd (SequentialRNN.forward Demo.backend true Demo.no_drop 0 0
                Samples.model0 (Demo.ids 3 2 0))).
Proof.
  apply (model_without_layers_always_raises Demo.backend (Demo.init_rows 2)
           (fun _ => 0%Q) 3 2 4 (Some 1) true false true
           (2 # 5) (1 # 5) (3 # 5) (1 # 10) (1 # 2)
           Samples.model0 true Demo.no_drop 0 0 (Demo.ids 3 2 0)).
  reflexivity.
Defined.

End ModelExamples.

(** ** The two hooks in order *)

Section Hooks.
Import Torch RNNTrainer.

Lemma last_item_some {A : Type} (l : list A) :
  l <> [] -> exists a, last_item l = Some a.
Proof.
  induction l as [|a [|b l] IH]; intros H; [congruence | now exists a |].
  destruct IH as [c Hc]; [discriminate|]. exists c. exact Hc.
Qed.

(** X23: [on_loss_begin] hands the logits on and stores both lists, so
    that the [on_backward_begin] that follows returns a loss, whatever
    [alpha] and [beta] are and whatever the trainer held before: it is
    enough that [outputs] is not empty, that the last raw activation has
    an axis, and that the learning-rate ratio can be computed. *)
Theorem hooks_in_order_return
        {A : Type} (self : RNNTrainer) (decoded : A)
        (raws outs : list Tensor) (loss : Q) (input : LongTensor) :
  outs <> [] ->
  (exists h len rest, last_item raws = Some h /\ shape h = len :: rest) ->
  adjust self = false \/ (bptt self <> 0 /\ l_shape input <> []) ->
  snd (on_loss_begin self (decoded, raws, outs)) = decoded
  /\ succeeds (snd (on_backward_begin
                      (fst (on_loss_begin self (decoded, raws, outs)))
                      loss input)).
Proof.
  intros Ho (h & len & rest & Hh & Hs) Hadj. split; [reflexivity|].
  destruct (last_item_some outs Ho) as [o Hlast].
  unfold on_loss_begin. cbn [fst]. unfold on_backward_begin.
  cbn [adjust bptt learn].
  assert (Hcore : forall s : RNNTrainer,
             out s = Some outs -> raw_out s = Some raws ->
             succeeds
               (let* last_loss :=
                  if negb (Qeq_bool (alpha s) 0)
                  then let* o := final_of "out" (out s) in
                       Ok (loss + alpha s * mean_sq (elems o))%Q
                  else Ok loss in
                if negb (Qeq_bool (beta s) 0)
                then let* h := final_of "raw_out" (raw_out s) in
                     match shape h with
                     | [] => Raise ValueError
                     | len :: _ =>
                         if (1 <? len)%nat
                         then Ok (last_loss
                                  + beta s * mean_sq (time_diff h))%Q
                         else Ok last_loss
                     end
                else Ok last_loss)).
  { intros s Eo Er. unfold final_of. rewrite Eo, Er, Hlast, Hh.
    cbn [bind]. rewrite Hs. unfold succeeds.
    destruct (negb (Qeq_bool (alpha s) 0)), (negb (Qeq_bool (beta s) 0));
      cbn [bind]; try destruct (1 <? len)%nat; eauto. }
  destruct (adjust self).
  - destruct Hadj as [Hf|(Hz & Hi)]; [discriminate|].
    destruct (l_shape input) as [|size0 tail]; [congruence|].
    replace (bptt self =? 0) with false by (symmetry; now apply Z.eqb_neq).
    cbn [snd]. apply Hcore; reflexivity.
  - cbn [snd]. apply Hcore; reflexivity.
Qed.

Lemma hooks_in_order_return_witness :
  snd (on_loss_begin Samples.penalised
         (5%Z, [Samples.activation], [Samples.activation])) = 5%Z
  /\ succeeds
       (snd (on_backward_begin
               (fst (on_loss_begin Samples.penalised
                       (5%Z, [Samples.activation], [Samples.activation])))
               1 (Demo.ids 45 10 0))).
Proof.
  apply (hooks_in_order_return Samples.penalised 5%Z [Samples.activation]
           [Samples.activation] 1 (Demo.ids 45 10 0)).
  - discriminate.
  - exists Samples.activation, 2%nat, [1; 2]%nat. split; reflexivity.
  - left. reflexivity.
Defined.

End Hooks.
